(** * robomath: pose algebra and controller conversions of the RoboDK API

    Shallow embedding of [Python/robodk/robomath.py].

    Numbers.  Python floats (and the ints mixed with them) are idealised as
    the real numbers of the Standard Library: rounding is not modelled, so
    an identity proved here is the exact identity that the floating-point
    code approximates.  What the interpreter raises is modelled: a division
    by zero, a [math.sqrt] or [math.acos] outside its domain, a failed
    unpacking, the exceptions the module raises itself.

    Objects.  A [Mat] is its [rows] attribute, a list of rows.  Where a claim
    is about which object a call writes to, the objects live in a store and
    names are references into it (section Store below). *)

From Stdlib Require Import Reals Lra Lia List ZArith Psatz RNsatz.
From stdpp Require Import base list.
Import ListNotations.
Open Scope R_scope.

(** ** Outcome of a call: a value or a raised exception *)

(** The messages of the [Exception(MatrixError, ...)] the module raises. *)
Inductive matrix_msg : Type :=
| PoseNotHomogeneous     (* invH, Offset: the pose matrix is not homogeneous *)
| SubmatrixSizeMismatch  (* __setitem__: indices do not match the new matrix *)
| CannotMultiply         (* __mul__: unexpected size *)
| InvalidProduct         (* __mul__ with a list of the wrong length *)
| SizeMismatch           (* __add__, __sub__, catV, catH *)
| InvalidDimension.      (* size(dim) with dim not in {None, 0, 1} *)

Inductive pyerr : Type :=
| ZeroDivisionError
| ValueError
| IndexError
| MatrixError (msg : matrix_msg).

Inductive result (A : Type) : Type :=
| Ok (a : A)
| Raise (e : pyerr).
Arguments Ok {A} a.
Arguments Raise {A} e.

Definition rbind {A B : Type} (m : result A) (k : A -> result B) : result B :=
  match m with
  | Ok a => k a
  | Raise e => Raise e
  end.

Notation "'do' x <- m ; k" := (rbind m (fun x => k))
  (at level 10, x name, m at level 100, k at level 200).

(** ** The [math] module on reals *)

(** [a / b] on floats raises [ZeroDivisionError] when [b] is zero. *)
Definition py_div (x y : R) : result R :=
  if Req_dec_T y 0 then Raise ZeroDivisionError else Ok (x / y).

(** [math.sqrt] raises [ValueError] on a negative argument. *)
Definition py_sqrt (value : R) : result R :=
  if Rlt_dec value 0 then Raise ValueError else Ok (sqrt value).

(** [math.acos] raises [ValueError] outside [-1, 1]. *)
Definition py_acos (value : R) : result R :=
  if Rlt_dec value (-1) then Raise ValueError
  else if Rlt_dec 1 value then Raise ValueError
  else Ok (acos value).

(** [math.atan2(y, x)]: the angle of the point [(x, y)], in [(-pi, pi]];
    [atan2(0, 0)] is [0]. *)
Definition atan2 (y x : R) : R :=
  if Rlt_dec 0 x then atan (y / x)
  else if Rlt_dec x 0 then
    if Rle_dec 0 y then atan (y / x) + PI else atan (y / x) - PI
  else if Rlt_dec 0 y then PI / 2
  else if Rlt_dec y 0 then - (PI / 2)
  else 0.

Definition pi : R := PI.

(** [sqrtA]: the square root of a value if it is greater than 0, else 0. *)
Definition sqrtA (value : R) : result R :=
  if Rle_dec value 0 then Ok 0 else py_sqrt value.

(** A [for] loop over a list, threading the state it updates. *)
Fixpoint for_in {A S : Type} (xs : list A) (body : A -> S -> result S) (s : S)
  : result S :=
  match xs with
  | [] => Ok s
  | x :: xs' => do s' <- body x s; for_in xs' body s'
  end.

(** Evaluate [f] on each element, left to right, stopping at the first
    exception (a list comprehension). *)
Fixpoint map_r {A B : Type} (f : A -> result B) (xs : list A) : result (list B) :=
  match xs with
  | [] => Ok []
  | x :: xs' => do y <- f x; do ys <- map_r f xs'; Ok (y :: ys)
  end.

(** The loop counter next to each element. *)
Definition enumerate {A : Type} (xs : list A) : list (nat * A) :=
  combine (seq 0 (length xs)) xs.

(** ** Python lists of numbers *)

(** [v[i]] under a length hypothesis (Python raises [IndexError] beyond). *)
Definition elt (v : list R) (i : nat) : R := nth i v 0.

Notation "v .[ i ]" := (elt v i%nat)
  (at level 1, left associativity, format "v .[ i ]").

(** [max(l)]: the largest element. *)
Definition py_max (l : list R) : R :=
  match l with
  | [] => 0
  | x :: l' => fold_left Rmax l' x
  end.

(** [l.index(x)]: the first position holding [x]; [ValueError] if none. *)
Fixpoint index (l : list R) (x : R) : result nat :=
  match l with
  | [] => Raise ValueError
  | y :: l' => if Req_dec_T y x then Ok 0%nat
               else do i <- index l' x; Ok (S i)
  end.

(** [int(x)]: truncation toward zero. *)
Definition py_int (x : R) : Z :=
  if Rle_dec 0 x then Int_part x else (- Int_part (- x))%Z.

(** ** Matrices as lists of rows *)

Abbreviation Mat := (list (list R)).

(** [M[i, j]] with two integer indices is [M.rows[i][j]].  Python raises
    [IndexError] outside the matrix; the accessor is used under a shape
    hypothesis, where it is the element. *)
Definition item (M : Mat) (i j : nat) : R := nth j (nth i M []) 0.

Notation "M .[ i , j ]" := (item M i%nat j%nat)
  (at level 1, left associativity, format "M .[ i ,  j ]").

(** [self.rows[i][j]], raising as Python does. *)
Definition rows_get (M : Mat) (i j : nat) : result R :=
  match M !! i with
  | Some row => match row !! j with
                | Some v => Ok v
                | None => Raise IndexError
                end
  | None => Raise IndexError
  end.

(** [self.rows[i][j] = v], raising as Python does. *)
Definition rows_set (M : Mat) (i j : nat) (v : R) : result Mat :=
  match M !! i with
  | Some row => if (j <? length row)%nat then Ok (<[i := <[j := v]> row]> M)
                else Raise IndexError
  | None => Raise IndexError
  end.

(** [Mat(rows, ncols)] with two integers: a zero matrix ([max(., 0)] is the
    identity on naturals); zero rows give the single empty row. *)
Definition Mat_zeros (rows ncols : nat) : Mat :=
  let m := rows in
  let n := ncols in
  if (m =? 0)%nat then repeat (repeat 0 0%nat) 1%nat
  else repeat (repeat 0 n) m.

(** [Mat(rows)] on a list of row lists.  Rows of differing lengths are
    filled with zeros up to the longest ([row += [0] * (n - len(row))]). *)
Definition Mat_of_rows (rows : list (list R)) : Mat :=
  match rows with
  | [] => [[]]
  | row0 :: rest =>
      let n := length row0 in
      if existsb (fun row => negb (length row =? n)%nat) rest then
        let n := list_max (map (fun i => length i) rows) in
        map (fun row => row ++ repeat 0 (n - length row)%nat) rows
      else rows
  end.

(** [zip] applied to the unpacked rows, as lists: as many tuples as the
    shortest row is long. *)
Definition zip_rows (rows : list (list R)) : list (list R) :=
  match rows with
  | [] => []
  | row0 :: rest =>
      let k := fold_left Nat.min (map (fun row => length row) rest) (length row0) in
      map (fun j => map (fun row => row.[j]) rows) (seq 0 k)
  end.

(** [Mat(v)] on a flat list: one row, transposed to a column. *)
Definition Mat_of_flat (v : list R) : Mat :=
  match v with
  | [] => [[]]
  | _ => zip_rows (Mat_of_rows [v])
  end.

(** [Mat.size()]: [(m, n)], [n] being the length of the first row. *)
Definition size (self : Mat) : nat * nat :=
  let m := length self in
  let n := match self with [] => 0%nat | row0 :: _ => length row0 end in
  (m, n).

Definition ColsCount (self : Mat) : result nat :=
  match self with
  | [] => Raise IndexError
  | row0 :: _ => Ok (length row0)
  end.

Definition RowsCount (self : Mat) : result nat :=
  match self with
  | [] => Raise IndexError
  | row0 :: _ => Ok (length row0)
  end.

(** [len(M)]. *)
Definition Mat_len (self : Mat) : result nat :=
  match self with
  | [] => Raise IndexError
  | row0 :: _ => Ok (length row0)
  end.

Definition tr (self : Mat) : Mat :=
  if (fst (size self) =? 0)%nat || (snd (size self) =? 0)%nat then Mat_zeros 0 0
  else Mat_of_rows (zip_rows self).

(** An index of [M[idx1, idx2]]: an integer or a slice [lo:hi] (the paths
    modelled use neither negative bounds nor steps). *)
Inductive index_spec : Type :=
| Idx (i : nat)
| Slice (lo hi : nat).

(** The range of [idx.indices(len)] for a slice, [range(i, i + 1)] for an
    integer. *)
Definition range_of (idx : index_spec) (len : nat) : list nat :=
  match idx with
  | Idx i => seq i 1
  | Slice lo hi => seq (Nat.min lo len) (Nat.min hi len - Nat.min lo len)
  end.

(** [self[idx1, idx2]] where at least one index is a slice: a new matrix. *)
Definition getitem (self : Mat) (idx1 idx2 : index_spec) : result Mat :=
  let matsize := size self in
  let rg1 := range_of idx1 (fst matsize) in
  let rg2 := range_of idx2 (snd matsize) in
  let newmat := Mat_zeros (length rg1) (length rg2) in
  for_in (enumerate rg1) (fun '(cm, i) newmat =>
    for_in (enumerate rg2) (fun '(cn, j) newmat =>
      do v <- rows_get self i j;
      rows_set newmat cm cn v) newmat) newmat.

(** [self[idx1, idx2] = item] for a matrix [item]. *)
Definition setitem (self : Mat) (idx1 idx2 : index_spec) (item : Mat) : result Mat :=
  let matsize := size self in
  let rg1 := range_of idx1 (fst matsize) in
  let rg2 := range_of idx2 (snd matsize) in
  let itmsz := size item in
  if negb (length rg1 =? fst itmsz)%nat || negb (length rg2 =? snd itmsz)%nat then
    Raise (MatrixError SubmatrixSizeMismatch)
  else
    for_in (enumerate rg1) (fun '(cm, i) self =>
      for_in (enumerate rg2) (fun '(cn, j) self =>
        do v <- rows_get item cm cn;
        rows_set self i j v) self) self.

(** [self[i, j] = v] for a number [v]: the item becomes [Mat([[v]])]. *)
Definition setitem_num (self : Mat) (i j : nat) (v : R) : result Mat :=
  setitem self (Idx i) (Idx j) (Mat_of_rows [[v]]).

(** [sum([a * b for (a, b) in zip(r1, r2)])]. *)
Definition dot_rows (r1 r2 : list R) : R :=
  fold_left Rplus (map (fun it => fst it * snd it) (combine r1 r2)) 0.

(** [self * mat] for two matrices. *)
Definition Mat_mul (self mat : Mat) : result Mat :=
  let '(matm, matn) := size mat in
  let '(m, n) := size self in
  if negb (n =? matm)%nat then Raise (MatrixError CannotMultiply)
  else
    let mat_t := tr mat in
    let mulmat := Mat_zeros m matn in
    for_in (seq 0 m) (fun x mulmat =>
      for_in (seq 0 (fst (size mat_t))) (fun y mulmat =>
        rows_set mulmat x y (dot_rows (nth x self []) (nth y mat_t []))) mulmat) mulmat.

(** [self * k] for a number [k]. *)
Definition Mat_scale (self : Mat) (k : R) : result Mat :=
  let '(m, n) := size self in
  let mulmat := Mat_zeros m n in
  for_in (seq 0 m) (fun x mulmat =>
    for_in (seq 0 n) (fun y mulmat =>
      do v <- rows_get self x y;
      rows_set mulmat x y (v * k)) mulmat) mulmat.

Definition eye4 : Mat :=
  Mat_of_rows [[1; 0; 0; 0]; [0; 1; 0; 0]; [0; 0; 1; 0]; [0; 0; 0; 1]].

Definition transl (tx ty tz : R) : Mat :=
  let xx := tx in
  let yy := ty in
  let zz := tz in
  Mat_of_rows [[1; 0; 0; xx]; [0; 1; 0; yy]; [0; 0; 1; zz]; [0; 0; 0; 1]].

(** [isHomogeneous]: 4x4 by [size] and the rotation block orthonormal
    within 1e-4 summed over the nine entries; the bottom row is not looked
    at (that test is commented out in the source). *)
Definition isHomogeneous (self : Mat) : result bool :=
  let '(m, n) := size self in
  if negb (m =? 4)%nat || negb (n =? 4)%nat then Ok false
  else
    do test <- getitem self (Slice 0 3) (Slice 0 3);
    do test <- Mat_mul test (tr test);
    do t00 <- rows_get test 0 0;
    do test <- setitem_num test 0 0 (t00 - 1.0);
    do t11 <- rows_get test 1 1;
    do test <- setitem_num test 1 1 (t11 - 1.0);
    do t22 <- rows_get test 2 2;
    do test <- setitem_num test 2 2 (t22 - 1.0);
    let zero := 0.0 in
    do zero <- for_in (seq 0 3) (fun x zero =>
                 for_in (seq 0 3) (fun y zero =>
                   do t <- rows_get test x y;
                   Ok (zero + Rabs t)) zero) zero;
    if Rgt_dec zero 1e-4 then Ok false else Ok true.

(** [invH]: the inverse of a pose, the matrix being assumed homogeneous. *)
Definition invH (self : Mat) : result Mat :=
  do homogeneous <- isHomogeneous self;
  if negb homogeneous then Raise (MatrixError PoseNotHomogeneous)
  else
    let Hout := tr self in
    do Hout <- setitem Hout (Idx 3) (Slice 0 3) (Mat_of_rows [[0; 0; 0]]);
    do rot <- getitem Hout (Slice 0 3) (Slice 0 3);
    do pos <- getitem self (Slice 0 3) (Idx 3);
    do prod <- Mat_mul rot pos;
    do neg <- Mat_scale prod (-1);
    do Hout <- setitem Hout (Slice 0 3) (Idx 3) neg;
    Ok Hout.

(** [tolist]: the first column, [tr(self).rows[0]]. *)
Definition tolist (self : Mat) : result (list R) :=
  match tr self with
  | [] => Raise IndexError
  | row0 :: _ => Ok row0
  end.

Definition Pos (self : Mat) : result (list R) :=
  do col <- getitem self (Slice 0 3) (Idx 3);
  tolist col.

Definition setPos (self : Mat) (newpos : list R) : result Mat :=
  do self <- setitem_num self 0 3 newpos.[0];
  do self <- setitem_num self 1 3 newpos.[1];
  do self <- setitem_num self 2 3 newpos.[2];
  Ok self.

Definition is_4x4 (M : Mat) : Prop :=
  length M = 4%nat /\ Forall (fun row => length row = 4%nat) M.

(** ** Euler XYZ: [Pose_2_TxyzRxyz] and [TxyzRxyz_2_Pose] *)

Definition Pose_2_TxyzRxyz (H : Mat) : result (list R) :=
  let x := H.[0, 3] in
  let y := H.[1, 3] in
  let z := H.[2, 3] in
  let a := H.[0, 0] in
  let b := H.[0, 1] in
  let c := H.[0, 2] in
  let d := H.[1, 2] in
  let e := H.[2, 2] in
  if Rgt_dec c (1.0 - 1e-10) then
    let ry1 := pi / 2 in
    let rx1 := 0 in
    let rz1 := atan2 H.[1, 0] H.[1, 1] in
    Ok [x; y; z; rx1; ry1; rz1]
  else if Rlt_dec c (-1.0 + 1e-10) then
    let ry1 := - pi / 2 in
    let rx1 := 0 in
    let rz1 := atan2 H.[1, 0] H.[1, 1] in
    Ok [x; y; z; rx1; ry1; rz1]
  else
    let sy := c in
    do cy1 <- py_sqrt (1 - sy * sy);
    do sx1 <- py_div (- d) cy1;
    do cx1 <- py_div e cy1;
    do sz1 <- py_div (- b) cy1;
    do cz1 <- py_div a cy1;
    let rx1 := atan2 sx1 cx1 in
    let ry1 := atan2 sy cy1 in
    let rz1 := atan2 sz1 cz1 in
    Ok [x; y; z; rx1; ry1; rz1].

(** The three-branch policy in the words of the specification. *)
Definition TxyzRxyz_policy (H : Mat) : list R :=
  let c := H.[0, 2] in
  let ry :=
    if Rgt_dec c (1 - 1e-10) then PI / 2
    else if Rlt_dec c (-1 + 1e-10) then - PI / 2
    else atan2 c (sqrt (1 - c * c)) in
  let rx :=
    if Rgt_dec c (1 - 1e-10) then 0
    else if Rlt_dec c (-1 + 1e-10) then 0
    else atan2 (- H.[1, 2] / cos ry) (H.[2, 2] / cos ry) in
  let rz :=
    if Rgt_dec c (1 - 1e-10) then atan2 H.[1, 0] H.[1, 1]
    else if Rlt_dec c (-1 + 1e-10) then atan2 H.[1, 0] H.[1, 1]
    else atan2 (- H.[0, 1] / cos ry) (H.[0, 0] / cos ry) in
  [H.[0, 3]; H.[1, 3]; H.[2, 3]; rx; ry; rz].

Definition TxyzRxyz_2_Pose (xyzrpw : list R) : result Mat :=
  match xyzrpw with
  | [x; y; z; rx; ry; rz] =>
      let srx := sin rx in
      let crx := cos rx in
      let sry := sin ry in
      let cry := cos ry in
      let srz := sin rz in
      let crz := cos rz in
      let H := Mat_of_rows
        [[cry * crz; - cry * srz; sry; x];
         [crx * srz + crz * srx * sry; crx * crz - srx * sry * srz; - cry * srx; y];
         [srx * srz - crx * crz * sry; crz * srx + crx * sry * srz; crx * cry; z];
         [0; 0; 0; 1]] in
      Ok H
  | _ => Raise ValueError
  end.

(** ** Euler ZYX in degrees: [pose_2_xyzrpw] and [xyzrpw_2_pose] *)

Definition pose_2_xyzrpw (H : Mat) : result (list R) :=
  let x := H.[0, 3] in
  let y := H.[1, 3] in
  let z := H.[2, 3] in
  if Rgt_dec H.[2, 0] (1.0 - 1e-10) then
    let p := - pi / 2 in
    let r := 0 in
    let w := atan2 (- H.[1, 2]) H.[1, 1] in
    Ok [x; y; z; r * 180 / pi; p * 180 / pi; w * 180 / pi]
  else if Rlt_dec H.[2, 0] (-1.0 + 1e-10) then
    let p := pi / 2 in
    let r := 0 in
    let w := atan2 H.[1, 2] H.[1, 1] in
    Ok [x; y; z; r * 180 / pi; p * 180 / pi; w * 180 / pi]
  else
    do s <- py_sqrt (H.[0, 0] * H.[0, 0] + H.[1, 0] * H.[1, 0]);
    let p := atan2 (- H.[2, 0]) s in
    let w := atan2 H.[1, 0] H.[0, 0] in
    let r := atan2 H.[2, 1] H.[2, 2] in
    Ok [x; y; z; r * 180 / pi; p * 180 / pi; w * 180 / pi].

Definition xyzrpw_2_pose (xyzrpw : list R) : result Mat :=
  match xyzrpw with
  | [x; y; z; r; p; w] =>
      let a := r * pi / 180 in
      let b := p * pi / 180 in
      let c := w * pi / 180 in
      let ca := cos a in
      let sa := sin a in
      let cb := cos b in
      let sb := sin b in
      let cc := cos c in
      let sc := sin c in
      let H := Mat_of_rows
        [[cb * cc; cc * sa * sb - ca * sc; sa * sc + ca * cc * sb; x];
         [cb * sc; ca * cc + sa * sb * sc; ca * sb * sc - cc * sa; y];
         [- sb; cb * sa; ca * cb; z];
         [0; 0; 0; 1]] in
      Ok H
  | _ => Raise ValueError
  end.

(** ** Vectors of three numbers *)

Definition norm (p : list R) : result R :=
  py_sqrt (p.[0] * p.[0] + p.[1] * p.[1] + p.[2] * p.[2]).

Definition normalize3 (a : list R) : result (list R) :=
  do n <- norm a;
  do norminv <- py_div 1.0 n;
  Ok [a.[0] * norminv; a.[1] * norminv; a.[2] * norminv].

Definition mult3 (v : list R) (d : R) : list R :=
  [v.[0] * d; v.[1] * d; v.[2] * d].

Definition pose_angle (pose : Mat) : result R :=
  let cos_ang := (pose.[0, 0] + pose.[1, 1] + pose.[2, 2] - 1) / 2 in
  let cos_ang := Rmin (Rmax cos_ang (-1)) 1 in
  py_acos cos_ang.

(** ** Quaternions *)

Definition pose_2_quaternion (Ti : Mat) : result (list R) :=
  let TOLERANCE_0 := 1e-9 in
  let TOLERANCE_180 := 1e-7 in
  let cosangle :=
    Rmin (Rmax ((Ti.[0, 0] + Ti.[1, 1] + Ti.[2, 2] - 1.0) * 0.5) (-1.0)) 1.0 in
  if Rgt_dec cosangle (1.0 - TOLERANCE_0) then
    let q1 := 1.0 in
    let q2 := 0.0 in
    let q3 := 0.0 in
    let q4 := 0.0 in
    Ok [q1; q2; q3; q4]
  else if Rlt_dec cosangle (-1.0 + TOLERANCE_180) then
    let diag := [Ti.[0, 0]; Ti.[1, 1]; Ti.[2, 2]] in
    do k <- index diag (py_max diag);
    let col := [Ti.[0, k]; Ti.[1, k]; Ti.[2, k]] in
    let col := <[k := col.[k] + 1.0]> col in
    do rotvector <- map_r (fun n =>
                      do s <- sqrtA (2.0 * (1.0 + diag.[k]));
                      py_div n s) col;
    let q1 := 0.0 in
    let q2 := rotvector.[0] in
    let q3 := rotvector.[1] in
    let q4 := rotvector.[2] in
    Ok [q1; q2; q3; q4]
  else
    let a := Ti.[0, 0] in
    let b := Ti.[1, 1] in
    let c := Ti.[2, 2] in
    let sign2 := if Rlt_dec (Ti.[2, 1] - Ti.[1, 2]) 0.0 then -1.0 else 1.0 in
    let sign3 := if Rlt_dec (Ti.[0, 2] - Ti.[2, 0]) 0.0 then -1.0 else 1.0 in
    let sign4 := if Rlt_dec (Ti.[1, 0] - Ti.[0, 1]) 0.0 then -1.0 else 1.0 in
    do s1 <- py_sqrt (Rmax (a + b + c + 1.0) 0.0);
    let q1 := s1 / 2.0 in
    do s2 <- py_sqrt (Rmax (a - b - c + 1.0) 0.0);
    let q2 := sign2 * s2 / 2.0 in
    do s3 <- py_sqrt (Rmax (- a + b - c + 1.0) 0.0);
    let q3 := sign3 * s3 / 2.0 in
    do s4 <- py_sqrt (Rmax (- a - b + c + 1.0) 0.0);
    let q4 := sign4 * s4 / 2.0 in
    Ok [q1; q2; q3; q4].

(** [quaternion_2_pose] as a function of the four numbers in [qin], for the
    callers that pass a list of their own making ([UR_2_Pose]); what the
    call does to the list object is in [Store.quaternion_2_pose]. *)
Definition quaternion_2_pose (qin : list R) : result Mat :=
  do qnorm <- py_sqrt (qin.[0] * qin.[0] + qin.[1] * qin.[1]
                       + qin.[2] * qin.[2] + qin.[3] * qin.[3]);
  do q0 <- py_div qin.[0] qnorm;
  do q1 <- py_div qin.[1] qnorm;
  do q2 <- py_div qin.[2] qnorm;
  do q3 <- py_div qin.[3] qnorm;
  let pose := Mat_of_rows
    [[1 - 2 * q2 * q2 - 2 * q3 * q3; 2 * q1 * q2 - 2 * q3 * q0; 2 * q1 * q3 + 2 * q2 * q0; 0];
     [2 * q1 * q2 + 2 * q3 * q0; 1 - 2 * q1 * q1 - 2 * q3 * q3; 2 * q2 * q3 - 2 * q1 * q0; 0];
     [2 * q1 * q3 - 2 * q2 * q0; 2 * q2 * q3 + 2 * q1 * q0; 1 - 2 * q1 * q1 - 2 * q2 * q2; 0];
     [0; 0; 0; 1]] in
  Ok pose.

(** ** Rotation vectors (Universal Robots) *)

Definition NUMERIC_TOLERANCE : R := 1e-8.

Definition saturate_1 (value : R) : R := Rmin (Rmax value (-1.0)) 1.0.

Definition Pose_2_UR (pose : Mat) : result (list R) :=
  do angle <- py_acos (saturate_1 ((pose.[0, 0] + pose.[1, 1] + pose.[2, 2] - 1) * 0.5));
  let rxyz := [pose.[2, 1] - pose.[1, 2]; pose.[0, 2] - pose.[2, 0];
               pose.[1, 0] - pose.[0, 1]] in
  do rxyz <-
    (if Rlt_dec angle NUMERIC_TOLERANCE then Ok [0; 0; 0]
     else
       let sin_angle := sin angle in
       do degenerate <-
         (if Rlt_dec (Rabs sin_angle) NUMERIC_TOLERANCE then Ok true
          else do n <- norm rxyz;
               Ok (if Rlt_dec n NUMERIC_TOLERANCE then true else false));
       if (degenerate : bool) then
         let d3 := [pose.[0, 0]; pose.[1, 1]; pose.[2, 2]] in
         let mx := py_max d3 in
         do mx_id <- index d3 mx;
         let rxyz :=
           if (mx_id =? 0)%nat then [pose.[0, 0] + 1; pose.[1, 0]; pose.[2, 0]]
           else if (mx_id =? 1)%nat then [pose.[0, 1]; pose.[1, 1] + 1; pose.[2, 1]]
           else [pose.[0, 2]; pose.[1, 2]; pose.[2, 2] + 1] in
         do s <- py_sqrt (Rmax 0 (2 * (1 + mx)));
         do f <- py_div angle s;
         Ok (mult3 rxyz f)
       else
         do rxyz <- normalize3 rxyz;
         Ok (mult3 rxyz angle));
  Ok [pose.[0, 3]; pose.[1, 3]; pose.[2, 3]; rxyz.[0]; rxyz.[1]; rxyz.[2]].

Definition UR_2_Pose (xyzwpr : list R) : result Mat :=
  match xyzwpr with
  | [x; y; z; w; p; r] =>
      let wpr := [w; p; r] in
      do angle <- norm wpr;
      let cosang := cos (0.5 * angle) in
      do q234 <-
        (if Req_dec_T angle 0.0 then Ok [0.0; 0.0; 0.0]
         else do ratio <- py_div (sin (0.5 * angle)) angle;
              Ok (mult3 wpr ratio));
      let q1234 := [cosang; q234.[0]; q234.[1]; q234.[2]] in
      do pose <- quaternion_2_pose q1234;
      do pose <- setPos pose [x; y; z];
      Ok pose
  | _ => Raise ValueError
  end.

(** ** Splitting a move into steps *)

Definition Pose_Split (pose1 pose2 : Mat) (delta_mm : R) : result (list Mat) :=
  do inv1 <- invH pose1;
  do pose_delta <- Mat_mul inv1 pose2;
  do pos <- Pos pose_delta;
  do distance <- norm pos;
  if Rle_dec distance delta_mm then Ok [pose2]
  else
    let pose_list := [] in
    do ur <- Pose_2_UR pose_delta;
    match ur with
    | [x; y; z; w; p; r] =>
        do ratio <- py_div distance delta_mm;
        let steps := Z.max 1 (py_int ratio) in
        do xd <- py_div x (IZR steps);
        do yd <- py_div y (IZR steps);
        do zd <- py_div z (IZR steps);
        do wd <- py_div w (IZR steps);
        do pd <- py_div p (IZR steps);
        do rd <- py_div r (IZR steps);
        for_in (seq 0 (Z.to_nat (steps - 1))) (fun i pose_list =>
          let factor := INR (i + 1) in
          do step <- UR_2_Pose [xd * factor; yd * factor; zd * factor;
                                wd * factor; pd * factor; rd * factor];
          do target <- Mat_mul pose1 step;
          Ok (pose_list ++ [target])) pose_list
    | _ => Raise ValueError
    end.

(** The functions on rows, under the names the store module uses for them. *)
Definition rows_tr := tr.
Definition rows_getitem := getitem.
Definition rows_setitem := setitem.

(** ** Store: objects that are written through their names

    A Python name holds a reference.  [q = qin] gives the list a second
    name, [M.tr()] makes a new matrix, [M[i, j] = v] writes into the matrix
    [M] names.  The store below holds the objects; the functions follow the
    source statement by statement, on references. *)

Module Store.

Inductive obj : Type :=
| OList (l : list R)    (* a Python list of numbers *)
| OMat (rows : Mat).    (* a [Mat], by its rows *)

Abbreviation store := (list obj).
Abbreviation ref := nat.

(** A computation reads and writes the store and may raise. *)
Definition M (A : Type) : Type := store -> result (A * store).

Definition ret {A : Type} (a : A) : M A := fun s => Ok (a, s).

Definition bind {A B : Type} (m : M A) (k : A -> M B) : M B :=
  fun s => match m s with
           | Ok (a, s') => k a s'
           | Raise e => Raise e
           end.

(** A computation that touches no object. *)
Definition lift {A : Type} (r : result A) : M A :=
  fun s => match r with
           | Ok a => Ok (a, s)
           | Raise e => Raise e
           end.

Notation "'let*' x := m 'in' k" := (bind m (fun x => k))
  (at level 10, x name, m at level 100, k at level 200).

(** A new object gets the next free reference. *)
Definition alloc (o : obj) : M ref :=
  fun s => Ok (length s, s ++ [o]).

Definition load (r : ref) : M obj :=
  fun s => match s !! r with
           | Some o => Ok (o, s)
           | None => Raise IndexError
           end.

Definition put (r : ref) (o : obj) : M unit :=
  fun s => if (r <? length s)%nat then Ok (tt, <[r := o]> s)
           else Raise IndexError.

Definition load_list (r : ref) : M (list R) :=
  let* o := load r in
  match o with
  | OList l => ret l
  | OMat _ => lift (Raise ValueError)
  end.

Definition load_mat (r : ref) : M Mat :=
  let* o := load r in
  match o with
  | OMat rows => ret rows
  | OList _ => lift (Raise ValueError)
  end.

(** [l[i]] on the list that [l] names. *)
Definition list_getitem (l : ref) (i : nat) : M R :=
  let* xs := load_list l in
  match xs !! i with
  | Some v => ret v
  | None => lift (Raise IndexError)
  end.

(** [l[i] = v]: the list that [l] names is written in place. *)
Definition list_setitem (l : ref) (i : nat) (v : R) : M unit :=
  let* xs := load_list l in
  if (i <? length xs)%nat then put l (OList (<[i := v]> xs))
  else lift (Raise IndexError).

Definition quaternion_2_pose (qin : ref) : M ref :=
  let* a0 := list_getitem qin 0 in
  let* a1 := list_getitem qin 1 in
  let* a2 := list_getitem qin 2 in
  let* a3 := list_getitem qin 3 in
  let* qnorm := lift (py_sqrt (a0 * a0 + a1 * a1 + a2 * a2 + a3 * a3)) in
  let q := qin in
  let* v := list_getitem q 0 in
  let* d := lift (py_div v qnorm) in
  let* _ := list_setitem q 0 d in
  let* v := list_getitem q 1 in
  let* d := lift (py_div v qnorm) in
  let* _ := list_setitem q 1 d in
  let* v := list_getitem q 2 in
  let* d := lift (py_div v qnorm) in
  let* _ := list_setitem q 2 d in
  let* v := list_getitem q 3 in
  let* d := lift (py_div v qnorm) in
  let* _ := list_setitem q 3 d in
  let* q0 := list_getitem q 0 in
  let* q1 := list_getitem q 1 in
  let* q2 := list_getitem q 2 in
  let* q3 := list_getitem q 3 in
  let* pose := alloc (OMat (Mat_of_rows
    [[1 - 2 * q2 * q2 - 2 * q3 * q3; 2 * q1 * q2 - 2 * q3 * q0; 2 * q1 * q3 + 2 * q2 * q0; 0];
     [2 * q1 * q2 + 2 * q3 * q0; 1 - 2 * q1 * q1 - 2 * q3 * q3; 2 * q2 * q3 - 2 * q1 * q0; 0];
     [2 * q1 * q3 - 2 * q2 * q0; 2 * q2 * q3 + 2 * q1 * q0; 1 - 2 * q1 * q1 - 2 * q2 * q2; 0];
     [0; 0; 0; 1]])) in
  ret pose.

(** The [Mat] methods: what they compute is the function of the same name
    on rows; here is which object receives it. *)

Definition Mat_new (rows : Mat) : M ref := alloc (OMat rows).

Definition tr (self : ref) : M ref :=
  let* rows := load_mat self in
  Mat_new (rows_tr rows).

Definition getitem (self : ref) (idx1 idx2 : index_spec) : M ref :=
  let* rows := load_mat self in
  let* newmat := lift (rows_getitem rows idx1 idx2) in
  Mat_new newmat.

Definition getitem_int (self : ref) (i j : nat) : M R :=
  let* rows := load_mat self in
  lift (rows_get rows i j).

Definition setitem (self : ref) (idx1 idx2 : index_spec) (item : ref) : M unit :=
  let* it := load_mat item in
  let* rows := load_mat self in
  let* rows' := lift (rows_setitem rows idx1 idx2 it) in
  put self (OMat rows').

Definition setitem_num (self : ref) (i j : nat) (v : R) : M unit :=
  let* item := Mat_new (Mat_of_rows [[v]]) in
  setitem self (Idx i) (Idx j) item.

Definition mul (self mat : ref) : M ref :=
  let* rows := load_mat self in
  let* other := load_mat mat in
  let* mulmat := lift (Mat_mul rows other) in
  Mat_new mulmat.

Definition scale (self : ref) (k : R) : M ref :=
  let* rows := load_mat self in
  let* mulmat := lift (Mat_scale rows k) in
  Mat_new mulmat.

Definition isHomogeneous (self : ref) : M bool :=
  let* rows := load_mat self in
  let '(m, n) := size rows in
  if negb (m =? 4)%nat || negb (n =? 4)%nat then ret false
  else
    let* test := getitem self (Slice 0 3) (Slice 0 3) in
    let* test_t := tr test in
    let* test := mul test test_t in
    let* t00 := getitem_int test 0 0 in
    let* _ := setitem_num test 0 0 (t00 - 1.0) in
    let* t11 := getitem_int test 1 1 in
    let* _ := setitem_num test 1 1 (t11 - 1.0) in
    let* t22 := getitem_int test 2 2 in
    let* _ := setitem_num test 2 2 (t22 - 1.0) in
    let zero := 0.0 in
    let* t := load_mat test in
    let* zero := lift (for_in (seq 0 3) (fun x zero =>
                   for_in (seq 0 3) (fun y zero =>
                     do t <- rows_get t x y;
                     Ok (zero + Rabs t)) zero) zero) in
    if Rgt_dec zero 1e-4 then ret false else ret true.

Definition invH (self : ref) : M ref :=
  let* homogeneous := isHomogeneous self in
  if negb homogeneous then lift (Raise (MatrixError PoseNotHomogeneous))
  else
    let* Hout := tr self in
    let* zeros := Mat_new (Mat_of_rows [[0; 0; 0]]) in
    let* _ := setitem Hout (Idx 3) (Slice 0 3) zeros in
    let* rot := getitem Hout (Slice 0 3) (Slice 0 3) in
    let* pos := getitem self (Slice 0 3) (Idx 3) in
    let* prod := mul rot pos in
    let* neg := scale prod (-1) in
    let* _ := setitem Hout (Slice 0 3) (Idx 3) neg in
    ret Hout.

End Store.

(** ** Predicates of the statements *)

(** The rotation block has orthonormal rows: [R * R^T = I], exactly. *)
Definition orthonormal (M : Mat) : Prop :=
  M.[0, 0] * M.[0, 0] + M.[0, 1] * M.[0, 1] + M.[0, 2] * M.[0, 2] = 1 /\
  M.[1, 0] * M.[1, 0] + M.[1, 1] * M.[1, 1] + M.[1, 2] * M.[1, 2] = 1 /\
  M.[2, 0] * M.[2, 0] + M.[2, 1] * M.[2, 1] + M.[2, 2] * M.[2, 2] = 1 /\
  M.[0, 0] * M.[1, 0] + M.[0, 1] * M.[1, 1] + M.[0, 2] * M.[1, 2] = 0 /\
  M.[0, 0] * M.[2, 0] + M.[0, 1] * M.[2, 1] + M.[0, 2] * M.[2, 2] = 0 /\
  M.[1, 0] * M.[2, 0] + M.[1, 1] * M.[2, 1] + M.[1, 2] * M.[2, 2] = 0.

(** Determinant of the rotation block. *)
Definition det3 (M : Mat) : R :=
  M.[0, 0] * (M.[1, 1] * M.[2, 2] - M.[1, 2] * M.[2, 1])
  - M.[0, 1] * (M.[1, 0] * M.[2, 2] - M.[1, 2] * M.[2, 0])
  + M.[0, 2] * (M.[1, 0] * M.[2, 1] - M.[1, 1] * M.[2, 0]).

(** An exact pose: 4x4, bottom row [0, 0, 0, 1], orthonormal block. *)
Definition exact_pose (M : Mat) : Prop :=
  is_4x4 M /\ nth 3 M [] = [0; 0; 0; 1] /\ orthonormal M.

(** An exact rigid pose: an exact pose whose block is a rotation. *)
Definition rigid_pose (M : Mat) : Prop :=
  exact_pose M /\ det3 M = 1.

(** Rows and columns of a matrix given as [m] by [n]. *)
Definition has_shape (M : Mat) (m n : nat) : Prop :=
  length M = m /\ Forall (fun row => length row = n) M.

(** What [isHomogeneous] sums: the distance of [R * R^T] to the identity,
    entry by entry, in the order and shape the source computes it. *)
Definition defect (a00 a01 a02 a10 a11 a12 a20 a21 a22 : R) : R :=
  0.0 + Rabs (0 + a00 * a00 + a01 * a01 + a02 * a02 - 1.0)
  + Rabs (0 + a00 * a10 + a01 * a11 + a02 * a12)
  + Rabs (0 + a00 * a20 + a01 * a21 + a02 * a22)
  + Rabs (0 + a10 * a00 + a11 * a01 + a12 * a02)
  + Rabs (0 + a10 * a10 + a11 * a11 + a12 * a12 - 1.0)
  + Rabs (0 + a10 * a20 + a11 * a21 + a12 * a22)
  + Rabs (0 + a20 * a00 + a21 * a01 + a22 * a02)
  + Rabs (0 + a20 * a10 + a21 * a11 + a22 * a12)
  + Rabs (0 + a20 * a20 + a21 * a21 + a22 * a22 - 1.0).

(** Two lists of numbers agree within [tol] in each component. *)
Definition within (tol : R) (u v : list R) : Prop :=
  length u = length v /\
  forall i : nat, (i < length v)%nat -> Rabs (u.[i] - v.[i]) <= tol.

(** The euclidean norm of four numbers. *)
Definition quaternion_norm (q : list R) : R :=
  sqrt (q.[0] * q.[0] + q.[1] * q.[1] + q.[2] * q.[2] + q.[3] * q.[3]).

(** The pose of a quaternion [(q0, q1, q2, q3)] at position [(x, y, z)]. *)
Definition quat_pose (q0 q1 q2 q3 x y z : R) : Mat :=
  [[1 - 2 * q2 * q2 - 2 * q3 * q3; 2 * q1 * q2 - 2 * q3 * q0; 2 * q1 * q3 + 2 * q2 * q0; x];
   [2 * q1 * q2 + 2 * q3 * q0; 1 - 2 * q1 * q1 - 2 * q3 * q3; 2 * q2 * q3 - 2 * q1 * q0; y];
   [2 * q1 * q3 - 2 * q2 * q0; 2 * q2 * q3 + 2 * q1 * q0; 1 - 2 * q1 * q1 - 2 * q2 * q2; z];
   [0; 0; 0; 1]].

(** Two matrices agree within [tol] in each of the sixteen entries. *)
Definition mat_within (tol : R) (A B : Mat) : Prop :=
  forall i j : nat, (i < 4)%nat -> (j < 4)%nat -> Rabs (item A i j - item B i j) <= tol.

(** One of three by its index. *)
Definition pick3 {A : Type} (i : nat) (x0 x1 x2 : A) : A :=
  match i with
  | 0%nat => x0
  | 1%nat => x1
  | _ => x2
  end.

(** * The rest of the module

    The functions below are the ones the statements above do not reach:
    the elementary poses, the other controller formats, the vector tools
    and the remaining [Mat] methods. *)

(** ** Lists indexed as Python does *)

(** [l[i]], raising [IndexError] beyond the end. *)
Definition list_get (l : list R) (i : nat) : result R :=
  match l !! i with
  | Some v => Ok v
  | None => Raise IndexError
  end.

(** [l[i] = v], raising [IndexError] beyond the end. *)
Definition list_set (l : list R) (i : nat) (v : R) : result (list R) :=
  if (i <? length l)%nat then Ok (<[i := v]> l) else Raise IndexError.

(** ** Elementary poses *)

Definition rotx (rx : R) : Mat :=
  let ct := cos rx in
  let st := sin rx in
  Mat_of_rows [[1; 0; 0; 0]; [0; ct; - st; 0]; [0; st; ct; 0]; [0; 0; 0; 1]].

Definition roty (ry : R) : Mat :=
  let ct := cos ry in
  let st := sin ry in
  Mat_of_rows [[ct; 0; st; 0]; [0; 1; 0; 0]; [- st; 0; ct; 0]; [0; 0; 0; 1]].

Definition rotz (rz : R) : Mat :=
  let ct := cos rz in
  let st := sin rz in
  Mat_of_rows [[ct; - st; 0; 0]; [st; ct; 0; 0]; [0; 0; 1; 0]; [0; 0; 0; 1]].

(** [transl(tx)] with a list: its first three elements. *)
Definition transl_list (tx : list R) : result Mat :=
  do xx <- list_get tx 0;
  do yy <- list_get tx 1;
  do zz <- list_get tx 2;
  Ok (Mat_of_rows [[1; 0; 0; xx]; [0; 1; 0; yy]; [0; 0; 1; zz]; [0; 0; 0; 1]]).

(** [RelTool] on a [Mat]: the target moved in its own (tool) frame. *)
Definition RelTool (target_pose : Mat) (x y z rx ry rz : R) : result Mat :=
  do t <- Mat_mul target_pose (transl x y z);
  do t <- Mat_mul t (rotx (rx * pi / 180));
  do t <- Mat_mul t (roty (ry * pi / 180));
  do new_target <- Mat_mul t (rotz (rz * pi / 180));
  Ok new_target.

(** [Offset] on a [Mat]: the target moved in the reference frame. *)
Definition Offset (target_pose : Mat) (x y z rx ry rz : R) : result Mat :=
  do homogeneous <- isHomogeneous target_pose;
  if negb homogeneous then Raise (MatrixError PoseNotHomogeneous)
  else
    do t <- Mat_mul (transl x y z) (rotx (rx * pi / 180.0));
    do t <- Mat_mul t (roty (ry * pi / 180.0));
    do t <- Mat_mul t (rotz (rz * pi / 180.0));
    do new_target <- Mat_mul t target_pose;
    Ok new_target.

(** [eye(size)]: the literal 4x4 identity, or a zero matrix whose diagonal
    is set to 1 ([Mat(size, size)] takes [max(size, 0)]). *)
Definition eye (size : Z) : result Mat :=
  if (size =? 4)%Z then
    Ok (Mat_of_rows [[1; 0; 0; 0]; [0; 1; 0; 0]; [0; 0; 1; 0]; [0; 0; 0; 1]])
  else
    let newmat := Mat_zeros (Z.to_nat size) (Z.to_nat size) in
    for_in (seq 0 (Z.to_nat size)) (fun i newmat => setitem_num newmat i i 1) newmat.

(** ** Euler angles of the other controllers *)

Definition PosePP (x y z r p w : R) : Mat :=
  let a := r * PI / 180.0 in
  let b := p * PI / 180.0 in
  let c := w * PI / 180.0 in
  let ca := cos a in
  let sa := sin a in
  let cb := cos b in
  let sb := sin b in
  let cc := cos c in
  let sc := sin c in
  Mat_of_rows
    [[cb * ca; ca * sc * sb - cc * sa; sc * sa + cc * ca * sb; x];
     [cb * sa; cc * ca + sc * sb * sa; cc * sb * sa - ca * sc; y];
     [- sb; cb * sc; cc * cb; z];
     [0.0; 0.0; 0.0; 1.0]].

Definition Pose (x y z rxd ryd rzd : R) : Mat :=
  let rx := rxd * pi / 180 in
  let ry := ryd * pi / 180 in
  let rz := rzd * pi / 180 in
  let srx := sin rx in
  let crx := cos rx in
  let sry := sin ry in
  let cry := cos ry in
  let srz := sin rz in
  let crz := cos rz in
  Mat_of_rows
    [[cry * crz; - cry * srz; sry; x];
     [crx * srz + crz * srx * sry; crx * crz - srx * sry * srz; - cry * srx; y];
     [srx * srz - crx * crz * sry; crz * srx + crx * sry * srz; crx * cry; z];
     [0; 0; 0; 1]].

Definition Pose_2_Staubli (H : Mat) : result (list R) :=
  do xyzwpr <- Pose_2_TxyzRxyz H;
  do v <- list_get xyzwpr 3;
  do xyzwpr <- list_set xyzwpr 3 (v * 180.0 / pi);
  do v <- list_get xyzwpr 4;
  do xyzwpr <- list_set xyzwpr 4 (v * 180.0 / pi);
  do v <- list_get xyzwpr 5;
  do xyzwpr <- list_set xyzwpr 5 (v * 180.0 / pi);
  Ok xyzwpr.







Definition Pose_2_KUKA (H : Mat) : result (list R) :=
  let x := H.[0, 3] in
  let y := H.[1, 3] in
  let z := H.[2, 3] in
  if Rgt_dec H.[2, 0] (1.0 - 1e-10) then
    let p := - pi / 2 in
    let r := 0 in
    let w := atan2 (- H.[1, 2]) H.[1, 1] in
    Ok [x; y; z; w * 180 / pi; p * 180 / pi; r * 180 / pi]
  else if Rlt_dec H.[2, 0] (-1.0 + 1e-10) then
    let p := pi / 2 in
    let r := 0 in
    let w := atan2 H.[1, 2] H.[1, 1] in
    Ok [x; y; z; w * 180 / pi; p * 180 / pi; r * 180 / pi]
  else
    do s <- py_sqrt (H.[0, 0] * H.[0, 0] + H.[1, 0] * H.[1, 0]);
    let p := atan2 (- H.[2, 0]) s in
    let w := atan2 H.[1, 0] H.[0, 0] in
    let r := atan2 H.[2, 1] H.[2, 2] in
    Ok [x; y; z; w * 180 / pi; p * 180 / pi; r * 180 / pi].

Definition KUKA_2_Pose (xyzrpw : list R) : result Mat :=
  match xyzrpw with
  | [x; y; z; r; p; w] =>
      let a := r * PI / 180.0 in
      let b := p * PI / 180.0 in
      let c := w * PI / 180.0 in
      let ca := cos a in
      let sa := sin a in
      let cb := cos b in
      let sb := sin b in
      let cc := cos c in
      let sc := sin c in
      Ok (Mat_of_rows
            [[cb * ca; ca * sc * sb - cc * sa; sc * sa + cc * ca * sb; x];
             [cb * sa; cc * ca + sc * sb * sa; cc * sb * sa - ca * sc; y];
             [- sb; cb * sc; cc * cb; z];
             [0.0; 0.0; 0.0; 1.0]])
  | _ => Raise ValueError
  end.

Definition Adept_2_Pose (xyzrpw : list R) : result Mat :=
  match xyzrpw with
  | [x; y; z; r; p; w] =>
      let a := r * PI / 180.0 in
      let b := p * PI / 180.0 in
      let c := w * PI / 180.0 in
      let ca := cos a in
      let sa := sin a in
      let cb := cos b in
      let sb := sin b in
      let cc := cos c in
      let sc := sin c in
      Ok (Mat_of_rows
            [[ca * cb * cc - sa * sc; - cc * sa - ca * cb * sc; ca * sb; x];
             [ca * sc + cb * cc * sa; ca * cc - cb * sa * sc; sa * sb; y];
             [- cc * sb; sb * sc; cb; z];
             [0.0; 0.0; 0.0; 1.0]])
  | _ => Raise ValueError
  end.


Definition Comau_2_Pose (xyzrpw : list R) : result Mat := Adept_2_Pose xyzrpw.




(** ** Denavit-Hartenberg links *)

Definition dh (rz tx tz rx : R) : Mat :=
  let crx := cos rx in
  let srx := sin rx in
  let crz := cos rz in
  let srz := sin rz in
  Mat_of_rows
    [[crz; - srz * crx; srz * srx; tx * crz];
     [srz; crz * crx; - crz * srx; tx * srz];
     [0; srx; crx; tz];
     [0; 0; 0; 1]].

Definition dhm (rx tx tz rz : R) : Mat :=
  let crx := cos rx in
  let srx := sin rx in
  let crz := cos rz in
  let srz := sin rz in
  Mat_of_rows
    [[crz; - srz; 0; tx];
     [crx * srz; crx * crz; - srx; - tz * srx];
     [srx * srz; crz * srx; crx; tz * crx];
     [0; 0; 0; 1]].

(** ** Joint encoders and link angles

    [jout = jin] names the caller's list; the assignments write into it and
    read from it.  Below the list is threaded through the assignments in
    the order of the source; [Store.joints_2_angles] and
    [Store.angles_2_joints] run them on the caller's object. *)

Definition joints_2_angles (jin : list R) (type : Z) : result (list R) :=
  let jout := jin in
  if (type =? 2)%Z then
    do j1 <- list_get jout 1;
    do j2 <- list_get jout 2;
    do jout <- list_set jout 2 (- j1 - j2);
    do j3 <- list_get jout 3;
    do jout <- list_set jout 3 (- j3);
    do j4 <- list_get jout 4;
    do jout <- list_set jout 4 (- j4);
    do j5 <- list_get jout 5;
    do jout <- list_set jout 5 (- j5);
    Ok jout
  else if (type =? 3)%Z then
    do j2 <- list_get jout 2;
    do jout <- list_set jout 2 (- j2);
    do j3 <- list_get jout 3;
    do jout <- list_set jout 3 (- j3);
    do j4 <- list_get jout 4;
    do jout <- list_set jout 4 (- j4);
    do j5 <- list_get jout 5;
    do jout <- list_set jout 5 (- j5);
    Ok jout
  else if (type =? 4)%Z then
    do j1 <- list_get jout 1;
    do j2 <- list_get jout 2;
    do jout <- list_set jout 2 (j1 + j2);
    Ok jout
  else if (type =? 11)%Z then
    do j1 <- list_get jout 1;
    do j2 <- list_get jout 2;
    do jout <- list_set jout 2 (- j1 - j2);
    do j0 <- list_get jout 0;
    do jout <- list_set jout 0 (- j0);
    do j3 <- list_get jout 3;
    do jout <- list_set jout 3 (- j3);
    do j5 <- list_get jout 5;
    do jout <- list_set jout 5 (- j5);
    Ok jout
  else Ok jout.

Definition angles_2_joints (jin : list R) (type : Z) : result (list R) :=
  let jout := jin in
  if (type =? 2)%Z then
    do j1 <- list_get jout 1;
    do j2 <- list_get jout 2;
    do jout <- list_set jout 2 (- j1 - j2);
    do j3 <- list_get jout 3;
    do jout <- list_set jout 3 (- j3);
    do j4 <- list_get jout 4;
    do jout <- list_set jout 4 (- j4);
    do j5 <- list_get jout 5;
    do jout <- list_set jout 5 (- j5);
    Ok jout
  else if (type =? 3)%Z then
    do j2 <- list_get jout 2;
    do jout <- list_set jout 2 (- j2);
    do j3 <- list_get jout 3;
    do jout <- list_set jout 3 (- j3);
    do j4 <- list_get jout 4;
    do jout <- list_set jout 4 (- j4);
    do j5 <- list_get jout 5;
    do jout <- list_set jout 5 (- j5);
    Ok jout
  else if (type =? 11)%Z then
    do j1 <- list_get jout 1;
    do j2 <- list_get jout 2;
    do jout <- list_set jout 2 (- j1 - j2);
    do j0 <- list_get jout 0;
    do jout <- list_set jout 0 (- j0);
    do j3 <- list_get jout 3;
    do jout <- list_set jout 3 (- j3);
    do j5 <- list_get jout 5;
    do jout <- list_set jout 5 (- j5);
    Ok jout
  else Ok jout.

(** The same two functions on the caller's list object: [jout = jin] is a
    second name for it, every assignment writes into it, and it is the
    object returned. *)

Module StoreJoints.
Import Store.

Definition joints_2_angles (jin : ref) (type : Z) : M ref :=
  let jout := jin in
  if (type =? 2)%Z then
    let* j1 := list_getitem jin 1 in
    let* j2 := list_getitem jin 2 in
    let* _ := list_setitem jout 2 (- j1 - j2) in
    let* j3 := list_getitem jin 3 in
    let* _ := list_setitem jout 3 (- j3) in
    let* j4 := list_getitem jin 4 in
    let* _ := list_setitem jout 4 (- j4) in
    let* j5 := list_getitem jin 5 in
    let* _ := list_setitem jout 5 (- j5) in
    ret jout
  else if (type =? 3)%Z then
    let* j2 := list_getitem jin 2 in
    let* _ := list_setitem jout 2 (- j2) in
    let* j3 := list_getitem jin 3 in
    let* _ := list_setitem jout 3 (- j3) in
    let* j4 := list_getitem jin 4 in
    let* _ := list_setitem jout 4 (- j4) in
    let* j5 := list_getitem jin 5 in
    let* _ := list_setitem jout 5 (- j5) in
    ret jout
  else if (type =? 4)%Z then
    let* j1 := list_getitem jin 1 in
    let* j2 := list_getitem jin 2 in
    let* _ := list_setitem jout 2 (j1 + j2) in
    ret jout
  else if (type =? 11)%Z then
    let* j1 := list_getitem jin 1 in
    let* j2 := list_getitem jin 2 in
    let* _ := list_setitem jout 2 (- j1 - j2) in
    let* j0 := list_getitem jin 0 in
    let* _ := list_setitem jout 0 (- j0) in
    let* j3 := list_getitem jin 3 in
    let* _ := list_setitem jout 3 (- j3) in
    let* j5 := list_getitem jin 5 in
    let* _ := list_setitem jout 5 (- j5) in
    ret jout
  else ret jout.

Definition angles_2_joints (jin : ref) (type : Z) : M ref :=
  let jout := jin in
  if (type =? 2)%Z then
    let* j1 := list_getitem jin 1 in
    let* j2 := list_getitem jin 2 in
    let* _ := list_setitem jout 2 (- j1 - j2) in
    let* j3 := list_getitem jin 3 in
    let* _ := list_setitem jout 3 (- j3) in
    let* j4 := list_getitem jin 4 in
    let* _ := list_setitem jout 4 (- j4) in
    let* j5 := list_getitem jin 5 in
    let* _ := list_setitem jout 5 (- j5) in
    ret jout
  else if (type =? 3)%Z then
    let* j2 := list_getitem jin 2 in
    let* _ := list_setitem jout 2 (- j2) in
    let* j3 := list_getitem jin 3 in
    let* _ := list_setitem jout 3 (- j3) in
    let* j4 := list_getitem jin 4 in
    let* _ := list_setitem jout 4 (- j4) in
    let* j5 := list_getitem jin 5 in
    let* _ := list_setitem jout 5 (- j5) in
    ret jout
  else if (type =? 11)%Z then
    let* j1 := list_getitem jin 1 in
    let* j2 := list_getitem jin 2 in
    let* _ := list_setitem jout 2 (- j1 - j2) in
    let* j0 := list_getitem jin 0 in
    let* _ := list_setitem jout 0 (- j0) in
    let* j3 := list_getitem jin 3 in
    let* _ := list_setitem jout 3 (- j3) in
    let* j5 := list_getitem jin 5 in
    let* _ := list_setitem jout 5 (- j5) in
    ret jout
  else ret jout.

End StoreJoints.

(** The converted values, for a list of six joints or more. *)
Definition joints_out (type : Z) (j0 j1 j2 j3 j4 j5 : R) (rest : list R) : list R :=
  if (type =? 2)%Z then [j0; j1; - j1 - j2; - j3; - j4; - j5] ++ rest
  else if (type =? 3)%Z then [j0; j1; - j2; - j3; - j4; - j5] ++ rest
  else if (type =? 4)%Z then [j0; j1; j1 + j2; j3; j4; j5] ++ rest
  else if (type =? 11)%Z then [- j0; j1; - j1 - j2; - j3; j4; - j5] ++ rest
  else [j0; j1; j2; j3; j4; j5] ++ rest.


(** ** More vector tools *)

Definition cross (a b : list R) : list R :=
  let c := [a.[1] * b.[2] - a.[2] * b.[1];
            a.[2] * b.[0] - a.[0] * b.[2];
            a.[0] * b.[1] - a.[1] * b.[0]] in
  c.

Definition dot (a b : list R) : R :=
  a.[0] * b.[0] + a.[1] * b.[1] + a.[2] * b.[2].

Definition angle3 (a b : list R) : result R :=
  do na <- normalize3 a;
  do nb <- normalize3 b;
  let cos_angle := dot na nb in
  let cos_angle := Rmin 1.0 (Rmax (-1.0) cos_angle) in
  py_acos cos_angle.

Definition pose_angle_between (pose1 pose2 : Mat) : result R :=
  do inv1 <- invH pose1;
  do rel <- Mat_mul inv1 pose2;
  pose_angle rel.

Definition subs3 (a b : list R) : list R :=
  [a.[0] - b.[0]; a.[1] - b.[1]; a.[2] - b.[2]].

Definition add3 (a b : list R) : list R :=
  [a.[0] + b.[0]; a.[1] + b.[1]; a.[2] + b.[2]].

Definition distance (a b : list R) : result R :=
  norm (subs3 a b).

Definition pose_is_similar (a b : Mat) (tolerance : R) : result bool :=
  do pa <- Pos a;
  do pb <- Pos b;
  do d <- distance pa pb;
  do ang <- pose_angle_between a b;
  if Rlt_dec (d + ang * 180 / pi) tolerance then Ok true else Ok false.

Definition intersect_line_2_plane (pline vline pplane vplane : list R)
  : result (list R) :=
  let D := - dot vplane pplane in
  do k <- py_div (- (D + dot vplane pline)) (dot vplane vline);
  let p := add3 pline (mult3 vline k) in
  Ok p.

Definition proj_pt_2_plane (point planepoint planeABC : list R) : result (list R) :=
  intersect_line_2_plane point planeABC planepoint planeABC.

Definition proj_pt_2_line (point paxe vaxe : list R) : result (list R) :=
  let vpaxe2point := subs3 point paxe in
  do dist <- py_div (dot vaxe vpaxe2point) (dot vaxe vaxe);
  Ok (add3 paxe (mult3 vaxe dist)).

(** ** More of the [Mat] class *)

(** [copy]: a new matrix of the same [size], filled entry by entry. *)
Definition copy (self : Mat) : result Mat :=
  let sz := size self in
  let newmat := Mat_zeros (fst sz) (snd sz) in
  for_in (seq 0 (fst sz)) (fun i newmat =>
    for_in (seq 0 (snd sz)) (fun j newmat =>
      do v <- rows_get self i j;
      setitem_num newmat i j v) newmat) newmat.

(** [Mat(M)] on a [Mat]: the rows of a copy. *)
Definition Mat_of_Mat (rows : Mat) : result Mat :=
  do c <- copy rows;
  Ok (Mat_of_rows c).

(** The slice [lo:] of a dimension of length [len], and the slice [:]. *)
Definition slice_from (lo len : nat) : index_spec := Slice lo len.
Definition slice_all (len : nat) : index_spec := Slice 0 len.

(** [catV] with a [Mat]. *)
Definition catV (self mat2 : Mat) : result Mat :=
  let sz1 := size self in
  let sz2 := size mat2 in
  if negb (snd sz1 =? snd sz2)%nat then Raise (MatrixError SizeMismatch)
  else
    let newmat := Mat_zeros (fst sz1 + fst sz2) (snd sz1) in
    do newmat <- setitem newmat (Slice 0 (fst sz1))
                   (slice_all (snd (size newmat))) self;
    do newmat <- setitem newmat (slice_from (fst sz1) (fst (size newmat)))
                   (slice_all (snd (size newmat))) mat2;
    Ok newmat.

(** [self.rows[x]] and [self.rows[x] = row]. *)
Definition rows_row (M : Mat) (x : nat) : result (list R) :=
  match M !! x with
  | Some row => Ok row
  | None => Raise IndexError
  end.

Definition rows_set_row (M : Mat) (x : nat) (row : list R) : result Mat :=
  if (x <? length M)%nat then Ok (<[x := row]> M) else Raise IndexError.

Definition size_eqb (s1 s2 : nat * nat) : bool :=
  (fst s1 =? fst s2)%nat && (snd s1 =? snd s2)%nat.

(** [self + mat] for two matrices. *)
Definition Mat_add (self mat : Mat) : result Mat :=
  let sz := size self in
  let m := fst sz in
  let n := snd sz in
  let ret := Mat_zeros m n in
  if negb (size_eqb sz (size mat)) then Raise (MatrixError SizeMismatch)
  else
    for_in (seq 0 m) (fun x ret =>
      do r1 <- rows_row self x;
      do r2 <- rows_row mat x;
      let row := map (fun item => 0 + fst item + snd item) (combine r1 r2) in
      rows_set_row ret x row) ret.

(** [self - mat] for two matrices. *)
Definition Mat_sub (self mat : Mat) : result Mat :=
  let sz := size self in
  let m := fst sz in
  let n := snd sz in
  let ret := Mat_zeros m n in
  if negb (size_eqb sz (size mat)) then Raise (MatrixError SizeMismatch)
  else
    for_in (seq 0 m) (fun x ret =>
      do r1 <- rows_row self x;
      do r2 <- rows_row mat x;
      let row := map (fun item => fst item - snd item) (combine r1 r2) in
      rows_set_row ret x row) ret.

(** [self * mat] for a list [mat]: a point (one element fewer than rows,
    completed by 1) or a vector (as many elements as rows). *)
Definition Mat_mul_list (self : Mat) (mat : list R) : result (list R) :=
  let szvect := length mat in
  let m := fst (size self) in
  let matvect := Mat_of_flat mat in
  if (szvect + 1 =? m)%nat then
    do vectok <- catV matvect (Mat_of_rows [[1]]);
    do result <- Mat_mul self vectok;
    do cut <- getitem result (Slice 0 (fst (size result) - 1))
                (slice_all (snd (size result)));
    rows_row (tr cut) 0
  else if (szvect =? m)%nat then
    do vect <- Mat_of_Mat matvect;
    do result <- Mat_mul self vect;
    rows_row (tr result) 0
  else Raise (MatrixError InvalidProduct).

(** [==] on matrices: [pose_is_similar] with its default tolerance;
    [None] is never equal. *)
Definition Mat_eq (self : Mat) (other : option Mat) : result bool :=
  match other with
  | None => Ok false
  | Some other => pose_is_similar other self 0.1
  end.

Definition Mat_ne (self : Mat) (other : option Mat) : result bool :=
  do e <- Mat_eq self other;
  Ok (negb e).

Definition VX (self : Mat) : result (list R) :=
  do col <- getitem self (Slice 0 3) (Idx 0);
  tolist col.

Definition VY (self : Mat) : result (list R) :=
  do col <- getitem self (Slice 0 3) (Idx 1);
  tolist col.

Definition VZ (self : Mat) : result (list R) :=
  do col <- getitem self (Slice 0 3) (Idx 2);
  tolist col.

Definition Rot33 (self : Mat) : result Mat :=
  getitem self (Slice 0 3) (Slice 0 3).

Definition setVX (self : Mat) (v_xyz : list R) : result Mat :=
  do v_xyz <- normalize3 v_xyz;
  do self <- setitem_num self 0 0 v_xyz.[0];
  do self <- setitem_num self 1 0 v_xyz.[1];
  do self <- setitem_num self 2 0 v_xyz.[2];
  Ok self.

Definition setVY (self : Mat) (v_xyz : list R) : result Mat :=
  do v_xyz <- normalize3 v_xyz;
  do self <- setitem_num self 0 1 v_xyz.[0];
  do self <- setitem_num self 1 1 v_xyz.[1];
  do self <- setitem_num self 2 1 v_xyz.[2];
  Ok self.

Definition setVZ (self : Mat) (v_xyz : list R) : result Mat :=
  do v_xyz <- normalize3 v_xyz;
  do self <- setitem_num self 0 2 v_xyz.[0];
  do self <- setitem_num self 1 2 v_xyz.[1];
  do self <- setitem_num self 2 2 v_xyz.[2];
  Ok self.

Definition translationPose (self : Mat) : result Mat :=
  do p <- Pos self;
  transl_list p.

(** [rotationPose]: [Mat(self)] is a copy, and the copy is written. *)
Definition rotationPose (self : Mat) : result Mat :=
  do mat_rotation <- Mat_of_Mat self;
  do mat_rotation <- setPos mat_rotation [0; 0; 0];
  Ok mat_rotation.

(** ** A pose from a point and an axis *)

Definition point_Xaxis_2_pose (point xaxis zaxis_hint1 zaxis_hint2 : list R)
  : result Mat :=
  do pose <- eye 4;
  do pose <- setPos pose point;
  do pose <- setVX pose xaxis;
  let zaprox := zaxis_hint1 in
  do ang <- angle3 xaxis zaprox;
  let delta := Rabs ang in
  let zaprox :=
    if Rlt_dec delta 0.03 then zaxis_hint2
    else if Rlt_dec (Rabs (delta - pi)) 0.03 then zaxis_hint2
    else zaprox in
  do yaxis <- normalize3 (cross zaprox xaxis);
  let zaxis := cross xaxis yaxis in
  do pose <- setVY pose yaxis;
  do pose <- setVZ pose zaxis;
  Ok pose.

Definition point_Yaxis_2_pose (point yaxis zaxis_hint1 zaxis_hint2 : list R)
  : result Mat :=
  do pose <- eye 4;
  do pose <- setPos pose point;
  do pose <- setVY pose yaxis;
  let zaprox := zaxis_hint1 in
  do ang <- angle3 yaxis zaprox;
  let delta := Rabs ang in
  let zaprox :=
    if Rlt_dec delta 0.03 then zaxis_hint2
    else if Rlt_dec (Rabs (delta - pi)) 0.03 then zaxis_hint2
    else zaprox in
  do xaxis <- normalize3 (cross yaxis zaprox);
  let zaxis := cross xaxis yaxis in
  do pose <- setVX pose xaxis;
  do pose <- setVZ pose zaxis;
  Ok pose.

Definition point_Zaxis_2_pose (point zaxis yaxis_hint1 yaxis_hint2 : list R)
  : result Mat :=
  do pose <- eye 4;
  do pose <- setPos pose point;
  do pose <- setVZ pose zaxis;
  let yaprox := yaxis_hint1 in
  do ang <- angle3 zaxis yaprox;
  let delta := Rabs ang in
  let yaprox :=
    if Rlt_dec delta 0.03 then yaxis_hint2
    else if Rlt_dec (Rabs (delta - pi)) 0.03 then yaxis_hint2
    else yaprox in
  do xaxis <- normalize3 (cross yaprox zaxis);
  let yaxis := cross zaxis xaxis in
  do pose <- setVX pose xaxis;
  do pose <- setVY pose yaxis;
  Ok pose.

(** * Proofs *)

(** ** Evaluation *)

Lemma py_sqrt_nonneg (x : R) : 0 <= x -> py_sqrt x = Ok (sqrt x).
Proof.
  intros Hx. unfold py_sqrt. destruct (Rlt_dec x 0); [lra | reflexivity].
Qed.

Lemma py_div_nonzero (x y : R) : y <> 0 -> py_div x y = Ok (x / y).
Proof.
  intros Hy. unfold py_div. destruct (Req_dec_T y 0); [contradiction | reflexivity].
Qed.

(** Matrices of known shape evaluate by unfolding the list functions; the
    operations on reals stay as they are. *)
Ltac mat_eval :=
  cbn [invH isHomogeneous getitem setitem setitem_num Mat_mul Mat_scale tr
       Mat_zeros Mat_of_rows Mat_of_flat zip_rows size rows_tr rows_getitem
       rows_setitem Pos tolist setPos eye4 transl RowsCount ColsCount Mat_len
       range_of enumerate for_in map_r rbind rows_get rows_set dot_rows elt
       item mult3 fst snd length Nat.eqb Nat.ltb Nat.leb negb orb andb existsb
       map seq combine repeat Nat.min Nat.sub Nat.add nth fold_left lookup
       list_lookup insert list_insert list_max fold_right Nat.max app].

Ltac mat_eval_in H :=
  cbn [invH isHomogeneous getitem setitem setitem_num Mat_mul Mat_scale tr
       Mat_zeros Mat_of_rows Mat_of_flat zip_rows size rows_tr rows_getitem
       rows_setitem Pos tolist setPos eye4 transl RowsCount ColsCount Mat_len
       range_of enumerate for_in map_r rbind rows_get rows_set dot_rows elt
       item mult3 fst snd length Nat.eqb Nat.ltb Nat.leb negb orb andb existsb
       map seq combine repeat Nat.min Nat.sub Nat.add nth fold_left lookup
       list_lookup insert list_insert list_max fold_right Nat.max app] in H.

Lemma length_4_inv {A : Type} (l : list A) :
  length l = 4%nat -> exists a b c d, l = [a; b; c; d].
Proof.
  destruct l as [| a [| b [| c [| d [| e l]]]]]; cbn; intros Hl;
    try discriminate.
  exists a, b, c, d. reflexivity.
Qed.

(** A 4x4 matrix is sixteen numbers. *)
Lemma is_4x4_inv (M : Mat) :
  is_4x4 M ->
  exists a00 a01 a02 a03 a10 a11 a12 a13 a20 a21 a22 a23 a30 a31 a32 a33,
    M = [[a00; a01; a02; a03]; [a10; a11; a12; a13];
         [a20; a21; a22; a23]; [a30; a31; a32; a33]].
Proof.
  intros [Hlen Hrows].
  destruct (length_4_inv M Hlen) as (r0 & r1 & r2 & r3 & ->).
  inversion_clear Hrows as [| ? ? H0 Hrows1].
  inversion_clear Hrows1 as [| ? ? H1 Hrows2].
  inversion_clear Hrows2 as [| ? ? H2 Hrows3].
  inversion_clear Hrows3 as [| ? ? H3 _].
  destruct (length_4_inv r0 H0) as (a00 & a01 & a02 & a03 & ->).
  destruct (length_4_inv r1 H1) as (a10 & a11 & a12 & a13 & ->).
  destruct (length_4_inv r2 H2) as (a20 & a21 & a22 & a23 & ->).
  destruct (length_4_inv r3 H3) as (a30 & a31 & a32 & a33 & ->).
  repeat eexists.
Qed.

Lemma is_4x4_intro (a00 a01 a02 a03 a10 a11 a12 a13 a20 a21 a22 a23 a30 a31 a32 a33 : R) :
  is_4x4 [[a00; a01; a02; a03]; [a10; a11; a12; a13];
          [a20; a21; a22; a23]; [a30; a31; a32; a33]].
Proof. split; [reflexivity | repeat constructor]. Qed.

(** Inside a 4x4 matrix the accessor is what [rows[i][j]] returns. *)
Lemma item_rows_get (M : Mat) (i j : nat) :
  is_4x4 M -> (i < 4)%nat -> (j < 4)%nat -> rows_get M i j = Ok (item M i j).
Proof.
  intros HM Hi Hj.
  destruct (is_4x4_inv M HM)
    as (a00 & a01 & a02 & a03 & a10 & a11 & a12 & a13 &
        a20 & a21 & a22 & a23 & a30 & a31 & a32 & a33 & ->).
  destruct i as [| [| [| [| i]]]]; try lia;
    destruct j as [| [| [| [| j]]]]; try lia; reflexivity.
Qed.

(** ** Row and column counts *)

(** C10.  For every matrix of [r >= 1] rows and [c >= 1] columns,
    [RowsCount()] returns [c], the number of columns, which is also what
    [ColsCount()] and [len()] return, while [size] reports [r] rows; so
    [RowsCount()] is the number of rows exactly when the matrix is square.
    The column [Mat([x, y, z])], 3 by 1, reports [RowsCount() = 1]. *)
Theorem RowsCount_returns_columns (M : Mat) (r c : nat) :
  (1 <= r)%nat -> (1 <= c)%nat -> has_shape M r c ->
  RowsCount M = Ok c /\
  RowsCount M = ColsCount M /\
  RowsCount M = Mat_len M /\
  size M = (r, c) /\
  (RowsCount M = Ok r <-> r = c) /\
  (forall x y z : R, size (Mat_of_flat [x; y; z]) = (3%nat, 1%nat) /\
                     RowsCount (Mat_of_flat [x; y; z]) = Ok 1%nat).
Proof.
  intros Hr Hc [Hlen Hrows].
  destruct M as [| row0 M']; [cbn in Hlen; lia |].
  inversion_clear Hrows as [| ? ? Hrow0 _].
  unfold RowsCount, ColsCount, Mat_len, size. rewrite Hrow0, Hlen.
  repeat split; try reflexivity.
  - intros Heq. injection Heq as Heq. congruence.
  - intros ->. reflexivity.
Qed.

Lemma RowsCount_returns_columns_witness :
  RowsCount [[1; 2]; [3; 4]; [5; 6]] = Ok 2%nat.
Proof.
  refine (proj1 (RowsCount_returns_columns [[1; 2]; [3; 4]; [5; 6]] 3 2 _ _ _)).
  - lia.
  - lia.
  - split; [reflexivity | repeat constructor].
Defined.

(** ** Construction from rows *)

Lemma list_max_map_ge {A : Type} (f : A -> nat) (l : list A) (x : A) :
  In x l -> (f x <= list_max (map f l))%nat.
Proof.
  induction l as [| y l IH]; intros Hin; [contradiction |].
  unfold list_max in *. cbn [map fold_right].
  destruct Hin as [-> | Hin]; [lia |].
  specialize (IH Hin). lia.
Qed.

Lemma existsb_length_false (n : nat) (rest : list (list R)) :
  existsb (fun row => negb (length row =? n)%nat) rest = false ->
  Forall (fun row => length row = n) rest.
Proof.
  induction rest as [| row rest IH]; cbn; intros Hex; constructor.
  - apply orb_false_iff in Hex as [Hrow _].
    apply negb_false_iff, Nat.eqb_eq in Hrow. exact Hrow.
  - apply IH. apply orb_false_iff in Hex as [_ Hrest]. exact Hrest.
Qed.

Lemma list_max_uniform (n : nat) (rest : list (list R)) :
  Forall (fun row => length row = n) rest ->
  list_max (map (fun i => length i) rest) = match rest with [] => 0%nat | _ => n end.
Proof.
  induction 1 as [| row rest Hrow Hrest IH]; [reflexivity |].
  unfold list_max in *. cbn [map fold_right]. rewrite IH, Hrow.
  destruct rest; lia.
Qed.

(** C9.  For every list of row lists, jagged or not, [Mat(rows)] is built
    (the constructor is a total function) and each of its rows has exactly
    [n] entries, [n] being the largest length supplied; when rows are
    supplied, each is kept whole and followed by [n - len(row)] zeros. *)
Theorem Mat_of_rows_pads (rows : list (list R)) :
  let n := list_max (map (fun row => length row) rows) in
  Forall (fun row => length row = n) (Mat_of_rows rows) /\
  (rows <> [] ->
   Mat_of_rows rows = map (fun row => row ++ repeat 0 (n - length row)%nat) rows).
Proof.
  intros n.
  assert (Hpad : Forall (fun row => length row = n)
                   (map (fun row => row ++ repeat 0 (n - length row)%nat) rows)).
  { apply List.Forall_forall. intros padded Hin.
    apply in_map_iff in Hin as (row & <- & Hin).
    rewrite length_app, repeat_length.
    pose proof (list_max_map_ge (fun row : list R => length row) rows row Hin) as Hle.
    fold n in Hle. lia. }
  destruct rows as [| row0 rest].
  - split; [repeat constructor | congruence].
  - unfold Mat_of_rows.
    destruct (existsb _ rest) eqn:Hex.
    + fold n. split; [exact Hpad | reflexivity].
    + apply existsb_length_false in Hex.
      assert (Hn : n = length row0).
      { subst n. cbn [map list_max fold_right].
        change (fold_right Nat.max 0%nat (map (fun row : list R => length row) rest))
          with (list_max (map (fun i : list R => length i) rest)).
        rewrite (list_max_uniform _ _ Hex). destruct rest; lia. }
      assert (Hsame : map (fun row => row ++ repeat 0 (n - length row)%nat) (row0 :: rest)
                      = row0 :: rest).
      { rewrite <- (map_id (row0 :: rest)) at 2. apply map_ext_in.
        intros row [<- | Hin].
        - rewrite Hn, Nat.sub_diag. apply app_nil_r.
        - rewrite List.Forall_forall in Hex. rewrite Hn, (Hex row Hin), Nat.sub_diag.
          apply app_nil_r. }
      split; [rewrite <- Hsame; exact Hpad | intros _; symmetry; exact Hsame].
Qed.


(** ** Homogeneity test and inverse, on rows *)

Lemma isHomogeneous_4x4 (a00 a01 a02 a03 a10 a11 a12 a13 a20 a21 a22 a23 a30 a31 a32 a33 : R) :
  isHomogeneous [[a00; a01; a02; a03]; [a10; a11; a12; a13];
                 [a20; a21; a22; a23]; [a30; a31; a32; a33]]
  = Ok (if Rgt_dec (defect a00 a01 a02 a10 a11 a12 a20 a21 a22) 1e-4
        then false else true).
Proof.
  mat_eval. fold (defect a00 a01 a02 a10 a11 a12 a20 a21 a22).
  destruct (Rgt_dec _ _); reflexivity.
Qed.

Lemma invH_4x4 (a00 a01 a02 a03 a10 a11 a12 a13 a20 a21 a22 a23 a30 a31 a32 a33 : R) :
  invH [[a00; a01; a02; a03]; [a10; a11; a12; a13];
        [a20; a21; a22; a23]; [a30; a31; a32; a33]]
  = if Rgt_dec (defect a00 a01 a02 a10 a11 a12 a20 a21 a22) 1e-4
    then Raise (MatrixError PoseNotHomogeneous)
    else Ok [[a00; a10; a20; (0 + a00 * a03 + a10 * a13 + a20 * a23) * -1];
             [a01; a11; a21; (0 + a01 * a03 + a11 * a13 + a21 * a23) * -1];
             [a02; a12; a22; (0 + a02 * a03 + a12 * a13 + a22 * a23) * -1];
             [0; 0; 0; a33]].
Proof.
  unfold invH. rewrite isHomogeneous_4x4.
  destruct (Rgt_dec _ _); reflexivity.
Qed.

(** ** Running the store *)

Module StoreFacts.
Import Store.

Lemma run_alloc (s ext : list obj) (o : obj) :
  alloc o (s ++ ext) = Ok ((length s + length ext)%nat, s ++ (ext ++ [o])).
Proof. unfold alloc. rewrite length_app, <- app_assoc. reflexivity. Qed.

Lemma run_load_new (s ext : list obj) (k : nat) :
  load (length s + k) (s ++ ext) =
  match ext !! k with
  | Some o => Ok (o, s ++ ext)
  | None => Raise IndexError
  end.
Proof.
  unfold load. rewrite lookup_app_r by lia.
  replace (length s + k - length s)%nat with k by lia. reflexivity.
Qed.

Lemma run_load_old (s ext : list obj) (r : nat) (o : obj) :
  s !! r = Some o -> load r (s ++ ext) = Ok (o, s ++ ext).
Proof.
  intros Hr. unfold load. rewrite (lookup_app_l_Some _ _ _ _ Hr). reflexivity.
Qed.

Lemma run_put_new (s ext : list obj) (k : nat) (o : obj) :
  (k < length ext)%nat ->
  put (length s + k) o (s ++ ext) = Ok (tt, s ++ <[k := o]> ext).
Proof.
  intros Hk. unfold put. rewrite length_app.
  destruct (Nat.ltb_spec (length s + k) (length s + length ext)); [| lia].
  rewrite insert_app_r. reflexivity.
Qed.

Lemma run_put_old (s ext : list obj) (r : nat) (o : obj) :
  (r < length s)%nat ->
  put r o (s ++ ext) = Ok (tt, <[r := o]> s ++ ext).
Proof.
  intros Hr. unfold put. rewrite length_app.
  destruct (Nat.ltb_spec r (length s + length ext)); [| lia].
  rewrite insert_app_l by assumption. reflexivity.
Qed.

(** Objects that were in the store stay where they are when the store
    only grows. *)
Lemma lookup_old (s ext : list obj) (r : nat) :
  (r < length s)%nat -> (s ++ ext) !! r = s !! r.
Proof. intros Hr. apply lookup_app_l. assumption. Qed.
End StoreFacts.

Ltac store_unfold :=
  cbv [Store.invH Store.isHomogeneous Store.tr Store.getitem Store.getitem_int
       Store.setitem Store.setitem_num Store.mul Store.scale Store.Mat_new
       Store.bind Store.ret Store.lift Store.load_mat Store.load_list
       Store.list_getitem Store.list_setitem Store.quaternion_2_pose].

Ltac store_step :=
  first [ rewrite StoreFacts.run_alloc
        | rewrite StoreFacts.run_load_new
        | erewrite StoreFacts.run_load_old by eassumption
        | rewrite StoreFacts.run_put_new by (cbn [length]; lia) ].

Ltac store_run := repeat (store_step; mat_eval).

(** The same for an object that was in the store before the call. *)
Ltac store_old_step Hlt :=
  first [ erewrite StoreFacts.run_load_old
            by (first [ eassumption
                      | apply list_lookup_insert_eq; rewrite ?length_insert; exact Hlt ])
        | rewrite StoreFacts.run_put_old by (rewrite ?length_insert; exact Hlt) ].

(** What [Store.invH] does on a 4x4 matrix: it raises when the test fails
    and otherwise returns a new object, leaving every object of the
    initial store as it was. *)
Lemma store_invH_4x4 (s : Store.store) (self : Store.ref)
    (a00 a01 a02 a03 a10 a11 a12 a13 a20 a21 a22 a23 a30 a31 a32 a33 : R) :
  let M := [[a00; a01; a02; a03]; [a10; a11; a12; a13];
            [a20; a21; a22; a23]; [a30; a31; a32; a33]] in
  s !! self = Some (Store.OMat M) ->
  match invH M with
  | Raise e => Store.invH self s = Raise e
  | Ok H => exists ext,
      Store.invH self s = Ok ((length s + 6)%nat, s ++ ext) /\
      ext !! 6%nat = Some (Store.OMat H)
  end.
Proof.
  intros M Hself. subst M. rewrite invH_4x4.
  replace (Store.invH self s) with (Store.invH self (s ++ []))
    by (rewrite app_nil_r; reflexivity).
  store_unfold. store_step. mat_eval. store_run.
  fold (defect a00 a01 a02 a10 a11 a12 a20 a21 a22).
  destruct (Rgt_dec _ _) as [Hbad | Hgood]; cbn [negb].
  - reflexivity.
  - store_run. eexists. split; reflexivity.
Qed.

Lemma defect_nonneg (a00 a01 a02 a10 a11 a12 a20 a21 a22 : R) :
  0 <= defect a00 a01 a02 a10 a11 a12 a20 a21 a22.
Proof.
  unfold defect.
  repeat match goal with
         | |- context [Rabs ?x] =>
             generalize (Rabs_pos x); generalize (Rabs x); intros ? ?
         end.
  lra.
Qed.

(** C6, as the code has it.  For a 4x4 matrix [M] held by the object
    [self]: [isHomogeneous] answers; [invH] raises the not-homogeneous
    error exactly when the answer is no; when it is yes, [invH] returns a
    new matrix [H] whose rotation block is the transpose of that of [M],
    whose last column is minus the transposed block times the position
    of [M], and whose bottom row is [0, 0, 0, M[3,3]]; every object of the
    store before the call, [M] among them, is unchanged after it. *)
Theorem invH_contract (s : Store.store) (self : Store.ref) (M : Mat) :
  s !! self = Some (Store.OMat M) ->
  is_4x4 M ->
  (isHomogeneous M = Ok true \/ isHomogeneous M = Ok false) /\
  (Store.invH self s = Raise (MatrixError PoseNotHomogeneous)
   <-> isHomogeneous M = Ok false) /\
  (isHomogeneous M = Ok true ->
   exists (Hout : Store.ref) (s' : Store.store) (H : Mat),
     Store.invH self s = Ok (Hout, s') /\
     s' !! Hout = Some (Store.OMat H) /\
     s' !! self = Some (Store.OMat M) /\
     (forall r : Store.ref, (r < length s)%nat -> s' !! r = s !! r) /\
     invH M = Ok H /\
     is_4x4 H /\
     (forall i j, (i < 3)%nat -> (j < 3)%nat -> item H i j = item M j i) /\
     (forall i, (i < 3)%nat ->
        item H i 3 = - (item M 0 i * M.[0, 3] + item M 1 i * M.[1, 3]
                        + item M 2 i * M.[2, 3])) /\
     nth 3 H [] = [0; 0; 0; M.[3, 3]]).
Proof.
  intros Hself HM.
  destruct (is_4x4_inv M HM)
    as (a00 & a01 & a02 & a03 & a10 & a11 & a12 & a13 &
        a20 & a21 & a22 & a23 & a30 & a31 & a32 & a33 & ->).
  pose proof (store_invH_4x4 s self a00 a01 a02 a03 a10 a11 a12 a13
                a20 a21 a22 a23 a30 a31 a32 a33 Hself) as Hrun.
  cbv zeta in Hrun. rewrite invH_4x4 in Hrun. rewrite isHomogeneous_4x4.
  destruct (Rgt_dec _ _) as [Hbad | Hgood].
  - split; [right; reflexivity |]. split.
    + split; [reflexivity | intros _; exact Hrun].
    + discriminate.
  - destruct Hrun as (ext & Hrun & Hext).
    split; [left; reflexivity |]. split.
    + split; [rewrite Hrun; discriminate | discriminate].
    + intros _. eexists _, _, _. split; [exact Hrun |].
      split; [rewrite lookup_app_r by lia;
              replace (length s + 6 - length s)%nat with 6%nat by lia;
              exact Hext |].
      split; [apply lookup_app_l_Some; exact Hself |].
      split; [intros r Hr; apply lookup_app_l; exact Hr |].
      split; [rewrite invH_4x4; destruct (Rgt_dec _ _); [contradiction | reflexivity] |].
      split; [apply is_4x4_intro |].
      split; [| split].
      * intros i j Hi Hj.
        destruct i as [| [| [| i]]]; try lia;
          destruct j as [| [| [| j]]]; try lia; reflexivity.
      * intros i Hi.
        destruct i as [| [| [| i]]]; try lia; cbn [item nth]; ring.
      * reflexivity.
Qed.

Lemma invH_contract_witness :
  isHomogeneous eye4 = Ok true \/ isHomogeneous eye4 = Ok false.
Proof.
  refine (proj1 (invH_contract [Store.OMat eye4] 0%nat eye4 _ _)).
  - reflexivity.
  - apply is_4x4_intro.
Defined.

Ltac Rabs_cases := unfold Rabs; repeat (destruct (Rcase_abs _); try lra).

(** The claim of C6 on the bottom row fails on a matrix that passes the
    test with [M[3,3] = 2]: the row returned is [0, 0, 0, 2]. *)
Lemma invH_bottom_row_counterexample :
  let M := [[1; 0; 0; 0]; [0; 1; 0; 0]; [0; 0; 1; 0]; [0; 0; 0; 2]] in
  is_4x4 M /\
  isHomogeneous M = Ok true /\
  exists H, invH M = Ok H /\ nth 3 H [] = [0; 0; 0; 2] /\ nth 3 H [] <> [0; 0; 0; 1].
Proof.
  cbv zeta.
  assert (Hd : ~ defect 1 0 0 0 1 0 0 0 1 > 1e-4).
  { unfold defect. Rabs_cases. }
  split; [apply is_4x4_intro |]. split.
  - rewrite isHomogeneous_4x4. destruct (Rgt_dec _ _); [contradiction | reflexivity].
  - rewrite invH_4x4. destruct (Rgt_dec _ _); [contradiction |].
    eexists. split; [reflexivity |]. split; [reflexivity |].
    cbn [nth]. intros Heq. injection Heq as Heq. lra.
Qed.

(** ** [quaternion_2_pose] and the list it is given *)

(** [q = qin] names the caller's list a second time, so the four
    assignments [q[i] = q[i] / qnorm] rescale the caller's list: after the
    call it holds the normalized quaternion. *)
Lemma store_quaternion_2_pose_run (s : Store.store) (qin : Store.ref) (a b c d : R) :
  s !! qin = Some (Store.OList [a; b; c; d]) ->
  sqrt (a * a + b * b + c * c + d * d) <> 0 ->
  exists pose,
    quaternion_2_pose [a; b; c; d] = Ok pose /\
    Store.quaternion_2_pose qin s =
    Ok (length s,
        <[qin := Store.OList
                   [a / sqrt (a * a + b * b + c * c + d * d);
                    b / sqrt (a * a + b * b + c * c + d * d);
                    c / sqrt (a * a + b * b + c * c + d * d);
                    d / sqrt (a * a + b * b + c * c + d * d)]]> s
        ++ [Store.OMat pose]) /\
    item pose 0 3 = 0 /\ item pose 1 3 = 0 /\ item pose 2 3 = 0 /\ item pose 3 3 = 1.
Proof.
  intros Hq Hn.
  assert (Hlt : (qin < length s)%nat) by (apply lookup_lt_Some in Hq; exact Hq).
  assert (Hsq : 0 <= a * a + b * b + c * c + d * d) by nra.
  set (n := sqrt (a * a + b * b + c * c + d * d)) in *.
  eexists. split; [| split].
  - unfold quaternion_2_pose. mat_eval. rewrite py_sqrt_nonneg by exact Hsq.
    fold n. cbn [rbind]. rewrite !py_div_nonzero by exact Hn. cbn [rbind].
    reflexivity.
  - replace (Store.quaternion_2_pose qin s) with (Store.quaternion_2_pose qin (s ++ []))
      by (rewrite app_nil_r; reflexivity).
    store_unfold.
    repeat (store_old_step Hlt;
            cbn [lookup list_lookup insert list_insert length Nat.ltb Nat.leb];
            rewrite ?list_insert_insert_eq;
            rewrite ?py_sqrt_nonneg by exact Hsq; fold n;
            rewrite ?py_div_nonzero by exact Hn).
    rewrite StoreFacts.run_alloc. rewrite length_insert. cbn [length app].
    rewrite Nat.add_0_r. reflexivity.
  - repeat split; reflexivity.
Qed.

(** C4 at [qin = [2, 0, 0, 0]]: the call returns a new pose and the
    caller's list, the object [0] of the store, then holds [1, 0, 0, 0]
    and no longer [2, 0, 0, 0]; the pose has last column [0, 0, 0, 1]. *)
Theorem quaternion_2_pose_rescales_qin :
  exists pose : Mat,
    Store.quaternion_2_pose 0%nat [Store.OList [2; 0; 0; 0]]
    = Ok (1%nat, [Store.OList [1; 0; 0; 0]; Store.OMat pose]) /\
    [Store.OList [1; 0; 0; 0]] <> [Store.OList [2; 0; 0; 0]] /\
    item pose 0 3 = 0 /\ item pose 1 3 = 0 /\ item pose 2 3 = 0 /\ item pose 3 3 = 1.
Proof.
  assert (Hn : sqrt (2 * 2 + 0 * 0 + 0 * 0 + 0 * 0) = 2).
  { replace (2 * 2 + 0 * 0 + 0 * 0 + 0 * 0) with (2 * 2) by ring.
    apply sqrt_square. lra. }
  destruct (store_quaternion_2_pose_run [Store.OList [2; 0; 0; 0]] 0%nat 2 0 0 0)
    as (pose & _ & Hrun & Hcol); [reflexivity | rewrite Hn; lra |].
  exists pose. split; [| split].
  - rewrite Hrun, Hn. cbn [length insert list_insert app].
    replace (2 / 2) with 1 by lra. replace (0 / 2) with 0 by lra. reflexivity.
  - intros Heq. injection Heq as Heq. lra.
  - exact Hcol.
Qed.

(** ** Exactly orthonormal blocks *)

Section Orthonormal.
Variables a00 a01 a02 a10 a11 a12 a20 a21 a22 : R.
Hypothesis H00 : a00 * a00 + a01 * a01 + a02 * a02 = 1.
Hypothesis H11 : a10 * a10 + a11 * a11 + a12 * a12 = 1.
Hypothesis H22 : a20 * a20 + a21 * a21 + a22 * a22 = 1.
Hypothesis H01 : a00 * a10 + a01 * a11 + a02 * a12 = 0.
Hypothesis H02 : a00 * a20 + a01 * a21 + a02 * a22 = 0.
Hypothesis H12 : a10 * a20 + a11 * a21 + a12 * a22 = 0.

(** Orthonormal rows make orthonormal columns. *)
Lemma col_00 : a00 * a00 + a10 * a10 + a20 * a20 = 1.
Proof. nsatz. Qed.
Lemma col_11 : a01 * a01 + a11 * a11 + a21 * a21 = 1.
Proof. nsatz. Qed.
Lemma col_22 : a02 * a02 + a12 * a12 + a22 * a22 = 1.
Proof. nsatz. Qed.
Lemma col_01 : a00 * a01 + a10 * a11 + a20 * a21 = 0.
Proof. nsatz. Qed.
Lemma col_02 : a00 * a02 + a10 * a12 + a20 * a22 = 0.
Proof. nsatz. Qed.
Lemma col_12 : a01 * a02 + a11 * a12 + a21 * a22 = 0.
Proof. nsatz. Qed.

Lemma defect_rows_zero : defect a00 a01 a02 a10 a11 a12 a20 a21 a22 = 0.
Proof.
  unfold defect.
  replace (0 + a00 * a00 + a01 * a01 + a02 * a02 - 1.0) with 0 by lra.
  replace (0 + a00 * a10 + a01 * a11 + a02 * a12) with 0 by lra.
  replace (0 + a00 * a20 + a01 * a21 + a02 * a22) with 0 by lra.
  replace (0 + a10 * a00 + a11 * a01 + a12 * a02) with 0 by lra.
  replace (0 + a10 * a10 + a11 * a11 + a12 * a12 - 1.0) with 0 by lra.
  replace (0 + a10 * a20 + a11 * a21 + a12 * a22) with 0 by lra.
  replace (0 + a20 * a00 + a21 * a01 + a22 * a02) with 0 by lra.
  replace (0 + a20 * a10 + a21 * a11 + a22 * a12) with 0 by lra.
  replace (0 + a20 * a20 + a21 * a21 + a22 * a22 - 1.0) with 0 by lra.
  rewrite Rabs_R0. lra.
Qed.
End Orthonormal.

Lemma defect_cols_zero (a00 a01 a02 a10 a11 a12 a20 a21 a22 : R) :
  a00 * a00 + a01 * a01 + a02 * a02 = 1 ->
  a10 * a10 + a11 * a11 + a12 * a12 = 1 ->
  a20 * a20 + a21 * a21 + a22 * a22 = 1 ->
  a00 * a10 + a01 * a11 + a02 * a12 = 0 ->
  a00 * a20 + a01 * a21 + a02 * a22 = 0 ->
  a10 * a20 + a11 * a21 + a12 * a22 = 0 ->
  defect a00 a10 a20 a01 a11 a21 a02 a12 a22 = 0.
Proof.
  intros H00 H11 H22 H01 H02 H12.
  apply defect_rows_zero.
  - exact (col_00 _ _ _ _ _ _ _ _ _ H00 H11 H22 H01 H02 H12).
  - exact (col_11 _ _ _ _ _ _ _ _ _ H00 H11 H22 H01 H02 H12).
  - exact (col_22 _ _ _ _ _ _ _ _ _ H00 H11 H22 H01 H02 H12).
  - exact (col_01 _ _ _ _ _ _ _ _ _ H00 H11 H22 H01 H02 H12).
  - exact (col_02 _ _ _ _ _ _ _ _ _ H00 H11 H22 H01 H02 H12).
  - exact (col_12 _ _ _ _ _ _ _ _ _ H00 H11 H22 H01 H02 H12).
Qed.

(** An exact pose, entry by entry. *)
Lemma exact_pose_inv (P : Mat) :
  exact_pose P ->
  exists a00 a01 a02 a03 a10 a11 a12 a13 a20 a21 a22 a23,
    P = [[a00; a01; a02; a03]; [a10; a11; a12; a13];
         [a20; a21; a22; a23]; [0; 0; 0; 1]] /\
    a00 * a00 + a01 * a01 + a02 * a02 = 1 /\
    a10 * a10 + a11 * a11 + a12 * a12 = 1 /\
    a20 * a20 + a21 * a21 + a22 * a22 = 1 /\
    a00 * a10 + a01 * a11 + a02 * a12 = 0 /\
    a00 * a20 + a01 * a21 + a02 * a22 = 0 /\
    a10 * a20 + a11 * a21 + a12 * a22 = 0.
Proof.
  intros (HP & Hrow & Horth).
  destruct (is_4x4_inv P HP)
    as (a00 & a01 & a02 & a03 & a10 & a11 & a12 & a13 &
        a20 & a21 & a22 & a23 & a30 & a31 & a32 & a33 & ->).
  cbn [nth] in Hrow. injection Hrow as -> -> -> ->.
  exists a00, a01, a02, a03, a10, a11, a12, a13, a20, a21, a22, a23.
  split; [reflexivity | exact Horth].
Qed.

(** On an exact pose the test passes. *)
Lemma invH_exact (a00 a01 a02 a03 a10 a11 a12 a13 a20 a21 a22 a23 a30 a31 a32 a33 : R) :
  defect a00 a01 a02 a10 a11 a12 a20 a21 a22 = 0 ->
  invH [[a00; a01; a02; a03]; [a10; a11; a12; a13];
        [a20; a21; a22; a23]; [a30; a31; a32; a33]]
  = Ok [[a00; a10; a20; (0 + a00 * a03 + a10 * a13 + a20 * a23) * -1];
        [a01; a11; a21; (0 + a01 * a03 + a11 * a13 + a21 * a23) * -1];
        [a02; a12; a22; (0 + a02 * a03 + a12 * a13 + a22 * a23) * -1];
        [0; 0; 0; a33]].
Proof.
  intros Hd. rewrite invH_4x4, Hd.
  destruct (Rgt_dec 0 1e-4); [lra | reflexivity].
Qed.

(** C7, for exact poses.  When the rotation block of the 4x4 matrix [P]
    is exactly orthonormal and its bottom row is [0, 0, 0, 1], [invH(P)]
    returns, [P * invH(P)] is the identity matrix and [invH(invH(P))] is
    [P], entry for entry (hence within 1e-9). *)
Theorem invH_is_inverse (P : Mat) :
  exact_pose P ->
  exists Pinv : Mat,
    invH P = Ok Pinv /\ Mat_mul P Pinv = Ok eye4 /\ invH Pinv = Ok P.
Proof.
  intros HP.
  destruct (exact_pose_inv P HP)
    as (a00 & a01 & a02 & a03 & a10 & a11 & a12 & a13 &
        a20 & a21 & a22 & a23 & -> & H00 & H11 & H22 & H01 & H02 & H12).
  eexists. split; [| split].
  - apply invH_exact. apply defect_rows_zero; assumption.
  - mat_eval. do 2 f_equal; [| f_equal; [| f_equal]]; repeat f_equal; nsatz.
  - rewrite invH_exact by (apply defect_cols_zero; assumption).
    do 2 f_equal; [| f_equal; [| f_equal]]; repeat f_equal; nsatz.
Qed.

Lemma invH_is_inverse_witness :
  exists Pinv : Mat,
    invH (transl 10 0 0) = Ok Pinv /\ Mat_mul (transl 10 0 0) Pinv = Ok eye4 /\
    invH Pinv = Ok (transl 10 0 0).
Proof.
  apply (invH_is_inverse (transl 10 0 0)).
  split; [apply is_4x4_intro |]. split; [reflexivity |].
  unfold orthonormal. cbn [transl Mat_of_rows item nth existsb length Nat.eqb negb orb].
  repeat split; lra.
Defined.

(** The claim of C7 for every matrix that passes [isHomogeneous] fails: a
    block stretched by 4e-5 along X passes the 1e-4 test, and the product
    with its [invH] is off the identity by more than 8e-5 in entry (0, 0). *)
Lemma invH_product_counterexample :
  let P := [[1.00004; 0; 0; 0]; [0; 1; 0; 0]; [0; 0; 1; 0]; [0; 0; 0; 1]] in
  is_4x4 P /\
  nth 3 P [] = [0; 0; 0; 1] /\
  isHomogeneous P = Ok true /\
  exists Pinv Q : Mat,
    invH P = Ok Pinv /\ Mat_mul P Pinv = Ok Q /\
    Rabs (item Q 0 0 - item eye4 0 0) > 1e-9.
Proof.
  cbv zeta.
  assert (Hd : ~ defect 1.00004 0 0 0 1 0 0 0 1 > 1e-4).
  { unfold defect. Rabs_cases. }
  split; [apply is_4x4_intro |]. split; [reflexivity |]. split.
  - rewrite isHomogeneous_4x4. destruct (Rgt_dec _ _); [contradiction | reflexivity].
  - rewrite invH_4x4. destruct (Rgt_dec _ _); [contradiction |].
    eexists _, _. split; [reflexivity |]. split; [mat_eval; reflexivity |].
    mat_eval. Rabs_cases.
Qed.

(** ** [atan2] on the circle *)

Lemma atan2_pos_x (y x : R) : 0 < x -> atan2 y x = atan (y / x).
Proof.
  intros Hx. unfold atan2. destruct (Rlt_dec 0 x); [reflexivity | lra].
Qed.

(** Scaling the point by a positive factor keeps the angle. *)
Lemma atan2_scale (k y x : R) : 0 < k -> atan2 (k * y) (k * x) = atan2 y x.
Proof.
  intros Hk. unfold atan2.
  assert (Hq : x <> 0 -> k * y / (k * x) = y / x) by (intros Hx; field; lra).
  destruct (Rlt_dec 0 x) as [Hx | Hx].
  - destruct (Rlt_dec 0 (k * x)) as [_ | Hkx]; [| nra]. rewrite Hq by lra. reflexivity.
  - destruct (Rlt_dec 0 (k * x)) as [Hkx | _]; [nra |].
    destruct (Rlt_dec x 0) as [Hx' | Hx'].
    + destruct (Rlt_dec (k * x) 0) as [_ | Hkx]; [| nra]. rewrite Hq by lra.
      destruct (Rle_dec 0 y), (Rle_dec 0 (k * y)); try reflexivity; nra.
    + destruct (Rlt_dec (k * x) 0) as [Hkx | _]; [nra |].
      destruct (Rlt_dec 0 y), (Rlt_dec 0 (k * y)); try nra; try reflexivity.
      destruct (Rlt_dec y 0), (Rlt_dec (k * y) 0); try nra; reflexivity.
Qed.

(** [atan2] inverts the parametrisation of the circle on [(-pi, pi]]. *)
Lemma atan2_sin_cos (t : R) : - PI < t <= PI -> atan2 (sin t) (cos t) = t.
Proof.
  intros [Hlo Hhi]. pose proof PI_RGT_0 as Hpi.
  destruct (Rlt_dec t (- (PI / 2))) as [Hleft | Hleft];
    [| destruct (Req_dec_T t (- (PI / 2))) as [Hm | Hm];
       [| destruct (Rlt_dec t (PI / 2)) as [Hmid | Hmid];
          [| destruct (Req_dec_T t (PI / 2)) as [Hp | Hp]]]].
  - (* third quadrant *)
    assert (Hc : cos (t + PI) > 0) by (apply cos_gt_0; lra).
    assert (Hs : sin (t + PI) > 0) by (apply sin_gt_0; lra).
    rewrite neg_cos in Hc. rewrite neg_sin in Hs.
    unfold atan2.
    destruct (Rlt_dec 0 (cos t)); [lra |].
    destruct (Rlt_dec (cos t) 0); [| lra].
    destruct (Rle_dec 0 (sin t)); [lra |].
    replace (sin t / cos t) with (tan (t + PI)).
    + rewrite atan_tan by lra. lra.
    + unfold tan. rewrite neg_sin, neg_cos. field. lra.
  - subst t. rewrite sin_neg, cos_neg, sin_PI2, cos_PI2. unfold atan2.
    repeat (match goal with
            | |- context [Rlt_dec ?u ?v] => destruct (Rlt_dec u v)
            end; try lra).
  - assert (Hc : 0 < cos t) by (apply cos_gt_0; lra).
    rewrite atan2_pos_x by exact Hc.
    change (sin t / cos t) with (tan t). apply atan_tan. lra.
  - subst t. rewrite sin_PI2, cos_PI2. unfold atan2.
    repeat (match goal with
            | |- context [Rlt_dec ?u ?v] => destruct (Rlt_dec u v)
            end; try lra).
  - (* second quadrant *)
    assert (Hc : cos (t - PI + PI) < 0)
      by (replace (t - PI + PI) with t by ring; apply cos_lt_0; lra).
    assert (Hs : 0 <= sin (t - PI + PI))
      by (replace (t - PI + PI) with t by ring; apply sin_ge_0; lra).
    rewrite neg_cos in Hc. rewrite neg_sin in Hs.
    assert (Hct : cos t = - cos (t - PI))
      by (rewrite <- neg_cos; f_equal; ring).
    assert (Hst : sin t = - sin (t - PI))
      by (rewrite <- neg_sin; f_equal; ring).
    unfold atan2.
    destruct (Rlt_dec 0 (cos t)); [lra |].
    destruct (Rlt_dec (cos t) 0); [| lra].
    destruct (Rle_dec 0 (sin t)); [| lra].
    replace (sin t / cos t) with (tan (t - PI)).
    + rewrite atan_tan by lra. lra.
    + unfold tan. rewrite Hst, Hct. field. lra.
Qed.

(** On a point of the unit circle in the open right half plane, the cosine
    of [atan2] is the abscissa. *)
Lemma cos_atan2_unit (s : R) :
  0 < 1 - s * s -> cos (atan2 s (sqrt (1 - s * s))) = sqrt (1 - s * s).
Proof.
  intros Hs.
  assert (Hc : 0 < sqrt (1 - s * s)) by (apply sqrt_lt_R0; lra).
  rewrite atan2_pos_x by assumption.
  rewrite cos_atan.
  set (c := sqrt (1 - s * s)) in *.
  assert (Hcc : c * c = 1 - s * s) by (apply sqrt_sqrt; lra).
  assert (Harg : 1 + (s / c)² = (/ c)²).
  { unfold Rsqr. field_simplify; [| lra | lra].
    replace (c ^ 2) with (c * c) by ring. rewrite Hcc. field. lra. }
  rewrite Harg. rewrite sqrt_Rsqr.
  - field. lra.
  - left. apply Rinv_0_lt_compat. assumption.
Qed.

(** ** Euler angles *)

(** C1.  For every 4x4 matrix [H], [Pose_2_TxyzRxyz] returns without raising
    and follows the three-branch policy: [ry = pi/2], [rx = 0],
    [rz = atan2(H[1,0], H[1,1])] when [H[0,2] > 1 - 1e-10]; [ry = -pi/2],
    [rx = 0] and the same [rz] when [H[0,2] < -1 + 1e-10]; otherwise
    [ry = atan2(H[0,2], sqrt(1 - H[0,2]^2))] and [rx], [rz] by division by
    [cos ry]; the position is column 3 unchanged. *)
Theorem Pose_2_TxyzRxyz_policy (H : Mat) :
  is_4x4 H -> Pose_2_TxyzRxyz H = Ok (TxyzRxyz_policy H).
Proof.
  intros _. unfold Pose_2_TxyzRxyz, TxyzRxyz_policy, pi.
  replace (1.0 - 1e-10) with (1 - 1e-10) by lra.
  replace (-1.0 + 1e-10) with (-1 + 1e-10) by lra.
  set (c := H.[0, 2]).
  destruct (Rgt_dec c (1 - 1e-10)) as [Hhi | Hhi]; [reflexivity |].
  destruct (Rlt_dec c (-1 + 1e-10)) as [Hlo | Hlo]; [reflexivity |].
  assert (Hband : 0 < 1 - c * c) by nra.
  assert (Hcy : 0 < sqrt (1 - c * c)) by (apply sqrt_lt_R0; lra).
  rewrite py_sqrt_nonneg by lra. cbn [rbind].
  rewrite !py_div_nonzero by lra. cbn [rbind].
  rewrite cos_atan2_unit by assumption.
  reflexivity.
Qed.

Lemma Pose_2_TxyzRxyz_policy_witness :
  Pose_2_TxyzRxyz eye4 = Ok (TxyzRxyz_policy eye4).
Proof. apply (Pose_2_TxyzRxyz_policy eye4). apply is_4x4_intro. Defined.

(** Away from the bands the cosine of the middle angle is positive and is
    the square root the code takes. *)
Lemma sqrt_cos_sq (t : R) :
  - (PI / 2) < t < PI / 2 -> sqrt (1 - sin t * sin t) = cos t.
Proof.
  intros Ht.
  assert (Hc : 0 < cos t) by (apply cos_gt_0; lra).
  pose proof (sin2_cos2 t) as Hsc. unfold Rsqr in Hsc.
  replace (1 - sin t * sin t) with (cos t * cos t) by lra.
  apply sqrt_square. lra.
Qed.

(** The XYZ round trip is exact on reals. *)
Lemma TxyzRxyz_roundtrip_exact (x y z rx ry rz : R) :
  - PI < rx <= PI -> - (PI / 2) < ry < PI / 2 -> - PI < rz <= PI ->
  -1 + 1e-10 <= sin ry <= 1 - 1e-10 ->
  exists H, TxyzRxyz_2_Pose [x; y; z; rx; ry; rz] = Ok H /\
            Pose_2_TxyzRxyz H = Ok [x; y; z; rx; ry; rz].
Proof.
  intros Hrx Hry Hrz Hband.
  eexists. split; [reflexivity |].
  unfold Pose_2_TxyzRxyz. mat_eval.
  destruct (Rgt_dec (sin ry) (1.0 - 1e-10)) as [Hhi | _]; [lra |].
  destruct (Rlt_dec (sin ry) (-1.0 + 1e-10)) as [Hlo | _]; [lra |].
  assert (Hc : 0 < cos ry) by (apply cos_gt_0; lra).
  rewrite py_sqrt_nonneg by (rewrite <- (sqrt_cos_sq ry Hry) in Hc;
                              destruct (Rle_dec 0 (1 - sin ry * sin ry)); [assumption |];
                              rewrite sqrt_neg_0 in Hc by lra; lra).
  rewrite (sqrt_cos_sq ry Hry). cbn [rbind].
  rewrite !py_div_nonzero by lra. cbn [rbind].
  replace (- (- cos ry * sin rx) / cos ry) with (sin rx) by (field; lra).
  replace (cos rx * cos ry / cos ry) with (cos rx) by (field; lra).
  replace (- (- cos ry * sin rz) / cos ry) with (sin rz) by (field; lra).
  replace (cos ry * cos rz / cos ry) with (cos rz) by (field; lra).
  rewrite !atan2_sin_cos by lra. reflexivity.
Qed.

(** The ZYX round trip in degrees is exact on reals. *)
Lemma xyzrpw_roundtrip_exact (x y z r p w : R) :
  -180 < r <= 180 -> -90 < p < 90 -> -180 < w <= 180 ->
  -1 + 1e-10 <= sin (p * PI / 180) <= 1 - 1e-10 ->
  exists H, xyzrpw_2_pose [x; y; z; r; p; w] = Ok H /\
            pose_2_xyzrpw H = Ok [x; y; z; r; p; w].
Proof.
  intros Hr Hp Hw Hband. pose proof PI_RGT_0 as Hpi.
  eexists. split; [reflexivity |].
  unfold pose_2_xyzrpw, pi. mat_eval.
  set (a := r * PI / 180). set (b := p * PI / 180) in *. set (c := w * PI / 180).
  assert (Ha : - PI < a <= PI) by (unfold a; split; nra).
  assert (Hb : - (PI / 2) < b < PI / 2) by (unfold b; split; nra).
  assert (Hc : - PI < c <= PI) by (unfold c; split; nra).
  destruct (Rgt_dec (- sin b) (1.0 - 1e-10)) as [Hhi | _]; [lra |].
  destruct (Rlt_dec (- sin b) (-1.0 + 1e-10)) as [Hlo | _]; [lra |].
  assert (Hcb : 0 < cos b) by (apply cos_gt_0; lra).
  assert (Hsq : cos b * cos c * (cos b * cos c) + cos b * sin c * (cos b * sin c)
                = cos b * cos b).
  { pose proof (sin2_cos2 c) as Hsc. unfold Rsqr in Hsc. nra. }
  rewrite Hsq. rewrite py_sqrt_nonneg by nra. cbn [rbind].
  rewrite sqrt_square by lra.
  replace (- - sin b) with (sin b) by ring.
  rewrite (atan2_sin_cos b) by lra.
  rewrite (atan2_scale (cos b) (sin c) (cos c)) by exact Hcb.
  replace (cos a * cos b) with (cos b * cos a) by ring.
  rewrite (atan2_scale (cos b) (sin a) (cos a)) by exact Hcb.
  rewrite !atan2_sin_cos by assumption.
  unfold a, b, c. repeat f_equal; field; lra.
Qed.

Lemma within_refl (tol : R) (v : list R) : 0 <= tol -> within tol v v.
Proof.
  intros Htol. split; [reflexivity |]. intros i _.
  replace (v.[i] - v.[i]) with 0 by ring. rewrite Rabs_R0. exact Htol.
Qed.

(** C2.  For a 6-vector whose angles are in the principal ranges and whose
    middle angle is outside the singular bands, converting to a pose and
    back gives the vector again within 1e-6 in each component: for
    [TxyzRxyz_2_Pose] and [Pose_2_TxyzRxyz] in radians, and for
    [xyzrpw_2_pose] and [pose_2_xyzrpw] in degrees with the pitch in
    (-90, 90).  (On reals the vector comes back exactly.) *)
Theorem euler_roundtrips (x y z r1 r2 r3 : R) :
  (- PI < r1 <= PI -> - (PI / 2) < r2 < PI / 2 -> - PI < r3 <= PI ->
   -1 + 1e-10 <= sin r2 <= 1 - 1e-10 ->
   exists H out,
     TxyzRxyz_2_Pose [x; y; z; r1; r2; r3] = Ok H /\
     Pose_2_TxyzRxyz H = Ok out /\
     within 1e-6 out [x; y; z; r1; r2; r3]) /\
  (-180 < r1 <= 180 -> -90 < r2 < 90 -> -180 < r3 <= 180 ->
   -1 + 1e-10 <= sin (r2 * PI / 180) <= 1 - 1e-10 ->
   exists H out,
     xyzrpw_2_pose [x; y; z; r1; r2; r3] = Ok H /\
     pose_2_xyzrpw H = Ok out /\
     within 1e-6 out [x; y; z; r1; r2; r3]).
Proof.
  split; intros H1 H2 H3 Hband.
  - destruct (TxyzRxyz_roundtrip_exact x y z r1 r2 r3 H1 H2 H3 Hband)
      as (H & Hto & Hfrom).
    exists H, [x; y; z; r1; r2; r3].
    split; [exact Hto |]. split; [exact Hfrom |]. apply within_refl. lra.
  - destruct (xyzrpw_roundtrip_exact x y z r1 r2 r3 H1 H2 H3 Hband)
      as (H & Hto & Hfrom).
    exists H, [x; y; z; r1; r2; r3].
    split; [exact Hto |]. split; [exact Hfrom |]. apply within_refl. lra.
Qed.

Lemma euler_roundtrips_witness :
  (exists H out,
     TxyzRxyz_2_Pose [10; 20; 30; 0; 0; 0] = Ok H /\
     Pose_2_TxyzRxyz H = Ok out /\
     within 1e-6 out [10; 20; 30; 0; 0; 0]) /\
  (exists H out,
     xyzrpw_2_pose [10; 20; 30; 0; 0; 0] = Ok H /\
     pose_2_xyzrpw H = Ok out /\
     within 1e-6 out [10; 20; 30; 0; 0; 0]).
Proof.
  pose proof PI_RGT_0 as Hpi.
  split.
  - apply (proj1 (euler_roundtrips 10 20 30 0 0 0)); try lra.
    rewrite sin_0. lra.
  - apply (proj2 (euler_roundtrips 10 20 30 0 0 0)); try lra.
    replace (0 * PI / 180) with 0 by lra. rewrite sin_0. lra.
Defined.

(** ** Rotation blocks *)

Section Rotation.
Variables a00 a01 a02 a10 a11 a12 a20 a21 a22 : R.
Hypothesis H00 : a00 * a00 + a01 * a01 + a02 * a02 = 1.
Hypothesis H11 : a10 * a10 + a11 * a11 + a12 * a12 = 1.
Hypothesis H22 : a20 * a20 + a21 * a21 + a22 * a22 = 1.
Hypothesis H01 : a00 * a10 + a01 * a11 + a02 * a12 = 0.
Hypothesis H02 : a00 * a20 + a01 * a21 + a02 * a22 = 0.
Hypothesis H12 : a10 * a20 + a11 * a21 + a12 * a22 = 0.
Hypothesis Hdet :
  a00 * (a11 * a22 - a12 * a21) - a01 * (a10 * a22 - a12 * a20)
  + a02 * (a10 * a21 - a11 * a20) = 1.

Let t := a00 + a11 + a22.

(** The squared antisymmetric parts factor through [1 + trace]. *)
Lemma rot_skew_x : (a21 - a12) * (a21 - a12) = (1 + t) * (1 + a00 - a11 - a22).
Proof. unfold t. nsatz. Qed.
Lemma rot_skew_y : (a02 - a20) * (a02 - a20) = (1 + t) * (1 - a00 + a11 - a22).
Proof. unfold t. nsatz. Qed.
Lemma rot_skew_z : (a10 - a01) * (a10 - a01) = (1 + t) * (1 - a00 - a11 + a22).
Proof. unfold t. nsatz. Qed.
Lemma rot_skew_xy : (a21 - a12) * (a02 - a20) = (1 + t) * (a01 + a10).
Proof. unfold t. nsatz. Qed.
Lemma rot_skew_xz : (a21 - a12) * (a10 - a01) = (1 + t) * (a02 + a20).
Proof. unfold t. nsatz. Qed.
Lemma rot_skew_yz : (a02 - a20) * (a10 - a01) = (1 + t) * (a12 + a21).
Proof. unfold t. nsatz. Qed.

Lemma rot_diag_le_1 : a00 <= 1 /\ a11 <= 1 /\ a22 <= 1.
Proof.
  pose proof (Rle_0_sqr (a00 - 1)) as Ha. pose proof (Rle_0_sqr (a11 - 1)) as Hb.
  pose proof (Rle_0_sqr (a22 - 1)) as Hc. unfold Rsqr in Ha, Hb, Hc.
  repeat split; nra.
Qed.

Lemma rot_trace_ge : -1 <= t.
Proof.
  pose proof rot_skew_x as Hx. pose proof rot_skew_y as Hy.
  pose proof rot_skew_z as Hz. pose proof rot_diag_le_1 as (Ha & Hb & Hc).
  fold t in Hx, Hy, Hz.
  assert (Hsum : 0 <= (1 + t) * (3 - t)).
  { replace ((1 + t) * (3 - t))
      with ((1 + t) * (1 + a00 - a11 - a22) + (1 + t) * (1 - a00 + a11 - a22)
            + (1 + t) * (1 - a00 - a11 + a22)) by (unfold t; ring).
    rewrite <- Hx, <- Hy, <- Hz.
    pose proof (Rle_0_sqr (a21 - a12)) as Sx. pose proof (Rle_0_sqr (a02 - a20)) as Sy.
    pose proof (Rle_0_sqr (a10 - a01)) as Sz. unfold Rsqr in Sx, Sy, Sz. lra. }
  assert (Ht : t <= 3) by (unfold t; lra).
  clear - Hsum Ht. nra.
Qed.
End Rotation.

(** An exact rigid pose, entry by entry. *)
Lemma rigid_pose_inv (P : Mat) :
  rigid_pose P ->
  exists a00 a01 a02 a03 a10 a11 a12 a13 a20 a21 a22 a23,
    P = [[a00; a01; a02; a03]; [a10; a11; a12; a13];
         [a20; a21; a22; a23]; [0; 0; 0; 1]] /\
    a00 * a00 + a01 * a01 + a02 * a02 = 1 /\
    a10 * a10 + a11 * a11 + a12 * a12 = 1 /\
    a20 * a20 + a21 * a21 + a22 * a22 = 1 /\
    a00 * a10 + a01 * a11 + a02 * a12 = 0 /\
    a00 * a20 + a01 * a21 + a02 * a22 = 0 /\
    a10 * a20 + a11 * a21 + a12 * a22 = 0 /\
    a00 * (a11 * a22 - a12 * a21) - a01 * (a10 * a22 - a12 * a20)
    + a02 * (a10 * a21 - a11 * a20) = 1.
Proof.
  intros (HP & Hdet).
  destruct (exact_pose_inv P HP)
    as (a00 & a01 & a02 & a03 & a10 & a11 & a12 & a13 &
        a20 & a21 & a22 & a23 & -> & H00 & H11 & H22 & H01 & H02 & H12).
  exists a00, a01, a02, a03, a10, a11, a12, a13, a20, a21, a22, a23.
  repeat (split; [assumption || reflexivity |]). exact Hdet.
Qed.

(** Decimal literals of the source as the numbers they are. *)
Ltac decimals :=
  try replace 1.0 with 1 in * by lra;
  try replace 2.0 with 2 in * by lra;
  try replace 0.0 with 0 in * by lra;
  try replace 0.5 with (/ 2) in * by lra;
  try replace (-1.0) with (-1) in * by lra.

Lemma py_max_3 (a b c : R) :
  a <= py_max [a; b; c] /\ b <= py_max [a; b; c] /\ c <= py_max [a; b; c].
Proof.
  unfold py_max. cbn [fold_left]. unfold Rmax.
  repeat (destruct (Rle_dec _ _)); lra.
Qed.

(** [l.index(max(l))] on three numbers finds one that is the maximum. *)
Lemma index_py_max_3 (a b c : R) :
  (index [a; b; c] (py_max [a; b; c]) = Ok 0%nat /\ a = py_max [a; b; c]) \/
  (index [a; b; c] (py_max [a; b; c]) = Ok 1%nat /\ b = py_max [a; b; c]) \/
  (index [a; b; c] (py_max [a; b; c]) = Ok 2%nat /\ c = py_max [a; b; c]).
Proof.
  pose proof (py_max_3 a b c) as (Ha & Hb & Hc).
  set (mx := py_max [a; b; c]) in *.
  assert (Hone : mx = a \/ mx = b \/ mx = c).
  { subst mx. unfold py_max. cbn [fold_left]. unfold Rmax.
    repeat (destruct (Rle_dec _ _)); lra. }
  cbn [index].
  destruct (Req_dec_T a mx) as [Ea | Ea]; [left; split; [reflexivity | exact Ea] |].
  destruct (Req_dec_T b mx) as [Eb | Eb];
    [right; left; split; [reflexivity | exact Eb] |].
  destruct (Req_dec_T c mx) as [Ec | Ec];
    [right; right; split; [reflexivity | exact Ec] |].
  exfalso. destruct Hone as [E | [E | E]]; congruence.
Qed.

Lemma nonneg_factor (s u x : R) : s * s = u * x -> 0 < u -> 0 <= x.
Proof.
  intros Heq Hu. destruct (Rle_dec 0 x) as [Hx | Hx]; [exact Hx | exfalso].
  assert (Hneg : u * x < 0) by (apply Rmult_pos_neg; lra).
  pose proof (Rle_0_sqr s) as Hs. unfold Rsqr in Hs. lra.
Qed.

(** Clamping to [-1, 1]. *)
Lemma clamp_cases (v : R) :
  (v <= -1 /\ Rmin (Rmax v (-1)) 1 = -1) \/
  (-1 <= v <= 1 /\ Rmin (Rmax v (-1)) 1 = v) \/
  (1 <= v /\ Rmin (Rmax v (-1)) 1 = 1).
Proof.
  unfold Rmin, Rmax.
  destruct (Rle_dec v (-1)); destruct (Rle_dec _ 1); lra.
Qed.

(** A vector divided by its length has length one. *)
Lemma unit_after_division (c0 c1 c2 s : R) :
  0 < s -> c0 * c0 + c1 * c1 + c2 * c2 = s * s ->
  0 * 0 + c0 / s * (c0 / s) + c1 / s * (c1 / s) + c2 / s * (c2 / s) = 1.
Proof.
  intros Hs Hsum.
  replace (0 * 0 + c0 / s * (c0 / s) + c1 / s * (c1 / s) + c2 / s * (c2 / s))
    with ((c0 * c0 + c1 * c1 + c2 * c2) / (s * s)) by (field; lra).
  rewrite Hsum. field. lra.
Qed.

(** C3, for exact rigid poses.  When [P] is 4x4 with bottom row
    [0, 0, 0, 1] and its block is exactly a rotation (orthonormal,
    determinant 1), [pose_2_quaternion(P)] returns four numbers of norm
    exactly 1 (hence within 1e-9), in the three branches: [1, 0, 0, 0] when
    [cosangle > 1 - 1e-9], scalar part 0 when [cosangle < -1 + 1e-7], and
    the square-root formulas otherwise. *)
Theorem pose_2_quaternion_unit (P : Mat) :
  rigid_pose P ->
  exists q : list R,
    pose_2_quaternion P = Ok q /\
    length q = 4%nat /\
    quaternion_norm q = 1 /\
    Rabs (quaternion_norm q - 1) <= 1e-9 /\
    let cosangle := Rmin (Rmax ((P.[0, 0] + P.[1, 1] + P.[2, 2] - 1) * / 2) (-1)) 1 in
    (cosangle > 1 - 1e-9 -> q = [1; 0; 0; 0]) /\
    (~ cosangle > 1 - 1e-9 -> cosangle < -1 + 1e-7 -> q.[0] = 0).
Proof.
  intros HP.
  destruct (rigid_pose_inv P HP)
    as (a00 & a01 & a02 & a03 & a10 & a11 & a12 & a13 & a20 & a21 & a22 & a23 &
        -> & H00 & H11 & H22 & H01 & H02 & H12 & Hdet).
  pose proof (rot_trace_ge _ _ _ _ _ _ _ _ _ H00 H11 H22 H01 H02 H12 Hdet) as Htr.
  pose proof (rot_skew_x _ _ _ _ _ _ _ _ _ H00 H11 H22 H01 H02 H12 Hdet) as Hx.
  pose proof (rot_skew_y _ _ _ _ _ _ _ _ _ H00 H11 H22 H01 H02 H12 Hdet) as Hy.
  pose proof (rot_skew_z _ _ _ _ _ _ _ _ _ H00 H11 H22 H01 H02 H12 Hdet) as Hz.
  pose proof (col_00 _ _ _ _ _ _ _ _ _ H00 H11 H22 H01 H02 H12) as C0.
  pose proof (col_11 _ _ _ _ _ _ _ _ _ H00 H11 H22 H01 H02 H12) as C1.
  pose proof (col_22 _ _ _ _ _ _ _ _ _ H00 H11 H22 H01 H02 H12) as C2.
  assert (Hone : forall q, quaternion_norm q = 1 -> Rabs (quaternion_norm q - 1) <= 1e-9).
  { intros q ->. replace (1 - 1) with 0 by ring. rewrite Rabs_R0. lra. }
  unfold pose_2_quaternion. mat_eval. decimals.
  set (cosangle := Rmin (Rmax ((a00 + a11 + a22 - 1) * / 2) (-1)) 1).
  destruct (Rgt_dec cosangle (1 - 1e-9)) as [Hid | Hid].
  - (* identity *)
    assert (Hn : quaternion_norm [1; 0; 0; 0] = 1).
    { unfold quaternion_norm. mat_eval.
      replace (1 * 1 + 0 * 0 + 0 * 0 + 0 * 0) with 1 by ring. exact sqrt_1. }
    exists [1; 0; 0; 0].
    repeat split; auto. intros; contradiction.
  - destruct (Rlt_dec cosangle (-1 + 1e-7)) as [H180 | H180].
    + (* half turn *)
      pose proof (py_max_3 a00 a11 a22) as (Ma & Mb & Mc).
      pose proof (index_py_max_3 a00 a11 a22) as Hidx.
      set (mx := py_max [a00; a11; a22]) in *.
      assert (Hmx : 0 < 2 * (1 + mx)) by lra.
      assert (Hs : 0 < sqrt (2 * (1 + mx))) by (apply sqrt_lt_R0; exact Hmx).
      assert (Hss : sqrt (2 * (1 + mx)) * sqrt (2 * (1 + mx)) = 2 * (1 + mx))
        by (apply sqrt_sqrt; lra).
      destruct Hidx as [[Hk E] | [[Hk E] | [Hk E]]];
        rewrite Hk; cbn [rbind]; mat_eval;
        unfold sqrtA; rewrite <- E in *;
        (destruct (Rle_dec _ 0) as [Hbad | _]; [lra |]);
        rewrite py_sqrt_nonneg by lra; cbn [rbind];
        rewrite !py_div_nonzero by lra; cbn [rbind];
        eexists; (split; [reflexivity |]); (split; [reflexivity |]);
        match goal with
        | |- quaternion_norm ?q = 1 /\ _ =>
            assert (Hq : quaternion_norm q = 1);
            [ unfold quaternion_norm; mat_eval;
              rewrite unit_after_division;
              [exact sqrt_1 | exact Hs | rewrite Hss; nra]
            | split; [exact Hq |]; split; [apply Hone; exact Hq |];
              split; [intros; contradiction | intros; reflexivity] ]
        end.
    + (* general case *)
      assert (Hcos : -1 + 1e-7 <= (a00 + a11 + a22 - 1) * / 2).
      { destruct (clamp_cases ((a00 + a11 + a22 - 1) * / 2)) as [[? E] | [[? E] | [? E]]];
          fold cosangle in E; lra. }
      assert (Ht : 0 < 1 + (a00 + a11 + a22)) by lra.
      assert (Px : 0 <= 1 + a00 - a11 - a22) by exact (nonneg_factor _ _ _ Hx Ht).
      assert (Py : 0 <= 1 - a00 + a11 - a22) by exact (nonneg_factor _ _ _ Hy Ht).
      assert (Pz : 0 <= 1 - a00 - a11 + a22) by exact (nonneg_factor _ _ _ Hz Ht).
      rewrite (Rmax_left (a00 + a11 + a22 + 1) 0) by lra.
      rewrite (Rmax_left (a00 - a11 - a22 + 1) 0) by lra.
      rewrite (Rmax_left (- a00 + a11 - a22 + 1) 0) by lra.
      rewrite (Rmax_left (- a00 - a11 + a22 + 1) 0) by lra.
      rewrite !py_sqrt_nonneg by lra. cbn [rbind].
      eexists. split; [reflexivity |]. split; [reflexivity |].
      match goal with
      | |- quaternion_norm ?q = 1 /\ _ =>
          assert (Hq : quaternion_norm q = 1)
      end.
      { unfold quaternion_norm. mat_eval.
        assert (S1 := sqrt_sqrt (a00 + a11 + a22 + 1) ltac:(lra)).
        assert (S2 := sqrt_sqrt (a00 - a11 - a22 + 1) ltac:(lra)).
        assert (S3 := sqrt_sqrt (- a00 + a11 - a22 + 1) ltac:(lra)).
        assert (S4 := sqrt_sqrt (- a00 - a11 + a22 + 1) ltac:(lra)).
        match goal with
        | |- sqrt ?e = 1 => replace e with 1; [exact sqrt_1 |]
        end.
        destruct (Rlt_dec (a21 - a12) 0), (Rlt_dec (a02 - a20) 0),
          (Rlt_dec (a10 - a01) 0); lra. }
      split; [exact Hq |]. split; [apply Hone; exact Hq |].
      split; intros; contradiction.
Qed.

Lemma rigid_pose_intro (a00 a01 a02 a03 a10 a11 a12 a13 a20 a21 a22 a23 : R) :
  a00 * a00 + a01 * a01 + a02 * a02 = 1 ->
  a10 * a10 + a11 * a11 + a12 * a12 = 1 ->
  a20 * a20 + a21 * a21 + a22 * a22 = 1 ->
  a00 * a10 + a01 * a11 + a02 * a12 = 0 ->
  a00 * a20 + a01 * a21 + a02 * a22 = 0 ->
  a10 * a20 + a11 * a21 + a12 * a22 = 0 ->
  a00 * (a11 * a22 - a12 * a21) - a01 * (a10 * a22 - a12 * a20)
  + a02 * (a10 * a21 - a11 * a20) = 1 ->
  rigid_pose [[a00; a01; a02; a03]; [a10; a11; a12; a13];
              [a20; a21; a22; a23]; [0; 0; 0; 1]].
Proof.
  intros H00 H11 H22 H01 H02 H12 Hdet.
  split; [split; [apply is_4x4_intro | split; [reflexivity |]] |].
  - unfold orthonormal. cbn [item nth]. auto 7.
  - unfold det3. cbn [item nth]. exact Hdet.
Qed.

(** Translations, the identity among them, are exact rigid poses. *)
Lemma rigid_pose_transl (x y z : R) : rigid_pose (transl x y z).
Proof. apply rigid_pose_intro; lra. Qed.

Lemma rigid_pose_eye4 : rigid_pose eye4.
Proof. apply rigid_pose_intro; lra. Qed.

Lemma pose_2_quaternion_unit_witness :
  exists q : list R,
    pose_2_quaternion eye4 = Ok q /\ length q = 4%nat /\ quaternion_norm q = 1.
Proof.
  destruct (pose_2_quaternion_unit eye4 rigid_pose_eye4) as (q & Hq & Hlen & Hn & _).
  exists q. auto.
Defined.

(** The claim of C3 for every block orthonormal within the 1e-4 tolerance
    fails.  A half turn about X stretched by 4e-5 along X passes
    [isHomogeneous] and takes the general branch, where the clamp turns two
    negative arguments into 0: the norm is [sqrt 1.00002].  A mirror image
    passes the test exactly and gets norm [sqrt (3/2)]. *)
Lemma pose_2_quaternion_norm_counterexample :
  (let P := [[1.00004; 0; 0; 0]; [0; -1; 0; 0]; [0; 0; -1; 0]; [0; 0; 0; 1]] in
   is_4x4 P /\ nth 3 P [] = [0; 0; 0; 1] /\ isHomogeneous P = Ok true /\
   exists q, pose_2_quaternion P = Ok q /\ Rabs (quaternion_norm q - 1) > 1e-9) /\
  (let P := [[1; 0; 0; 0]; [0; 1; 0; 0]; [0; 0; -1; 0]; [0; 0; 0; 1]] in
   exact_pose P /\ isHomogeneous P = Ok true /\
   exists q, pose_2_quaternion P = Ok q /\ Rabs (quaternion_norm q - 1) > 1e-9).
Proof.
  cbv zeta. split.
  - assert (Hd : ~ defect 1.00004 0 0 0 (-1) 0 0 0 (-1) > 1e-4).
    { unfold defect. Rabs_cases. }
    split; [apply is_4x4_intro |]. split; [reflexivity |]. split.
    { rewrite isHomogeneous_4x4. destruct (Rgt_dec _ _); [contradiction | reflexivity]. }
    unfold pose_2_quaternion. mat_eval. decimals.
    destruct (clamp_cases ((1.00004 + -1 + -1 - 1) * / 2)) as [[? E] | [[? E] | [? E]]];
      try lra.
    rewrite E.
    destruct (Rgt_dec _ _) as [Hgt | _]; [lra |].
    destruct (Rlt_dec _ _) as [Hlt | _]; [lra |].
    rewrite (Rmax_left (1.00004 + -1 + -1 + 1) 0) by lra.
    rewrite (Rmax_left (1.00004 - -1 - -1 + 1) 0) by lra.
    rewrite (Rmax_right (- (1.00004) + -1 - -1 + 1) 0) by lra.
    rewrite (Rmax_right (- (1.00004) - -1 + -1 + 1) 0) by lra.
    rewrite !py_sqrt_nonneg by lra. cbn [rbind].
    eexists. split; [reflexivity |].
    unfold quaternion_norm. mat_eval. rewrite sqrt_0.
    repeat (destruct (Rlt_dec _ _) as [Hneg | _]; [lra |]).
    assert (S1 := sqrt_sqrt (1.00004 + -1 + -1 + 1) ltac:(lra)).
    assert (S2 := sqrt_sqrt (1.00004 - -1 - -1 + 1) ltac:(lra)).
    match goal with
    | |- Rabs (sqrt ?e - 1) > _ => replace e with 1.00002 by lra
    end.
    assert (Hs : 1.000009 < sqrt 1.00002).
    { rewrite <- (sqrt_square 1.000009) at 1 by lra.
      apply sqrt_lt_1; lra. }
    unfold Rabs. destruct (Rcase_abs _); lra.
  - assert (Hd : ~ defect 1 0 0 0 1 0 0 0 (-1) > 1e-4).
    { unfold defect. Rabs_cases. }
    split.
    { split; [apply is_4x4_intro |]. split; [reflexivity |].
      unfold orthonormal. cbn [item nth]. repeat split; lra. }
    split.
    { rewrite isHomogeneous_4x4. destruct (Rgt_dec _ _); [contradiction | reflexivity]. }
    unfold pose_2_quaternion. mat_eval. decimals.
    destruct (clamp_cases ((1 + 1 + -1 - 1) * / 2)) as [[? E] | [[? E] | [? E]]];
      try lra.
    rewrite E.
    destruct (Rgt_dec _ _) as [Hgt | _]; [lra |].
    destruct (Rlt_dec _ _) as [Hlt | _]; [lra |].
    rewrite (Rmax_left (1 + 1 + -1 + 1) 0) by lra.
    rewrite (Rmax_left (1 - 1 - -1 + 1) 0) by lra.
    rewrite (Rmax_left (- (1) + 1 - -1 + 1) 0) by lra.
    rewrite (Rmax_right (- (1) - 1 + -1 + 1) 0) by lra.
    rewrite !py_sqrt_nonneg by lra. cbn [rbind].
    eexists. split; [reflexivity |].
    unfold quaternion_norm. mat_eval. rewrite sqrt_0.
    repeat (destruct (Rlt_dec _ _) as [Hneg | _]; [lra |]).
    assert (S1 := sqrt_sqrt (1 + 1 + -1 + 1) ltac:(lra)).
    assert (S2 := sqrt_sqrt (1 - 1 - -1 + 1) ltac:(lra)).
    assert (S3 := sqrt_sqrt (- (1) + 1 - -1 + 1) ltac:(lra)).
    match goal with
    | |- Rabs (sqrt ?e - 1) > _ => replace e with (3 / 2) by lra
    end.
    assert (Hs : 1.2 < sqrt (3 / 2)).
    { rewrite <- (sqrt_square 1.2) at 1 by lra.
      apply sqrt_lt_1; lra. }
    unfold Rabs. destruct (Rcase_abs _); lra.
Qed.
(** ** Rotation vectors *)

(** Equality of 4x4 matrices, entry by entry. *)
Ltac mat_entries :=
  repeat lazymatch goal with
         | |- Ok _ = Ok _ => apply f_equal
         | |- _ :: _ = _ :: _ => apply f_equal2
         | |- [] = [] => reflexivity
         end.

(** A unit quaternion goes to its pose. *)
Lemma quaternion_2_pose_unit (q0 q1 q2 q3 : R) :
  q0 * q0 + q1 * q1 + q2 * q2 + q3 * q3 = 1 ->
  quaternion_2_pose [q0; q1; q2; q3] = Ok (quat_pose q0 q1 q2 q3 0 0 0).
Proof.
  intros Hq. unfold quaternion_2_pose. mat_eval.
  rewrite Hq, py_sqrt_nonneg by lra. rewrite sqrt_1. cbn [rbind].
  rewrite !py_div_nonzero by lra. cbn [rbind].
  unfold quat_pose. mat_entries; field.
Qed.

Lemma setPos_quat_pose (q0 q1 q2 q3 x y z : R) :
  setPos (quat_pose q0 q1 q2 q3 0 0 0) [x; y; z] = Ok (quat_pose q0 q1 q2 q3 x y z).
Proof. reflexivity. Qed.

(** [UR_2_Pose] on a nonzero rotation vector: the quaternion has scalar
    part [cos (angle / 2)] and vector part the axis times
    [sin (angle / 2)]. *)
Lemma UR_2_Pose_nonzero (x y z w p r : R) :
  let angle := sqrt (w * w + p * p + r * r) in
  angle <> 0 ->
  UR_2_Pose [x; y; z; w; p; r]
  = Ok (quat_pose (cos (angle / 2)) (w * (sin (angle / 2) / angle))
          (p * (sin (angle / 2) / angle)) (r * (sin (angle / 2) / angle)) x y z).
Proof.
  intros angle Hangle.
  assert (Hsq : 0 <= w * w + p * p + r * r) by nra.
  assert (Haa : angle * angle = w * w + p * p + r * r) by (apply sqrt_sqrt; exact Hsq).
  unfold UR_2_Pose, norm. mat_eval. decimals.
  rewrite py_sqrt_nonneg by exact Hsq. fold angle. cbn [rbind].
  destruct (Req_dec_T angle 0) as [E | _]; [contradiction |].
  rewrite py_div_nonzero by exact Hangle. cbn [rbind]. mat_eval.
  replace (/ 2 * angle) with (angle / 2) by lra.
  rewrite quaternion_2_pose_unit.
  - cbn [rbind]. apply setPos_quat_pose.
  - pose proof (sin2_cos2 (angle / 2)) as Hsc. unfold Rsqr in Hsc.
    replace (cos (angle / 2) * cos (angle / 2)
             + w * (sin (angle / 2) / angle) * (w * (sin (angle / 2) / angle))
             + p * (sin (angle / 2) / angle) * (p * (sin (angle / 2) / angle))
             + r * (sin (angle / 2) / angle) * (r * (sin (angle / 2) / angle)))
      with (cos (angle / 2) * cos (angle / 2)
            + (w * w + p * p + r * r) / (angle * angle)
              * (sin (angle / 2) * sin (angle / 2))) by (field; exact Hangle).
    rewrite <- Haa. replace (angle * angle / (angle * angle)) with 1 by (field; exact Hangle).
    lra.
Qed.

(** [UR_2_Pose] on the zero rotation vector is the translation. *)
Lemma UR_2_Pose_zero (x y z w p r : R) :
  sqrt (w * w + p * p + r * r) = 0 ->
  UR_2_Pose [x; y; z; w; p; r] = Ok (transl x y z).
Proof.
  intros Hangle.
  assert (Hsq : 0 <= w * w + p * p + r * r) by nra.
  unfold UR_2_Pose, norm. mat_eval. decimals.
  rewrite py_sqrt_nonneg by exact Hsq. rewrite Hangle. cbn [rbind].
  destruct (Req_dec_T 0 0) as [_ | E]; [| contradiction E; reflexivity].
  cbn [rbind]. mat_eval.
  replace (/ 2 * 0) with 0 by lra. rewrite cos_0.
  rewrite quaternion_2_pose_unit by lra. cbn [rbind].
  rewrite setPos_quat_pose. cbn [rbind]. unfold quat_pose. mat_entries; lra.
Qed.

(** [UR_2_Pose] returns a 4x4 matrix for every six numbers. *)
Lemma UR_2_Pose_total (x y z w p r : R) :
  exists step : Mat, UR_2_Pose [x; y; z; w; p; r] = Ok step /\ is_4x4 step.
Proof.
  destruct (Req_dec_T (sqrt (w * w + p * p + r * r)) 0) as [E | E].
  - exists (transl x y z). split; [apply UR_2_Pose_zero; exact E | apply is_4x4_intro].
  - eexists. split; [apply UR_2_Pose_nonzero; exact E | apply is_4x4_intro].
Qed.

Lemma sum_sq_nonneg (x y z : R) : 0 <= x * x + y * y + z * z.
Proof.
  pose proof (Rle_0_sqr x). pose proof (Rle_0_sqr y). pose proof (Rle_0_sqr z).
  unfold Rsqr in *. lra.
Qed.

Lemma clamp_id (v : R) : -1 <= v <= 1 -> Rmin (Rmax v (-1)) 1 = v.
Proof.
  intros Hv. unfold Rmin, Rmax.
  destruct (Rle_dec v (-1)); destruct (Rle_dec _ 1); lra.
Qed.

Lemma py_acos_in_range (v : R) : -1 <= v <= 1 -> py_acos v = Ok (acos v).
Proof.
  intros Hv. unfold py_acos.
  destruct (Rlt_dec v (-1)); [lra |]. destruct (Rlt_dec 1 v); [lra | reflexivity].
Qed.

Lemma sqrt_of_square (s x : R) : 0 <= s -> x = s * s -> sqrt x = s.
Proof. intros Hs ->. apply sqrt_square. exact Hs. Qed.

Section RigidRotationVector.
Variables a00 a01 a02 a03 a10 a11 a12 a13 a20 a21 a22 a23 : R.
Hypothesis H00 : a00 * a00 + a01 * a01 + a02 * a02 = 1.
Hypothesis H11 : a10 * a10 + a11 * a11 + a12 * a12 = 1.
Hypothesis H22 : a20 * a20 + a21 * a21 + a22 * a22 = 1.
Hypothesis H01 : a00 * a10 + a01 * a11 + a02 * a12 = 0.
Hypothesis H02 : a00 * a20 + a01 * a21 + a02 * a22 = 0.
Hypothesis H12 : a10 * a20 + a11 * a21 + a12 * a22 = 0.
Hypothesis Hdet :
  a00 * (a11 * a22 - a12 * a21) - a01 * (a10 * a22 - a12 * a20)
  + a02 * (a10 * a21 - a11 * a20) = 1.

Let P : Mat := [[a00; a01; a02; a03]; [a10; a11; a12; a13];
                [a20; a21; a22; a23]; [0; 0; 0; 1]].
Let c : R := (a00 + a11 + a22 - 1) / 2.
Let theta : R := acos c.

Lemma rigid_cos_range : -1 <= c <= 1.
Proof.
  pose proof (rot_trace_ge _ _ _ _ _ _ _ _ _ H00 H11 H22 H01 H02 H12 Hdet).
  pose proof (rot_diag_le_1 _ _ _ _ _ _ _ _ _ H00 H11 H22) as (? & ? & ?).
  unfold c. lra.
Qed.

Lemma rigid_theta_range : 0 <= theta <= PI.
Proof. apply acos_bound. Qed.

Lemma rigid_cos_theta : cos theta = c.
Proof. apply cos_acos. apply rigid_cos_range. Qed.

Lemma rigid_sin_theta_nonneg : 0 <= sin theta.
Proof. apply sin_ge_0; apply rigid_theta_range. Qed.

Lemma rigid_sin_sq : sin theta * sin theta = 1 - c * c.
Proof.
  pose proof (sin2_cos2 theta) as Hsc. unfold Rsqr in Hsc.
  rewrite rigid_cos_theta in Hsc. lra.
Qed.

(** The antisymmetric part has length [2 sin theta]. *)
Lemma rigid_raw_norm :
  sqrt ((a21 - a12) * (a21 - a12) + (a02 - a20) * (a02 - a20)
        + (a10 - a01) * (a10 - a01)) = 2 * sin theta.
Proof.
  apply sqrt_of_square; [pose proof rigid_sin_theta_nonneg; lra |].
  pose proof (rot_skew_x _ _ _ _ _ _ _ _ _ H00 H11 H22 H01 H02 H12 Hdet) as Hx.
  pose proof (rot_skew_y _ _ _ _ _ _ _ _ _ H00 H11 H22 H01 H02 H12 Hdet) as Hy.
  pose proof (rot_skew_z _ _ _ _ _ _ _ _ _ H00 H11 H22 H01 H02 H12 Hdet) as Hz.
  rewrite Hx, Hy, Hz.
  replace (2 * sin theta * (2 * sin theta)) with (4 * (sin theta * sin theta)) by ring.
  rewrite rigid_sin_sq. unfold c. field.
Qed.

Lemma rigid_pose_angle : pose_angle P = Ok theta.
Proof.
  unfold pose_angle, P. mat_eval. fold c.
  rewrite (clamp_id c rigid_cos_range), py_acos_in_range by exact rigid_cos_range.
  reflexivity.
Qed.

(** The pivot column plus the pivot unit vector has squared length
    [2 (1 + pivot)], and the pivot is above -1. *)
Lemma rigid_pivot_pos : 0 < 2 * (1 + py_max [a00; a11; a22]).
Proof.
  pose proof (rot_trace_ge _ _ _ _ _ _ _ _ _ H00 H11 H22 H01 H02 H12 Hdet).
  pose proof (py_max_3 a00 a11 a22) as (? & ? & ?). lra.
Qed.

(** What [Pose_2_UR] returns on an exact rigid pose, branch by branch. *)
Lemma Pose_2_UR_rigid :
  exists rx ry rz : R,
    Pose_2_UR P = Ok [a03; a13; a23; rx; ry; rz] /\
    ((theta < 1e-8 /\ rx = 0 /\ ry = 0 /\ rz = 0) \/
     (1e-8 <= theta /\ sin theta < 1e-8 /\
      rx * rx + ry * ry + rz * rz = theta * theta /\
      exists w0 w1 w2 mx : R,
        0 < 1 + mx /\
        w0 * w0 + w1 * w1 + w2 * w2 = 2 * (1 + mx) /\
        ((mx = a00 /\ w0 = a00 + 1 /\ w1 = a10 /\ w2 = a20) \/
         (mx = a11 /\ w0 = a01 /\ w1 = a11 + 1 /\ w2 = a21) \/
         (mx = a22 /\ w0 = a02 /\ w1 = a12 /\ w2 = a22 + 1)) /\
        a00 <= mx /\ a11 <= mx /\ a22 <= mx /\
        rx = w0 * (theta / sqrt (2 * (1 + mx))) /\
        ry = w1 * (theta / sqrt (2 * (1 + mx))) /\
        rz = w2 * (theta / sqrt (2 * (1 + mx)))) \/
     (1e-8 <= theta /\ 1e-8 <= sin theta /\
      rx = (a21 - a12) * (1 / (2 * sin theta)) * theta /\
      ry = (a02 - a20) * (1 / (2 * sin theta)) * theta /\
      rz = (a10 - a01) * (1 / (2 * sin theta)) * theta)).
Proof.
  pose proof rigid_cos_range as Hc. pose proof rigid_sin_theta_nonneg as Hs.
  pose proof rigid_theta_range as Hth.
  unfold Pose_2_UR, saturate_1, NUMERIC_TOLERANCE, P. mat_eval. decimals.
  replace ((a00 + a11 + a22 - 1) * / 2) with c by (unfold c; lra).
  rewrite (clamp_id c Hc), py_acos_in_range by exact Hc. fold theta. cbn [rbind].
  destruct (Rlt_dec theta 1e-8) as [Hsmall | Hsmall].
  { cbn [rbind]. mat_eval. exists 0, 0, 0. split; [reflexivity |].
    left. repeat split; auto. }
  rewrite (Rabs_right (sin theta)) by lra.
  destruct (Rlt_dec (sin theta) 1e-8) as [Hdeg | Hdeg].
  - (* degenerate branch *)
    cbn [rbind].
    pose proof rigid_pivot_pos as Hpiv.
    pose proof (py_max_3 a00 a11 a22) as (Ma & Mb & Mc).
    pose proof (index_py_max_3 a00 a11 a22) as Hidx.
    pose proof (col_00 _ _ _ _ _ _ _ _ _ H00 H11 H22 H01 H02 H12) as C0.
    pose proof (col_11 _ _ _ _ _ _ _ _ _ H00 H11 H22 H01 H02 H12) as C1.
    pose proof (col_22 _ _ _ _ _ _ _ _ _ H00 H11 H22 H01 H02 H12) as C2.
    set (mx := py_max [a00; a11; a22]) in *.
    assert (Hsq : 0 < sqrt (2 * (1 + mx))) by (apply sqrt_lt_R0; exact Hpiv).
    assert (Hss : sqrt (2 * (1 + mx)) * sqrt (2 * (1 + mx)) = 2 * (1 + mx))
      by (apply sqrt_sqrt; lra).
    rewrite (Rmax_right 0 (2 * (1 + mx))) by lra.
    rewrite py_sqrt_nonneg by lra.
    assert (Hlen : forall w0 w1 w2 : R,
               w0 * w0 + w1 * w1 + w2 * w2 = 2 * (1 + mx) ->
               w0 * (theta / sqrt (2 * (1 + mx))) * (w0 * (theta / sqrt (2 * (1 + mx))))
               + w1 * (theta / sqrt (2 * (1 + mx))) * (w1 * (theta / sqrt (2 * (1 + mx))))
               + w2 * (theta / sqrt (2 * (1 + mx))) * (w2 * (theta / sqrt (2 * (1 + mx))))
               = theta * theta).
    { intros w0 w1 w2 Hw. set (s := sqrt (2 * (1 + mx))) in *.
      replace (w0 * (theta / s) * (w0 * (theta / s)) + w1 * (theta / s) * (w1 * (theta / s))
               + w2 * (theta / s) * (w2 * (theta / s)))
        with ((w0 * w0 + w1 * w1 + w2 * w2) / (s * s) * (theta * theta))
        by (field; lra).
      rewrite Hw, Hss. field. lra. }
    destruct Hidx as [[Hk Ek] | [[Hk Ek] | [Hk Ek]]];
      rewrite Hk; cbn [rbind Nat.eqb]; rewrite py_div_nonzero by lra;
      cbn [rbind]; mat_eval;
      eexists _, _, _; (split; [reflexivity |]); right; left;
      (split; [lra |]); (split; [exact Hdeg |]).
    + assert (Hw : (a00 + 1) * (a00 + 1) + a10 * a10 + a20 * a20 = 2 * (1 + mx))
        by (rewrite <- Ek; nra).
      split; [apply Hlen; exact Hw |].
      exists (a00 + 1), a10, a20, mx.
      split; [lra |]. split; [exact Hw |].
      split; [left; repeat split; congruence |]. repeat split; auto.
    + assert (Hw : a01 * a01 + (a11 + 1) * (a11 + 1) + a21 * a21 = 2 * (1 + mx))
        by (rewrite <- Ek; nra).
      split; [apply Hlen; exact Hw |].
      exists a01, (a11 + 1), a21, mx.
      split; [lra |]. split; [exact Hw |].
      split; [right; left; repeat split; congruence |]. repeat split; auto.
    + assert (Hw : a02 * a02 + a12 * a12 + (a22 + 1) * (a22 + 1) = 2 * (1 + mx))
        by (rewrite <- Ek; nra).
      split; [apply Hlen; exact Hw |].
      exists a02, a12, (a22 + 1), mx.
      split; [lra |]. split; [exact Hw |].
      split; [right; right; repeat split; congruence |]. repeat split; auto.
  - (* general branch *)
    unfold normalize3, norm. mat_eval.
    rewrite !py_sqrt_nonneg by apply sum_sq_nonneg.
    rewrite rigid_raw_norm. cbn [rbind].
    destruct (Rlt_dec (2 * sin theta) 1e-8) as [Hbad | _]; [lra |].
    cbn [rbind]. rewrite py_div_nonzero by lra. cbn [rbind]. mat_eval.
    eexists _, _, _. split; [reflexivity |].
    right; right. repeat split; lra.
Qed.
End RigidRotationVector.

(** Half-angle facts. *)
Lemma half_angle (theta : R) :
  2 * sin (theta / 2) * cos (theta / 2) = sin theta /\
  1 - 2 * (sin (theta / 2) * sin (theta / 2)) = cos theta /\
  sin (theta / 2) * sin (theta / 2) + cos (theta / 2) * cos (theta / 2) = 1.
Proof.
  pose proof (sin_2a (theta / 2)) as Hs. pose proof (cos_2a_sin (theta / 2)) as Hc.
  pose proof (sin2_cos2 (theta / 2)) as Hsc. unfold Rsqr in Hsc.
  replace (2 * (theta / 2)) with theta in Hs, Hc by field.
  repeat split; lra.
Qed.

Section RoundTripGeneral.
Variables a00 a01 a02 a03 a10 a11 a12 a13 a20 a21 a22 a23 : R.
Hypothesis H00 : a00 * a00 + a01 * a01 + a02 * a02 = 1.
Hypothesis H11 : a10 * a10 + a11 * a11 + a12 * a12 = 1.
Hypothesis H22 : a20 * a20 + a21 * a21 + a22 * a22 = 1.
Hypothesis H01 : a00 * a10 + a01 * a11 + a02 * a12 = 0.
Hypothesis H02 : a00 * a20 + a01 * a21 + a02 * a22 = 0.
Hypothesis H12 : a10 * a20 + a11 * a21 + a12 * a22 = 0.
Hypothesis Hdet :
  a00 * (a11 * a22 - a12 * a21) - a01 * (a10 * a22 - a12 * a20)
  + a02 * (a10 * a21 - a11 * a20) = 1.
Variables k ch : R.
Hypothesis Hk : 4 * ch * k = 1.
Hypothesis Hch : 4 * (ch * ch) = 1 + (a00 + a11 + a22).

(** With [ch = cos (theta / 2)] and [k = 1 / (4 ch)], the quaternion
    [(ch, k * raw)] has the rotation block as its pose. *)
Lemma quat_pose_of_rotation :
  quat_pose ch ((a21 - a12) * k) ((a02 - a20) * k) ((a10 - a01) * k) a03 a13 a23
  = [[a00; a01; a02; a03]; [a10; a11; a12; a13]; [a20; a21; a22; a23]; [0; 0; 0; 1]].
Proof. unfold quat_pose. mat_entries; nsatz. Qed.
End RoundTripGeneral.

(** In the general branch the round trip is exact. *)
Lemma UR_roundtrip_general
    (a00 a01 a02 a03 a10 a11 a12 a13 a20 a21 a22 a23 : R) :
  a00 * a00 + a01 * a01 + a02 * a02 = 1 ->
  a10 * a10 + a11 * a11 + a12 * a12 = 1 ->
  a20 * a20 + a21 * a21 + a22 * a22 = 1 ->
  a00 * a10 + a01 * a11 + a02 * a12 = 0 ->
  a00 * a20 + a01 * a21 + a02 * a22 = 0 ->
  a10 * a20 + a11 * a21 + a12 * a22 = 0 ->
  a00 * (a11 * a22 - a12 * a21) - a01 * (a10 * a22 - a12 * a20)
  + a02 * (a10 * a21 - a11 * a20) = 1 ->
  let theta := acos ((a00 + a11 + a22 - 1) / 2) in
  1e-8 <= theta -> 1e-8 <= sin theta ->
  UR_2_Pose [a03; a13; a23;
             (a21 - a12) * (1 / (2 * sin theta)) * theta;
             (a02 - a20) * (1 / (2 * sin theta)) * theta;
             (a10 - a01) * (1 / (2 * sin theta)) * theta]
  = Ok [[a00; a01; a02; a03]; [a10; a11; a12; a13]; [a20; a21; a22; a23]; [0; 0; 0; 1]].
Proof.
  intros H00 H11 H22 H01 H02 H12 Hdet theta Hth Hsin.
  pose proof (rigid_raw_norm _ _ _ _ _ _ _ _ _ H00 H11 H22 H01 H02 H12 Hdet) as Hraw.
  pose proof (rigid_cos_theta _ _ _ _ _ _ _ _ _ H00 H11 H22 H01 H02 H12 Hdet) as Hcos.
  pose proof (rigid_theta_range a00 a11 a22) as Hrange.
  cbv zeta in Hraw, Hcos, Hrange. fold theta in Hraw, Hcos, Hrange.
  destruct (half_angle theta) as (Hs2 & Hc2 & Hsc).
  set (sh := sin (theta / 2)) in *. set (ch := cos (theta / 2)) in *.
  set (rx := a21 - a12) in *. set (ry := a02 - a20) in *. set (rz := a10 - a01) in *.
  assert (Hrr : rx * rx + ry * ry + rz * rz = 2 * sin theta * (2 * sin theta)).
  { rewrite <- Hraw. symmetry. apply sqrt_sqrt. apply sum_sq_nonneg. }
  assert (Hangle : sqrt (rx * (1 / (2 * sin theta)) * theta * (rx * (1 / (2 * sin theta)) * theta)
                         + ry * (1 / (2 * sin theta)) * theta * (ry * (1 / (2 * sin theta)) * theta)
                         + rz * (1 / (2 * sin theta)) * theta * (rz * (1 / (2 * sin theta)) * theta))
                   = theta).
  { apply sqrt_of_square; [lra |].
    replace (rx * (1 / (2 * sin theta)) * theta * (rx * (1 / (2 * sin theta)) * theta)
             + ry * (1 / (2 * sin theta)) * theta * (ry * (1 / (2 * sin theta)) * theta)
             + rz * (1 / (2 * sin theta)) * theta * (rz * (1 / (2 * sin theta)) * theta))
      with ((rx * rx + ry * ry + rz * rz) / (2 * sin theta * (2 * sin theta)) * (theta * theta))
      by (field; lra).
    rewrite Hrr. field. lra. }
  rewrite UR_2_Pose_nonzero by (rewrite Hangle; lra).
  rewrite Hangle. fold sh ch.
  assert (Hch0 : ch <> 0) by (intros E; rewrite E in Hs2; lra).
  assert (Hsh0 : sh <> 0) by (intros E; rewrite E in Hs2; lra).
  assert (Hk : forall v : R,
             v * (1 / (2 * sin theta)) * theta * (sh / theta) = v * (/ (4 * ch))).
  { intros v. rewrite <- Hs2. field. repeat split; lra. }
  rewrite !Hk. f_equal.
  apply quat_pose_of_rotation; try assumption.
  - field. exact Hch0.
  - lra.
Qed.
(** ** Error bounds for the degenerate branch *)

Lemma Rabs_le_iff (x b : R) : Rabs x <= b <-> - b <= x <= b.
Proof.
  split.
  - intros H. unfold Rabs in H. destruct (Rcase_abs x); lra.
  - intros H. unfold Rabs. destruct (Rcase_abs x); lra.
Qed.

Lemma Rabs_mult_le (x y bx by_ : R) :
  Rabs x <= bx -> Rabs y <= by_ -> Rabs (x * y) <= bx * by_.
Proof.
  intros Hx Hy. rewrite Rabs_mult.
  apply Rmult_le_compat; auto using Rabs_pos.
Qed.

(** The bound behind the degenerate branch: with [a = 1 - c], [b = 1 + c]
    and [a * b = s * s], the symmetric part of the rebuilt rotation is off
    by a multiple of [s]. *)
Lemma degenerate_entry_bound (c s d Nij Nik Njk Nkk ei ej sk : R) :
  -1 <= c <= 1 -> 0 <= s < 1e-8 -> s * s = (1 - c) * (1 + c) ->
  Rabs Nij <= 1 - c -> Rabs Nik <= 1 - c -> Rabs Njk <= 1 - c ->
  0 <= Nkk <= 1 - c ->
  Nik * Njk = Nkk * Nij ->
  Rabs ei <= 1 + c + s -> Rabs ej <= 1 + c + s ->
  d = 1 + c + Nkk -> 2 / 3 <= d -> Rabs sk <= 2 * s ->
  Rabs ((1 - c) * (Nik + ei) * (Njk + ej) / (2 * d) - Nij + sk) <= 1e-7.
Proof.
  intros Hc Hs Hab HNij HNik HNjk HNkk Hrank Hei Hej Hd Hd23 Hsk.
  set (a := 1 - c) in *. set (b := 1 + c) in *.
  assert (Ha : 0 <= a <= 2) by (unfold a; lra).
  assert (Hb : 0 <= b <= 2) by (unfold b; lra).
  assert (Hsum : a + b = 2) by (unfold a, b; lra).
  set (eta := b + s) in *.
  assert (Heta : 0 <= eta) by (unfold eta; lra).
  (* the numerator *)
  assert (Hnum : (1 - c) * (Nik + ei) * (Njk + ej) - 2 * d * Nij
                 = - b * (Nkk * Nij) - 2 * b * Nij
                   + a * (Nik * ej) + a * (ei * Njk) + a * (ei * ej)).
  { fold a. rewrite Hd. fold b.
    replace (a * (Nik + ei) * (Njk + ej))
      with (a * (Nik * Njk) + a * (Nik * ej) + a * (ei * Njk) + a * (ei * ej)) by ring.
    rewrite Hrank. replace a with (2 - b) at 1 by lra. ring. }
  assert (P1 : Rabs (Nkk * Nij) <= a * a).
  { apply Rabs_mult_le; [apply Rabs_le_iff; lra | exact HNij]. }
  assert (P2 : Rabs (Nik * ej) <= a * eta) by (apply Rabs_mult_le; assumption).
  assert (P3 : Rabs (ei * Njk) <= eta * a) by (apply Rabs_mult_le; assumption).
  assert (P4 : Rabs (ei * ej) <= eta * eta) by (apply Rabs_mult_le; assumption).
  apply Rabs_le_iff in P1, P2, P3, P4, HNij, Hsk.
  set (p1 := Nkk * Nij) in *. set (p2 := Nik * ej) in *.
  set (p3 := ei * Njk) in *. set (p4 := ei * ej) in *.
  set (U := b * (a * a) + 2 * b * a + a * (a * eta) + a * (eta * a) + a * (eta * eta)).
  assert (HU : - U <= (1 - c) * (Nik + ei) * (Njk + ej) - 2 * d * Nij <= U).
  { rewrite Hnum. unfold U. split; nra. }
  assert (Hs2 : s * s <= 1e-8 * s) by nra.
  assert (Hs3 : s * s * s <= 1e-16 * s) by nra.
  assert (HUs : U <= 8 * s + 12 * (s * s) + 2 * (s * s * s)).
  { unfold U, eta.
    replace (b * (a * a) + 2 * b * a + a * (a * (b + s)) + a * ((b + s) * a)
             + a * ((b + s) * (b + s)))
      with ((a * b) * (3 * a + b + 2) + 2 * (a * a) * s + 2 * (a * b) * s + a * (s * s))
      by ring.
    fold a b in Hab. rewrite <- Hab.
    assert (a * a <= 4) by nra.
    assert (0 <= s * s) by nra.
    assert (0 <= s * s * s) by nra.
    nra. }
  assert (Hd0 : 0 < 2 * d) by lra.
  assert (Hquot : - (3 / 4 * U) <= (1 - c) * (Nik + ei) * (Njk + ej) / (2 * d) - Nij
                  <= 3 / 4 * U).
  { replace ((1 - c) * (Nik + ei) * (Njk + ej) / (2 * d) - Nij)
      with (((1 - c) * (Nik + ei) * (Njk + ej) - 2 * d * Nij) * / (2 * d))
      by (field; lra).
    assert (Hinv : 0 < / (2 * d) <= 3 / 4).
    { split; [apply Rinv_0_lt_compat; exact Hd0 |].
      replace (3 / 4) with (/ (4 / 3)) by lra.
      apply Rinv_le_contravar; lra. }
    assert (HU0 : 0 <= U) by lra.
    set (D := (1 - c) * (Nik + ei) * (Njk + ej) - 2 * d * Nij) in *.
    set (i := / (2 * d)) in *.
    split; nra. }
  fold a in Hquot. clearbody U a b. apply Rabs_le_iff. split; lra.
Qed.

Section DegenerateBranch.
Variables a00 a01 a02 a10 a11 a12 a20 a21 a22 : R.
Hypothesis H00 : a00 * a00 + a01 * a01 + a02 * a02 = 1.
Hypothesis H11 : a10 * a10 + a11 * a11 + a12 * a12 = 1.
Hypothesis H22 : a20 * a20 + a21 * a21 + a22 * a22 = 1.
Hypothesis H01 : a00 * a10 + a01 * a11 + a02 * a12 = 0.
Hypothesis H02 : a00 * a20 + a01 * a21 + a02 * a22 = 0.
Hypothesis H12 : a10 * a20 + a11 * a21 + a12 * a22 = 0.
Hypothesis Hdet :
  a00 * (a11 * a22 - a12 * a21) - a01 * (a10 * a22 - a12 * a20)
  + a02 * (a10 * a21 - a11 * a20) = 1.

Let t : R := a00 + a11 + a22.
Let Rm (i j : nat) : R :=
  pick3 i (pick3 j a00 a01 a02) (pick3 j a10 a11 a12) (pick3 j a20 a21 a22).
Let delta (i j : nat) : R := if (i =? j)%nat then 1 else 0.
(** Twice the symmetric part minus [cos theta] times the identity. *)
Let N2 (i j : nat) : R := Rm i j + Rm j i - (t - 1) * delta i j.
(** Twice the antisymmetric part. *)
Let M2 (i j : nat) : R := Rm i j - Rm j i.

Ltac three i := destruct i as [| [| [| ?]]]; [| | | lia].

(** The symmetric part has rank one. *)
Lemma N2_rank_one (i j k : nat) :
  (i < 3)%nat -> (j < 3)%nat -> (k < 3)%nat ->
  N2 i k * N2 j k = N2 k k * N2 i j.
Proof.
  intros Hi Hj Hk. three i; three j; three k;
    unfold N2, Rm, delta, t; cbn [pick3 Nat.eqb]; nsatz.
Qed.

Lemma N2_diag_nonneg (i : nat) : (i < 3)%nat -> 0 <= N2 i i.
Proof.
  intros Hi.
  pose proof (rot_trace_ge _ _ _ _ _ _ _ _ _ H00 H11 H22 H01 H02 H12 Hdet) as Htr.
  pose proof (rot_skew_x _ _ _ _ _ _ _ _ _ H00 H11 H22 H01 H02 H12 Hdet) as Hx.
  pose proof (rot_skew_y _ _ _ _ _ _ _ _ _ H00 H11 H22 H01 H02 H12 Hdet) as Hy.
  pose proof (rot_skew_z _ _ _ _ _ _ _ _ _ H00 H11 H22 H01 H02 H12 Hdet) as Hz.
  pose proof (Rle_0_sqr (a00 + 1)) as Qa. pose proof (Rle_0_sqr (a11 + 1)) as Qb.
  pose proof (Rle_0_sqr (a22 + 1)) as Qc. unfold Rsqr in Qa, Qb, Qc.
  assert (Ba : -1 <= a00) by nra. assert (Bb : -1 <= a11) by nra.
  assert (Bc : -1 <= a22) by nra.
  destruct (Req_dec_T (1 + (a00 + a11 + a22)) 0) as [E | E].
  - three i; unfold N2, Rm, delta, t; cbn [pick3 Nat.eqb]; lra.
  - assert (Hpos : 0 < 1 + (a00 + a11 + a22)) by lra.
    three i; unfold N2, Rm, delta, t; cbn [pick3 Nat.eqb].
    + pose proof (nonneg_factor _ _ _ Hx Hpos). lra.
    + pose proof (nonneg_factor _ _ _ Hy Hpos). lra.
    + pose proof (nonneg_factor _ _ _ Hz Hpos). lra.
Qed.

Lemma N2_diag_sum : N2 0 0 + N2 1 1 + N2 2 2 = 3 - t.
Proof. unfold N2, Rm, delta, t. cbn [pick3 Nat.eqb]. ring. Qed.

Lemma N2_bound (i j : nat) : (i < 3)%nat -> (j < 3)%nat -> Rabs (N2 i j) <= 3 - t.
Proof.
  intros Hi Hj.
  pose proof (N2_rank_one i i j Hi Hi Hj) as Hsq.
  pose proof (N2_diag_nonneg 0 ltac:(lia)) as P0.
  pose proof (N2_diag_nonneg 1 ltac:(lia)) as P1.
  pose proof (N2_diag_nonneg 2 ltac:(lia)) as P2.
  pose proof N2_diag_sum as Hsum.
  assert (Hii : 0 <= N2 i i <= 3 - t) by (three i; cbn; lra).
  assert (Hjj : 0 <= N2 j j <= 3 - t) by (three j; cbn; lra).
  apply Rabs_le_iff.
  set (n := N2 i j) in *. set (u := N2 i i) in *. set (v := N2 j j) in *.
  set (b := 3 - t) in *.
  assert (Hn : n * n <= b * b) by (rewrite Hsq; nra).
  clearbody n u v b. split; nra.
Qed.

(** The antisymmetric entries are at most [2 sin theta] in size. *)
Lemma M2_bound (s : R) (i j : nat) :
  0 <= s -> 4 * (s * s) = (1 + t) * (3 - t) ->
  (i < 3)%nat -> (j < 3)%nat -> Rabs (M2 i j) <= 2 * s.
Proof.
  intros Hs Hss Hi Hj.
  pose proof (rot_skew_x _ _ _ _ _ _ _ _ _ H00 H11 H22 H01 H02 H12 Hdet) as Hx.
  pose proof (rot_skew_y _ _ _ _ _ _ _ _ _ H00 H11 H22 H01 H02 H12 Hdet) as Hy.
  pose proof (rot_skew_z _ _ _ _ _ _ _ _ _ H00 H11 H22 H01 H02 H12 Hdet) as Hz.
  fold t in Hx, Hy, Hz.
  set (rx := a21 - a12) in *. set (ry := a02 - a20) in *. set (rz := a10 - a01) in *.
  assert (Hsum : rx * rx + ry * ry + rz * rz = 2 * s * (2 * s)).
  { rewrite Hx, Hy, Hz. replace (2 * s * (2 * s)) with (4 * (s * s)) by ring.
    rewrite Hss. unfold t. ring. }
  assert (Bx : - (2 * s) <= rx <= 2 * s) by (clear - Hs Hsum; split; nra).
  assert (By : - (2 * s) <= ry <= 2 * s) by (clear - Hs Hsum; split; nra).
  assert (Bz : - (2 * s) <= rz <= 2 * s) by (clear - Hs Hsum; split; nra).
  apply Rabs_le_iff.
  three i; three j; unfold M2, Rm; cbn [pick3]; unfold rx, ry, rz in *; lra.
Qed.

(** When the angle is tiny the block is close to the identity. *)
Lemma small_angle_block (s : R) (i j : nat) :
  0 <= s < 1e-8 -> 4 * (s * s) = (1 + t) * (3 - t) -> 1 <= t ->
  (i < 3)%nat -> (j < 3)%nat -> Rabs (delta i j - Rm i j) <= 1e-7.
Proof.
  intros Hs Hss Ht Hi Hj.
  assert (Hgap : 0 <= 3 - t <= 2e-16).
  { pose proof (rot_diag_le_1 _ _ _ _ _ _ _ _ _ H00 H11 H22) as (Da & Db & Dc).
    split; [unfold t; lra |]. assert (s * s <= 1e-16) by nra. nra. }
  pose proof (N2_bound i j Hi Hj) as HN. pose proof (M2_bound s i j (proj1 Hs) Hss Hi Hj) as HM.
  pose proof (N2_diag_nonneg i Hi) as HD.
  apply Rabs_le_iff in HN, HM. apply Rabs_le_iff.
  clear - HN HM HD Hgap Hs Hi Hj.
  unfold N2, M2, delta, Rm in *.
  three i; three j; cbn [pick3 Nat.eqb] in *; lra.
Qed.

Variables s sh ch kap sig x y z : R.
Variable k : nat.
Hypothesis Hs : 0 <= s < 1e-8.
Hypothesis Hs2 : 2 * sh * ch = s.
Hypothesis Hc2 : 1 - 2 * (sh * sh) = (t - 1) / 2.
Hypothesis Hsc : sh * sh + ch * ch = 1.
Hypothesis Hk : (k < 3)%nat.
Hypothesis Hd : 2 / 3 <= 1 + Rm k k.
Hypothesis Hsig : 0 < sig.
Hypothesis Hsig2 : sig * sig = 2 * (1 + Rm k k).
Hypothesis Hkap : kap * sig = sh.

Let w (i : nat) : R := Rm i k + delta i k.

Lemma pivot_column_length : w 0 * w 0 + w 1 * w 1 + w 2 * w 2 = 2 * (1 + Rm k k).
Proof.
  pose proof (col_00 _ _ _ _ _ _ _ _ _ H00 H11 H22 H01 H02 H12) as C0.
  pose proof (col_11 _ _ _ _ _ _ _ _ _ H00 H11 H22 H01 H02 H12) as C1.
  pose proof (col_22 _ _ _ _ _ _ _ _ _ H00 H11 H22 H01 H02 H12) as C2.
  clear - C0 C1 C2 Hk. three k; unfold w, Rm, delta; cbn [pick3 Nat.eqb]; lra.
Qed.

(** In the degenerate branch the pose rebuilt from the rotation vector is
    within 1e-7 of the rotation block, entry by entry. *)
Lemma degenerate_block_close (i j : nat) :
  (i < 3)%nat -> (j < 3)%nat ->
  Rabs (item (quat_pose ch (w 0 * kap) (w 1 * kap) (w 2 * kap) x y z) i j - Rm i j)
  <= 1e-7.
Proof.
  intros Hi Hj.
  pose proof (rot_trace_ge _ _ _ _ _ _ _ _ _ H00 H11 H22 H01 H02 H12 Hdet) as Htr.
  pose proof (rot_diag_le_1 _ _ _ _ _ _ _ _ _ H00 H11 H22) as (Da & Db & Dc).
  fold t in Htr.
  set (c := (t - 1) / 2) in *.
  assert (Hc : -1 <= c <= 1) by (unfold c, t in *; lra).
  assert (Hss : s * s = (1 - c) * (1 + c)).
  { rewrite <- Hs2. replace (1 - c) with (2 * (sh * sh)) by lra.
    replace (1 + c) with (2 * (ch * ch)) by lra. ring. }
  assert (Hss4 : 4 * (s * s) = (1 + t) * (3 - t)).
  { rewrite Hss. unfold c. field. }
  set (d := 1 + Rm k k) in *.
  set (kk := 2 * (kap * kap)).
  assert (Hkk : kk * (2 * d) = 1 - c).
  { unfold kk. rewrite <- Hsig2.
    replace (2 * (kap * kap) * (sig * sig)) with (2 * ((kap * sig) * (kap * sig))) by ring.
    rewrite Hkap. lra. }
  pose proof pivot_column_length as Hw. fold d in Hw.
  assert (Hw_le : forall l, (l < 3)%nat -> - sig <= w l <= sig).
  { intros l Hl.
    assert (Hl2 : w l * w l <= sig * sig).
    { rewrite Hsig2. fold d. rewrite <- Hw.
      pose proof (Rle_0_sqr (w 0)). pose proof (Rle_0_sqr (w 1)).
      pose proof (Rle_0_sqr (w 2)). unfold Rsqr in *. three l; lra. }
    split; nra. }
  assert (Hr : forall l, (l < 3)%nat -> - s <= 2 * (w l * kap) * ch <= s).
  { intros l Hl. destruct (Hw_le l Hl) as [Hlo Hhi].
    assert (Hrs : 2 * (w l * kap) * ch * sig = s * w l).
    { replace (2 * (w l * kap) * ch * sig) with (w l * (2 * (kap * sig) * ch)) by ring.
      rewrite Hkap, Hs2. ring. }
    set (r := 2 * (w l * kap) * ch) in *. destruct Hs as [Hs0 _].
    clear - Hrs Hlo Hhi Hsig Hs0. split; nra. }
  (* the pieces of the entry *)
  set (N := fun u v : nat => N2 u v / 2).
  set (e := fun u : nat => (1 + c) * delta u k + M2 u k / 2).
  set (Q := quat_pose ch (w 0 * kap) (w 1 * kap) (w 2 * kap) x y z).
  set (sk := item Q i j - Rm i j - (kk * (N i k + e i) * (N j k + e j) - N i j)).
  replace (item Q i j - Rm i j)
    with (kk * (N i k + e i) * (N j k + e j) - N i j + sk) by (unfold sk; ring).
  assert (HN : forall u v, (u < 3)%nat -> (v < 3)%nat -> Rabs (N u v) <= 1 - c).
  { intros u v Hu Hv. pose proof (N2_bound u v Hu Hv) as HB.
    apply Rabs_le_iff in HB. apply Rabs_le_iff. unfold N, c. lra. }
  assert (He : forall u, (u < 3)%nat -> Rabs (e u) <= 1 + c + s).
  { intros u Hu. pose proof (M2_bound s u k (proj1 Hs) Hss4 Hu Hk) as HB.
    apply Rabs_le_iff in HB. apply Rabs_le_iff. unfold e, delta.
    destruct (u =? k)%nat; lra. }
  replace (kk * (N i k + e i) * (N j k + e j))
    with ((1 - c) * (N i k + e i) * (N j k + e j) / (2 * d))
    by (rewrite <- Hkk; field; lra).
  apply degenerate_entry_bound with (s := s) (Nkk := N k k); auto.
  - pose proof (N2_diag_nonneg k Hk). pose proof (HN k k Hk Hk) as HB.
    apply Rabs_le_iff in HB. unfold N in *. lra.
  - pose proof (N2_rank_one i j k Hi Hj Hk) as Hrk. unfold N. lra.
  - unfold d, N, N2, delta, c. rewrite Nat.eqb_refl. lra.
  - (* the antisymmetric remainder *)
    pose proof (M2_bound s 0 1 (proj1 Hs) Hss4 ltac:(lia) ltac:(lia)) as B01.
    pose proof (M2_bound s 0 2 (proj1 Hs) Hss4 ltac:(lia) ltac:(lia)) as B02.
    pose proof (M2_bound s 1 2 (proj1 Hs) Hss4 ltac:(lia) ltac:(lia)) as B12.
    apply Rabs_le_iff in B01, B02, B12.
    pose proof (Hr 0%nat ltac:(lia)) as R0. pose proof (Hr 1%nat ltac:(lia)) as R1.
    pose proof (Hr 2%nat ltac:(lia)) as R2.
    assert (Hsum2 : kk * (w 0 * w 0 + w 1 * w 1 + w 2 * w 2) = 1 - c)
      by (rewrite Hw; exact Hkk).
    apply Rabs_le_iff.
    clear - B01 B02 B12 R0 R1 R2 Hsum2 Hi Hj Hk Hs.
    unfold sk, Q, N, e, kk, c, w, N2, M2, Rm, delta, t in *.
    three i; three j; three k;
      cbn [quat_pose item nth pick3 Nat.eqb] in *; lra.
Qed.
End DegenerateBranch.

(** ** Rotation vector and back *)

Lemma mat_within_refl (tol : R) (A : Mat) : 0 <= tol -> mat_within tol A A.
Proof.
  intros Htol i j _ _. replace (item A i j - item A i j) with 0 by ring.
  rewrite Rabs_R0. exact Htol.
Qed.

(** Closeness of two 4x4 matrices that share last column and bottom row
    reduces to the blocks. *)
Lemma mat_within_block (tol : R)
    (q00 q01 q02 q10 q11 q12 q20 q21 q22 a00 a01 a02 a10 a11 a12 a20 a21 a22 x y z : R) :
  0 <= tol ->
  (forall i j, (i < 3)%nat -> (j < 3)%nat ->
     Rabs (pick3 i (pick3 j q00 q01 q02) (pick3 j q10 q11 q12) (pick3 j q20 q21 q22)
           - pick3 i (pick3 j a00 a01 a02) (pick3 j a10 a11 a12) (pick3 j a20 a21 a22))
     <= tol) ->
  mat_within tol
    [[q00; q01; q02; x]; [q10; q11; q12; y]; [q20; q21; q22; z]; [0; 0; 0; 1]]
    [[a00; a01; a02; x]; [a10; a11; a12; y]; [a20; a21; a22; z]; [0; 0; 0; 1]].
Proof.
  intros Htol Hblock i j Hi Hj.
  assert (Hz : forall v : R, Rabs (v - v) <= tol).
  { intros v. replace (v - v) with 0 by ring. rewrite Rabs_R0. exact Htol. }
  destruct i as [| [| [| [| i]]]]; [| | | | lia];
    destruct j as [| [| [| [| j]]]]; try lia; cbn [item nth];
    try apply Hz;
    match goal with
    | |- Rabs (?q - ?a) <= _ =>
        first [ exact (Hblock 0%nat 0%nat ltac:(lia) ltac:(lia))
              | exact (Hblock 0%nat 1%nat ltac:(lia) ltac:(lia))
              | exact (Hblock 0%nat 2%nat ltac:(lia) ltac:(lia))
              | exact (Hblock 1%nat 0%nat ltac:(lia) ltac:(lia))
              | exact (Hblock 1%nat 1%nat ltac:(lia) ltac:(lia))
              | exact (Hblock 1%nat 2%nat ltac:(lia) ltac:(lia))
              | exact (Hblock 2%nat 0%nat ltac:(lia) ltac:(lia))
              | exact (Hblock 2%nat 1%nat ltac:(lia) ltac:(lia))
              | exact (Hblock 2%nat 2%nat ltac:(lia) ltac:(lia)) ]
    end.
Qed.

(** C5, for exact rigid poses.  When [P] is 4x4 with bottom row
    [0, 0, 0, 1] and its block is exactly a rotation, [Pose_2_UR(P)]
    returns six numbers; the norm of the last three is [pose_angle(P)]
    (exactly when the angle is at least 1e-8, and 0 below, so within 1e-6
    always); [UR_2_Pose] of the six numbers returns a pose within 1e-7 of
    [P] in every entry, in the three branches, and equal to [P] in the
    general branch. *)
Theorem UR_roundtrip (P : Mat) :
  rigid_pose P ->
  exists (ur : list R) (theta n : R) (Q : Mat),
    Pose_2_UR P = Ok ur /\ length ur = 6%nat /\
    pose_angle P = Ok theta /\
    norm [ur.[3]; ur.[4]; ur.[5]] = Ok n /\
    Rabs (n - theta) <= 1e-6 /\
    (theta < 1e-8 -> n = 0) /\
    (1e-8 <= theta -> n = theta) /\
    UR_2_Pose ur = Ok Q /\
    mat_within 1e-7 Q P /\
    (1e-8 <= theta -> 1e-8 <= sin theta -> Q = P).
Proof.
  intros HP.
  destruct (rigid_pose_inv P HP)
    as (a00 & a01 & a02 & a03 & a10 & a11 & a12 & a13 & a20 & a21 & a22 & a23 &
        -> & H00 & H11 & H22 & H01 & H02 & H12 & Hdet).
  pose proof (rigid_pose_angle a00 a01 a02 a03 a10 a11 a12 a13 a20 a21 a22 a23
                H00 H11 H22 H01 H02 H12 Hdet) as Hangle.
  pose proof (rigid_theta_range a00 a11 a22) as Hrange.
  pose proof (rigid_cos_theta _ _ _ _ _ _ _ _ _ H00 H11 H22 H01 H02 H12 Hdet) as Hcos.
  pose proof (rigid_sin_sq _ _ _ _ _ _ _ _ _ H00 H11 H22 H01 H02 H12 Hdet) as Hsin2.
  pose proof (rigid_sin_theta_nonneg a00 a11 a22) as Hsin0.
  pose proof (rot_trace_ge _ _ _ _ _ _ _ _ _ H00 H11 H22 H01 H02 H12 Hdet) as Htr.
  destruct (Pose_2_UR_rigid a00 a01 a02 a03 a10 a11 a12 a13 a20 a21 a22 a23
              H00 H11 H22 H01 H02 H12 Hdet) as (rx & ry & rz & Hur & Hbranch).
  cbv zeta in *.
  set (theta := acos ((a00 + a11 + a22 - 1) / 2)) in *.
  set (P := [[a00; a01; a02; a03]; [a10; a11; a12; a13];
             [a20; a21; a22; a23]; [0; 0; 0; 1]]) in *.
  assert (Hnorm : norm [rx; ry; rz] = Ok (sqrt (rx * rx + ry * ry + rz * rz))).
  { unfold norm. mat_eval. apply py_sqrt_nonneg. apply sum_sq_nonneg. }
  destruct Hbranch as [(Hsmall & -> & -> & ->) | [Hdeg | Hgen]].
  - (* no rotation *)
    exists [a03; a13; a23; 0; 0; 0], theta, 0, (transl a03 a13 a23).
    split; [exact Hur |]. split; [reflexivity |]. split; [exact Hangle |].
    split; [mat_eval; rewrite Hnorm; f_equal;
            replace (0 * 0 + 0 * 0 + 0 * 0) with 0 by ring; exact sqrt_0 |].
    split; [apply Rabs_le_iff; lra |]. split; [reflexivity |]. split; [lra |].
    split; [apply UR_2_Pose_zero;
            replace (0 * 0 + 0 * 0 + 0 * 0) with 0 by ring; exact sqrt_0 |].
    split; [| lra].
    (* the block is near the identity *)
    assert (Hs : 0 <= sin theta < 1e-8).
    { split; [exact Hsin0 |].
      destruct (Req_dec_T theta 0) as [E | E]; [rewrite E, sin_0; lra |].
      pose proof (sin_lt_x theta ltac:(lra)). lra. }
    assert (Hc0 : 0 <= cos theta).
    { pose proof PI2_1. apply cos_ge_0; lra. }
    apply mat_within_block; [lra |]. intros i j Hi Hj.
    pose proof (small_angle_block _ _ _ _ _ _ _ _ _ H00 H11 H22 H01 H02 H12 Hdet
                  (sin theta) i j Hs) as Hclose.
    assert (Hgoal : forall u v, Rabs (u - v) = Rabs (v - u)).
    { intros u v. rewrite <- Rabs_Ropp. f_equal. ring. }
    destruct i as [| [| [| i]]]; [| | | lia];
      destruct j as [| [| [| j]]]; try lia; cbn [pick3 Nat.eqb] in *;
      apply Hclose; try lia; rewrite ?Hsin2; try lra; rewrite Hcos in Hc0; nra.
  - (* degenerate branch *)
    destruct Hdeg as (Hth & Hsin & Hlen & w0 & w1 & w2 & mx & Hmx & Hw & Hpivot &
                      Ma & Mb & Mc & -> & -> & ->).
    set (sig := sqrt (2 * (1 + mx))) in *.
    assert (Hsig : 0 < sig) by (apply sqrt_lt_R0; lra).
    assert (Hsig2 : sig * sig = 2 * (1 + mx)) by (apply sqrt_sqrt; lra).
    assert (Hn : sqrt (w0 * (theta / sig) * (w0 * (theta / sig))
                       + w1 * (theta / sig) * (w1 * (theta / sig))
                       + w2 * (theta / sig) * (w2 * (theta / sig))) = theta).
    { apply sqrt_of_square; [lra | exact Hlen]. }
    destruct (half_angle theta) as (Hs2 & Hc2 & Hsc).
    set (sh := sin (theta / 2)) in *. set (ch := cos (theta / 2)) in *.
    eexists _, theta, theta, _.
    split; [exact Hur |]. split; [reflexivity |]. split; [exact Hangle |].
    split; [mat_eval; rewrite Hnorm, Hn; reflexivity |].
    split; [apply Rabs_le_iff; lra |]. split; [lra |]. split; [reflexivity |].
    split; [apply UR_2_Pose_nonzero; rewrite Hn; lra |].
    split; [| lra].
    rewrite Hn. fold sh ch.
    assert (Hk : forall v : R, v * (theta / sig) * (sh / theta) = v * (sh / sig))
      by (intros v; field; lra).
    rewrite !Hk.
    assert (Hd : 2 / 3 <= 1 + mx) by lra.
    unfold quat_pose at 1.
    apply mat_within_block; [lra |]. intros i j Hi Hj.
    destruct Hpivot as [(Em & -> & -> & ->) | [(Em & -> & -> & ->) | (Em & -> & -> & ->)]];
      subst mx.
    + pose proof (degenerate_block_close _ _ _ _ _ _ _ _ _ H00 H11 H22 H01 H02 H12 Hdet
                    (sin theta) sh ch (sh / sig) sig a03 a13 a23 0%nat
                    ltac:(lra) Hs2 ltac:(lra) Hsc ltac:(lia) Hd Hsig Hsig2
                    ltac:(field; lra) i j Hi Hj) as Hclose.
      cbn [pick3 Nat.eqb] in Hclose. unfold quat_pose in Hclose.
      replace (a10 + 0) with a10 in Hclose by ring.
      replace (a20 + 0) with a20 in Hclose by ring.
      destruct i as [| [| [| i]]]; [| | | lia];
        destruct j as [| [| [| j]]]; try lia; cbn [pick3 item nth] in *; exact Hclose.
    + pose proof (degenerate_block_close _ _ _ _ _ _ _ _ _ H00 H11 H22 H01 H02 H12 Hdet
                    (sin theta) sh ch (sh / sig) sig a03 a13 a23 1%nat
                    ltac:(lra) Hs2 ltac:(lra) Hsc ltac:(lia) Hd Hsig Hsig2
                    ltac:(field; lra) i j Hi Hj) as Hclose.
      cbn [pick3 Nat.eqb] in Hclose. unfold quat_pose in Hclose.
      replace (a01 + 0) with a01 in Hclose by ring.
      replace (a21 + 0) with a21 in Hclose by ring.
      destruct i as [| [| [| i]]]; [| | | lia];
        destruct j as [| [| [| j]]]; try lia; cbn [pick3 item nth] in *; exact Hclose.
    + pose proof (degenerate_block_close _ _ _ _ _ _ _ _ _ H00 H11 H22 H01 H02 H12 Hdet
                    (sin theta) sh ch (sh / sig) sig a03 a13 a23 2%nat
                    ltac:(lra) Hs2 ltac:(lra) Hsc ltac:(lia) Hd Hsig Hsig2
                    ltac:(field; lra) i j Hi Hj) as Hclose.
      cbn [pick3 Nat.eqb] in Hclose. unfold quat_pose in Hclose.
      replace (a02 + 0) with a02 in Hclose by ring.
      replace (a12 + 0) with a12 in Hclose by ring.
      destruct i as [| [| [| i]]]; [| | | lia];
        destruct j as [| [| [| j]]]; try lia; cbn [pick3 item nth] in *; exact Hclose.
  - (* general branch *)
    destruct Hgen as (Hth & Hsin & -> & -> & ->).
    pose proof (UR_roundtrip_general a00 a01 a02 a03 a10 a11 a12 a13 a20 a21 a22 a23
                  H00 H11 H22 H01 H02 H12 Hdet Hth Hsin) as Hback.
    pose proof (rigid_raw_norm _ _ _ _ _ _ _ _ _ H00 H11 H22 H01 H02 H12 Hdet) as Hraw.
    cbv zeta in Hback, Hraw. fold theta in Hback, Hraw.
    set (rx := a21 - a12) in *. set (ry := a02 - a20) in *. set (rz := a10 - a01) in *.
    assert (Hrr : rx * rx + ry * ry + rz * rz = 2 * sin theta * (2 * sin theta)).
    { rewrite <- Hraw. symmetry. apply sqrt_sqrt. apply sum_sq_nonneg. }
    assert (Hn : sqrt (rx * (1 / (2 * sin theta)) * theta * (rx * (1 / (2 * sin theta)) * theta)
                       + ry * (1 / (2 * sin theta)) * theta * (ry * (1 / (2 * sin theta)) * theta)
                       + rz * (1 / (2 * sin theta)) * theta * (rz * (1 / (2 * sin theta)) * theta))
                 = theta).
    { apply sqrt_of_square; [lra |].
      replace (rx * (1 / (2 * sin theta)) * theta * (rx * (1 / (2 * sin theta)) * theta)
               + ry * (1 / (2 * sin theta)) * theta * (ry * (1 / (2 * sin theta)) * theta)
               + rz * (1 / (2 * sin theta)) * theta * (rz * (1 / (2 * sin theta)) * theta))
        with ((rx * rx + ry * ry + rz * rz) / (2 * sin theta * (2 * sin theta))
              * (theta * theta)) by (field; lra).
      rewrite Hrr. field. lra. }
    eexists _, theta, theta, P.
    split; [exact Hur |]. split; [reflexivity |]. split; [exact Hangle |].
    split; [mat_eval; rewrite Hnorm, Hn; reflexivity |].
    split; [apply Rabs_le_iff; lra |]. split; [lra |]. split; [reflexivity |].
    split; [exact Hback |].
    split; [apply mat_within_refl; lra | reflexivity].
Qed.

Lemma UR_roundtrip_witness :
  exists (ur : list R) (Q : Mat),
    Pose_2_UR (transl 10 20 30) = Ok ur /\ UR_2_Pose ur = Ok Q /\
    mat_within 1e-7 Q (transl 10 20 30).
Proof.
  destruct (UR_roundtrip (transl 10 20 30) (rigid_pose_transl 10 20 30))
    as (ur & theta & n & Q & Hur & _ & _ & _ & _ & _ & _ & HQ & Hclose & _).
  exists ur, Q. auto.
Defined.

(** The claim of C5 for every matrix that passes [isHomogeneous] fails on
    the norm.  For the half turn about X stretched by 4e-5 along X the
    antisymmetric part is zero, so the degenerate branch is taken with
    pivot [1.00004]; the vector returned has length
    [angle * 2.00004 / sqrt 4.00008], more than 1e-6 above the angle. *)
Lemma Pose_2_UR_norm_counterexample :
  let P := [[1.00004; 0; 0; 0]; [0; -1; 0; 0]; [0; 0; -1; 0]; [0; 0; 0; 1]] in
  is_4x4 P /\ nth 3 P [] = [0; 0; 0; 1] /\ isHomogeneous P = Ok true /\
  exists (ur : list R) (theta n : R),
    Pose_2_UR P = Ok ur /\ pose_angle P = Ok theta /\
    norm [ur.[3]; ur.[4]; ur.[5]] = Ok n /\
    Rabs (n - theta) > 1e-6.
Proof.
  cbv zeta.
  assert (Hd : ~ defect 1.00004 0 0 0 (-1) 0 0 0 (-1) > 1e-4).
  { unfold defect. Rabs_cases. }
  split; [apply is_4x4_intro |]. split; [reflexivity |]. split.
  { rewrite isHomogeneous_4x4. destruct (Rgt_dec _ _); [contradiction | reflexivity]. }
  set (theta := acos (-0.99998)).
  assert (Hcos : cos theta = -0.99998) by (apply cos_acos; lra).
  assert (Hrange : 0 <= theta <= PI) by apply acos_bound.
  assert (Hbig : 1 < theta).
  { pose proof PI2_1.
    destruct (Rle_dec theta (PI / 2)) as [Hle | Hgt]; [| lra].
    assert (0 <= cos theta) by (apply cos_ge_0; lra). lra. }
  assert (Hsin : ~ Rabs (sin theta) < 1e-8).
  { pose proof (sin2_cos2 theta) as Hsc. unfold Rsqr in Hsc. rewrite Hcos in Hsc.
    intros Hlt. apply Rabs_def2 in Hlt. nra. }
  set (sig := sqrt 4.00008).
  assert (Hsig : 2 < sig < 2.00002).
  { unfold sig. split.
    - rewrite <- (sqrt_square 2) at 1 by lra. apply sqrt_lt_1; lra.
    - rewrite <- (sqrt_square 2.00002) by lra. apply sqrt_lt_1; lra. }
  exists [0; 0; 0; 2.00004 * (theta / sig); 0 * (theta / sig); 0 * (theta / sig)],
    theta, (2.00004 * (theta / sig)).
  assert (Hclamp : Rmin (Rmax (-0.99998) (-1)) 1 = -0.99998) by (apply clamp_id; lra).
  split; [| split; [| split]].
  - unfold Pose_2_UR, saturate_1, NUMERIC_TOLERANCE. mat_eval. decimals.
    replace ((1.00004 + -1 + -1 - 1) * / 2) with (-0.99998) by lra.
    rewrite Hclamp, py_acos_in_range by lra. fold theta. cbn [rbind].
    destruct (Rlt_dec theta 1e-8) as [Hlt | _]; [lra |].
    destruct (Rlt_dec (Rabs (sin theta)) 1e-8) as [Hlt | _]; [contradiction |].
    unfold norm. mat_eval.
    replace ((0 - 0) * (0 - 0) + (0 - 0) * (0 - 0) + (0 - 0) * (0 - 0)) with 0 by ring.
    rewrite py_sqrt_nonneg, sqrt_0 by lra. cbn [rbind].
    destruct (Rlt_dec 0 1e-8) as [_ | Hge]; [| lra].
    assert (Hmx : py_max [1.00004; -1; -1] = 1.00004).
    { unfold py_max. cbn [fold_left]. unfold Rmax.
      repeat (destruct (Rle_dec _ _)); lra. }
    rewrite Hmx. cbn [index].
    destruct (Req_dec_T 1.00004 1.00004) as [_ | Hne]; [| contradiction Hne; reflexivity].
    cbn [rbind Nat.eqb].
    rewrite (Rmax_right 0 (2 * (1 + 1.00004))) by lra.
    replace (2 * (1 + 1.00004)) with 4.00008 by lra.
    rewrite py_sqrt_nonneg by lra. fold sig. cbn [rbind].
    rewrite py_div_nonzero by lra. cbn [rbind]. mat_eval.
    replace (1.00004 + 1) with 2.00004 by lra. reflexivity.
  - unfold pose_angle. mat_eval.
    replace ((1.00004 + -1 + -1 - 1) / 2) with (-0.99998) by lra.
    rewrite Hclamp, py_acos_in_range by lra. reflexivity.
  - unfold norm. mat_eval. rewrite py_sqrt_nonneg by apply sum_sq_nonneg.
    f_equal. apply sqrt_of_square; [| ring].
    apply Rmult_le_pos; [lra |]. apply Rmult_le_pos; [lra |].
    left. apply Rinv_0_lt_compat. lra.
  - assert (Hq : theta / sig * sig = theta) by (field; lra).
    assert (Hpos : 0 < theta / sig).
    { apply Rmult_lt_0_compat; [lra | apply Rinv_0_lt_compat; lra]. }
    set (q := theta / sig) in *.
    assert (Hgap : 2.00004 * q - theta > 1e-6) by nra.
    unfold Rabs. destruct (Rcase_abs _); lra.
Qed.

(** ** The pose between two rigid poses *)

Section RelativePose.
Variables a00 a01 a02 a03 a10 a11 a12 a13 a20 a21 a22 a23 : R.
Variables b00 b01 b02 b03 b10 b11 b12 b13 b20 b21 b22 b23 : R.
Hypothesis A00 : a00 * a00 + a01 * a01 + a02 * a02 = 1.
Hypothesis A11 : a10 * a10 + a11 * a11 + a12 * a12 = 1.
Hypothesis A22 : a20 * a20 + a21 * a21 + a22 * a22 = 1.
Hypothesis A01 : a00 * a10 + a01 * a11 + a02 * a12 = 0.
Hypothesis A02 : a00 * a20 + a01 * a21 + a02 * a22 = 0.
Hypothesis A12 : a10 * a20 + a11 * a21 + a12 * a22 = 0.
Hypothesis Adet :
  a00 * (a11 * a22 - a12 * a21) - a01 * (a10 * a22 - a12 * a20)
  + a02 * (a10 * a21 - a11 * a20) = 1.
Hypothesis B00 : b00 * b00 + b01 * b01 + b02 * b02 = 1.
Hypothesis B11 : b10 * b10 + b11 * b11 + b12 * b12 = 1.
Hypothesis B22 : b20 * b20 + b21 * b21 + b22 * b22 = 1.
Hypothesis B01 : b00 * b10 + b01 * b11 + b02 * b12 = 0.
Hypothesis B02 : b00 * b20 + b01 * b21 + b02 * b22 = 0.
Hypothesis B12 : b10 * b20 + b11 * b21 + b12 * b22 = 0.
Hypothesis Bdet :
  b00 * (b11 * b22 - b12 * b21) - b01 * (b10 * b22 - b12 * b20)
  + b02 * (b10 * b21 - b11 * b20) = 1.

(** [inv(A) * B], entry by entry. *)
Let d (i j : nat) : R :=
  pick3 i (a00 * pick3 j b00 b01 b02 + a10 * pick3 j b10 b11 b12 + a20 * pick3 j b20 b21 b22)
          (a01 * pick3 j b00 b01 b02 + a11 * pick3 j b10 b11 b12 + a21 * pick3 j b20 b21 b22)
          (a02 * pick3 j b00 b01 b02 + a12 * pick3 j b10 b11 b12 + a22 * pick3 j b20 b21 b22).

Lemma relative_pose_rigid (x y z : R) :
  rigid_pose [[d 0 0; d 0 1; d 0 2; x]; [d 1 0; d 1 1; d 1 2; y];
              [d 2 0; d 2 1; d 2 2; z]; [0; 0; 0; 1]].
Proof.
  pose proof (col_00 _ _ _ _ _ _ _ _ _ A00 A11 A22 A01 A02 A12) as C00.
  pose proof (col_11 _ _ _ _ _ _ _ _ _ A00 A11 A22 A01 A02 A12) as C11.
  pose proof (col_22 _ _ _ _ _ _ _ _ _ A00 A11 A22 A01 A02 A12) as C22.
  pose proof (col_01 _ _ _ _ _ _ _ _ _ A00 A11 A22 A01 A02 A12) as C01.
  pose proof (col_02 _ _ _ _ _ _ _ _ _ A00 A11 A22 A01 A02 A12) as C02.
  pose proof (col_12 _ _ _ _ _ _ _ _ _ A00 A11 A22 A01 A02 A12) as C12.
  clear A00 A11 A22 A01 A02 A12.
  apply rigid_pose_intro; unfold d; cbn [pick3].
  - nsatz.
  - nsatz.
  - nsatz.
  - nsatz.
  - nsatz.
  - nsatz.
  - transitivity
      ((a00 * (a11 * a22 - a12 * a21) - a01 * (a10 * a22 - a12 * a20)
        + a02 * (a10 * a21 - a11 * a20))
       * (b00 * (b11 * b22 - b12 * b21) - b01 * (b10 * b22 - b12 * b20)
          + b02 * (b10 * b21 - b11 * b20))); [ring |].
    rewrite Adet, Bdet. ring.
Qed.
End RelativePose.

(** [inv(pose1) * pose2] of two exact rigid poses is an exact rigid pose. *)
Lemma relative_pose (pose1 pose2 : Mat) :
  rigid_pose pose1 -> rigid_pose pose2 ->
  exists inv1 pose_delta : Mat,
    invH pose1 = Ok inv1 /\ Mat_mul inv1 pose2 = Ok pose_delta /\
    rigid_pose pose_delta.
Proof.
  intros H1 H2.
  destruct (rigid_pose_inv pose1 H1)
    as (a00 & a01 & a02 & a03 & a10 & a11 & a12 & a13 & a20 & a21 & a22 & a23 &
        -> & A00 & A11 & A22 & A01 & A02 & A12 & Adet).
  destruct (rigid_pose_inv pose2 H2)
    as (b00 & b01 & b02 & b03 & b10 & b11 & b12 & b13 & b20 & b21 & b22 & b23 &
        -> & B00 & B11 & B22 & B01 & B02 & B12 & Bdet).
  eexists _, _. split; [| split].
  - apply invH_exact. apply defect_rows_zero; assumption.
  - mat_eval. reflexivity.
  - match goal with
    | |- rigid_pose [[_; _; _; ?x]; [_; _; _; ?y]; [_; _; _; ?z]; _] =>
        pose proof (relative_pose_rigid a00 a01 a02 a10 a11 a12 a20 a21 a22
                      b00 b01 b02 b10 b11 b12 b20 b21 b22
                      A00 A11 A22 A01 A02 A12 Adet B00 B11 B22 B01 B02 B12 Bdet x y z)
          as Hrigid
    end.
    cbn [pick3] in Hrigid.
    match type of Hrigid with
    | rigid_pose ?D => match goal with
                       | |- rigid_pose ?E => replace E with D; [exact Hrigid |]
                       end
    end.
    mat_entries; ring.
Qed.

Lemma Pose_2_UR_returns_rigid (P : Mat) :
  rigid_pose P ->
  exists x y z w p r : R, Pose_2_UR P = Ok [x; y; z; w; p; r].
Proof.
  intros HP.
  destruct (rigid_pose_inv P HP)
    as (a00 & a01 & a02 & a03 & a10 & a11 & a12 & a13 & a20 & a21 & a22 & a23 &
        -> & H00 & H11 & H22 & H01 & H02 & H12 & Hdet).
  destruct (Pose_2_UR_rigid a00 a01 a02 a03 a10 a11 a12 a13 a20 a21 a22 a23
              H00 H11 H22 H01 H02 H12 Hdet) as (rx & ry & rz & Hur & _).
  exists a03, a13, a23, rx, ry, rz. exact Hur.
Qed.

(** Whatever [Pose_2_UR] returns has six entries. *)
Lemma Pose_2_UR_six (P : Mat) (ur : list R) :
  Pose_2_UR P = Ok ur -> exists x y z w p r : R, ur = [x; y; z; w; p; r].
Proof.
  unfold Pose_2_UR. intros Hur.
  destruct (py_acos _) as [angle |]; [cbn [rbind] in Hur | discriminate].
  match type of Hur with
  | rbind ?m _ = _ => destruct m as [rxyz |]; [cbn [rbind] in Hur | discriminate]
  end.
  injection Hur as <-. repeat eexists.
Qed.

(** ** Splitting a move *)

(** A loop that appends one computed element per iteration. *)
Lemma for_in_collect {A B : Type} (f : A -> result B)
    (body : A -> list B -> result (list B)) :
  (forall x acc, body x acc = do y <- f x; Ok (acc ++ [y])) ->
  forall (xs : list A) (acc : list B),
    (forall x, In x xs -> exists y, f x = Ok y) ->
    exists ys : list B,
      for_in xs body acc = Ok (acc ++ ys) /\
      Forall2 (fun x y => f x = Ok y) xs ys.
Proof.
  intros Hbody. induction xs as [| x xs IH]; intros acc Hall.
  - exists []. split; [cbn; rewrite app_nil_r; reflexivity | constructor].
  - destruct (Hall x (or_introl eq_refl)) as (y & Hy).
    destruct (IH (acc ++ [y]) (fun x' Hin => Hall x' (or_intror Hin)))
      as (ys & Hrun & Hys).
    exists (y :: ys). split.
    + cbn [for_in]. rewrite Hbody, Hy. cbn [rbind]. rewrite Hrun.
      rewrite <- app_assoc. reflexivity.
    + constructor; assumption.
Qed.

Lemma Mat_mul_4x4 (A B : Mat) :
  is_4x4 A -> is_4x4 B -> exists C : Mat, Mat_mul A B = Ok C /\ is_4x4 C.
Proof.
  intros HA HB.
  destruct (is_4x4_inv A HA)
    as (a00 & a01 & a02 & a03 & a10 & a11 & a12 & a13 &
        a20 & a21 & a22 & a23 & a30 & a31 & a32 & a33 & ->).
  destruct (is_4x4_inv B HB)
    as (b00 & b01 & b02 & b03 & b10 & b11 & b12 & b13 &
        b20 & b21 & b22 & b23 & b30 & b31 & b32 & b33 & ->).
  eexists. split; [mat_eval; reflexivity | apply is_4x4_intro].
Qed.

(** [int] of a number that is at least 0 is its floor. *)
Lemma py_int_nonneg (v : R) : 0 <= v -> py_int v = Int_part v.
Proof. intros Hv. unfold py_int. destruct (Rle_dec 0 v); [reflexivity | lra]. Qed.

Lemma Int_part_ge_1 (v : R) : 1 <= v -> (1 <= Int_part v)%Z.
Proof.
  intros Hv. destruct (base_Int_part v) as [Hle Hgt].
  assert (H0 : 0 < IZR (Int_part v)) by lra.
  apply lt_0_IZR in H0. lia.
Qed.

Lemma invH_4x4_total (P : Mat) :
  is_4x4 P -> isHomogeneous P = Ok true ->
  exists inv1 : Mat, invH P = Ok inv1 /\ is_4x4 inv1.
Proof.
  intros HP Hhom.
  destruct (is_4x4_inv P HP)
    as (a00 & a01 & a02 & a03 & a10 & a11 & a12 & a13 &
        a20 & a21 & a22 & a23 & a30 & a31 & a32 & a33 & ->).
  rewrite isHomogeneous_4x4 in Hhom. rewrite invH_4x4.
  destruct (Rgt_dec _ _); [discriminate |].
  eexists. split; [reflexivity | apply is_4x4_intro].
Qed.

Lemma Pos_4x4 (P : Mat) :
  is_4x4 P -> Pos P = Ok [item P 0 3; item P 1 3; item P 2 3].
Proof.
  intros HP.
  destruct (is_4x4_inv P HP)
    as (a00 & a01 & a02 & a03 & a10 & a11 & a12 & a13 &
        a20 & a21 & a22 & a23 & a30 & a31 & a32 & a33 & ->).
  reflexivity.
Qed.

Lemma norm_3 (x y z : R) : norm [x; y; z] = Ok (sqrt (x * x + y * y + z * z)).
Proof. unfold norm. mat_eval. apply py_sqrt_nonneg. apply sum_sq_nonneg. Qed.

(** [Pose_Split] once the relative pose and its length are known. *)
Lemma Pose_Split_unfold (pose1 pose2 inv1 pose_delta : Mat) (pos : list R)
    (distance delta_mm : R) :
  invH pose1 = Ok inv1 -> Mat_mul inv1 pose2 = Ok pose_delta ->
  Pos pose_delta = Ok pos -> norm pos = Ok distance ->
  Pose_Split pose1 pose2 delta_mm =
  if Rle_dec distance delta_mm then Ok [pose2]
  else
    do ur <- Pose_2_UR pose_delta;
    match ur with
    | [x; y; z; w; p; r] =>
        do ratio <- py_div distance delta_mm;
        let steps := Z.max 1 (py_int ratio) in
        do xd <- py_div x (IZR steps);
        do yd <- py_div y (IZR steps);
        do zd <- py_div z (IZR steps);
        do wd <- py_div w (IZR steps);
        do pd <- py_div p (IZR steps);
        do rd <- py_div r (IZR steps);
        for_in (seq 0 (Z.to_nat (steps - 1))) (fun i pose_list =>
          let factor := INR (i + 1) in
          do step <- UR_2_Pose [xd * factor; yd * factor; zd * factor;
                                wd * factor; pd * factor; rd * factor];
          do target <- Mat_mul pose1 step;
          Ok (pose_list ++ [target])) []
    | _ => Raise ValueError
    end.
Proof.
  intros Hinv Hmul Hpos Hnorm. unfold Pose_Split.
  rewrite Hinv. cbn [rbind]. rewrite Hmul. cbn [rbind]. rewrite Hpos. cbn [rbind].
  rewrite Hnorm. cbn [rbind]. reflexivity.
Qed.

Lemma Pose_Split_general (pose1 pose2 : Mat) (delta_mm : R) :
  is_4x4 pose1 -> is_4x4 pose2 -> isHomogeneous pose1 = Ok true -> 0 < delta_mm ->
  exists (inv1 pose_delta : Mat) (pos : list R) (distance : R),
    invH pose1 = Ok inv1 /\ Mat_mul inv1 pose2 = Ok pose_delta /\
    Pos pose_delta = Ok pos /\ norm pos = Ok distance /\
    (distance <= delta_mm -> Pose_Split pose1 pose2 delta_mm = Ok [pose2]) /\
    (delta_mm < distance ->
     (forall e, Pose_2_UR pose_delta = Raise e ->
                Pose_Split pose1 pose2 delta_mm = Raise e) /\
     (forall ur, Pose_2_UR pose_delta = Ok ur ->
        exists poses : list Mat,
          Pose_Split pose1 pose2 delta_mm = Ok poses /\
          length poses = Z.to_nat (Z.max 1 (Int_part (distance / delta_mm)) - 1) /\
          forall (i : nat) (target : Mat), poses !! i = Some target ->
            exists step : Mat,
              UR_2_Pose (map (fun v => v / IZR (Z.max 1 (Int_part (distance / delta_mm)))
                                       * INR (i + 1)) ur) = Ok step /\
              Mat_mul pose1 step = Ok target)) /\
    (rigid_pose pose1 -> rigid_pose pose2 -> exists ur, Pose_2_UR pose_delta = Ok ur).
Proof.
  intros H1 H2 Hhom Hdelta.
  destruct (invH_4x4_total pose1 H1 Hhom) as (inv1 & Hinv & Hinv4).
  destruct (Mat_mul_4x4 inv1 pose2 Hinv4 H2) as (pose_delta & Hmul & Hd4).
  pose proof (Pos_4x4 pose_delta Hd4) as Hpos.
  pose proof (norm_3 (item pose_delta 0 3) (item pose_delta 1 3) (item pose_delta 2 3))
    as Hnorm.
  set (distance := sqrt _) in Hnorm.
  exists inv1, pose_delta, [item pose_delta 0 3; item pose_delta 1 3; item pose_delta 2 3],
    distance.
  split; [exact Hinv |]. split; [exact Hmul |]. split; [exact Hpos |].
  split; [exact Hnorm |].
  pose proof (Pose_Split_unfold pose1 pose2 inv1 pose_delta _ distance delta_mm
                Hinv Hmul Hpos Hnorm) as Hsplit.
  split; [| split].
  - intros Hle. rewrite Hsplit. destruct (Rle_dec distance delta_mm); [reflexivity | lra].
  - intros Hgt.
    destruct (Rle_dec distance delta_mm) as [Hle | _]; [lra |].
    split.
    + intros e He. rewrite Hsplit, He. reflexivity.
    + intros ur Hur. rewrite Hsplit, Hur. cbn [rbind].
      destruct (Pose_2_UR_six pose_delta ur Hur) as (x & y & z & w & p & r & ->).
      assert (Hratio : 1 <= distance / delta_mm).
      { apply Rmult_le_reg_r with delta_mm; [exact Hdelta |].
        replace (distance / delta_mm * delta_mm) with distance by (field; lra). lra. }
      rewrite py_div_nonzero by lra. cbn [rbind].
      rewrite py_int_nonneg by lra.
      set (steps := Z.max 1 (Int_part (distance / delta_mm))).
      assert (Hsteps : IZR steps <> 0).
      { apply not_0_IZR. unfold steps. lia. }
      rewrite !py_div_nonzero by exact Hsteps. cbn [rbind].
      set (f := fun i : nat =>
                  do step <- UR_2_Pose [x / IZR steps * INR (i + 1);
                                        y / IZR steps * INR (i + 1);
                                        z / IZR steps * INR (i + 1);
                                        w / IZR steps * INR (i + 1);
                                        p / IZR steps * INR (i + 1);
                                        r / IZR steps * INR (i + 1)];
                  Mat_mul pose1 step).
      match goal with
      | |- exists poses, for_in ?loop_xs ?loop_body [] = Ok poses /\ _ =>
          set (body := loop_body); set (xs := loop_xs)
      end.
      assert (Hbody : forall i acc, body i acc = do y <- f i; Ok (acc ++ [y])).
      { intros i acc. unfold body, f.
        destruct (UR_2_Pose _) as [step |]; [cbn [rbind] | reflexivity].
        destruct (Mat_mul pose1 step); reflexivity. }
      assert (Hall : forall i, In i xs -> exists y, f i = Ok y).
      { intros i _. unfold f.
        destruct (UR_2_Pose_total (x / IZR steps * INR (i + 1)) (y / IZR steps * INR (i + 1))
                    (z / IZR steps * INR (i + 1)) (w / IZR steps * INR (i + 1))
                    (p / IZR steps * INR (i + 1)) (r / IZR steps * INR (i + 1)))
          as (step & Hstep & Hstep4).
        rewrite Hstep. cbn [rbind].
        destruct (Mat_mul_4x4 pose1 step H1 Hstep4) as (target & Htarget & _).
        exists target. exact Htarget. }
      destruct (for_in_collect f body Hbody xs [] Hall) as (ys & Hrun & Hys).
      cbn [app] in Hrun.
      exists ys. split; [exact Hrun |]. split.
      * rewrite <- (Forall2_length _ _ _ Hys). apply length_seq.
      * intros i target Hi.
        destruct (Forall2_lookup_r _ _ _ _ _ Hys Hi) as (i' & Hi' & Hf).
        apply lookup_seq in Hi' as [-> _]. cbn [Nat.add] in Hf.
        unfold f in Hf.
        destruct (UR_2_Pose _) as [step |] eqn:Hstep; [cbn [rbind] in Hf | discriminate].
        exists step. split; [| exact Hf].
        cbn [map]. first [exact Hstep | reflexivity].
  - intros R1 R2.
    destruct (relative_pose pose1 pose2 R1 R2) as (inv1' & D' & Hinv' & Hmul' & Hrigid).
    rewrite Hinv in Hinv'. injection Hinv' as <-.
    rewrite Hmul in Hmul'. injection Hmul' as <-.
    destruct (Pose_2_UR_returns_rigid pose_delta Hrigid) as (x & y & z & w & p & r & Hur).
    eexists. exact Hur.
Qed.

(** *** The scenario [Pose_Split(eye(4), transl(10, 0, 0), 1.0)] *)

Lemma Int_part_10 : Int_part (10 / 1) = 10%Z.
Proof.
  unfold Int_part. replace (10 / 1) with (IZR 10) by lra.
  rewrite <- (up_tech (IZR 10) 10); [reflexivity | lra |].
  replace (10 + 1)%Z with 11%Z by reflexivity. lra.
Qed.

Lemma Mat_mul_eye4_transl (x y z : R) :
  Mat_mul eye4 (transl x y z) = Ok (transl x y z).
Proof. mat_eval. mat_entries; lra. Qed.

(** One step of the scenario: the pose [i + 1] mm along X is appended. *)
Lemma scenario_step (i : nat) (pose_list : list Mat) :
  (do step <- UR_2_Pose [10 / IZR 10 * INR (i + 1); 0 / IZR 10 * INR (i + 1);
                         0 / IZR 10 * INR (i + 1); 0 / IZR 10 * INR (i + 1);
                         0 / IZR 10 * INR (i + 1); 0 / IZR 10 * INR (i + 1)];
   do target <- Mat_mul eye4 step; Ok (pose_list ++ [target]))
  = Ok (pose_list ++ [transl (INR (i + 1)) 0 0]).
Proof.
  rewrite UR_2_Pose_zero.
  - cbn [rbind]. rewrite Mat_mul_eye4_transl. cbn [rbind].
    unfold transl, Mat_of_rows. cbn [existsb length Nat.eqb negb orb].
    do 2 f_equal. mat_entries; lra.
  - replace (0 / 10 * INR (i + 1) * (0 / 10 * INR (i + 1))
             + 0 / 10 * INR (i + 1) * (0 / 10 * INR (i + 1))
             + 0 / 10 * INR (i + 1) * (0 / 10 * INR (i + 1))) with 0 by lra.
    exact sqrt_0.
Qed.

Lemma Pose_Split_scenario :
  Pose_Split eye4 (transl 10 0 0) 1.0
  = Ok [transl 1 0 0; transl 2 0 0; transl 3 0 0; transl 4 0 0; transl 5 0 0;
        transl 6 0 0; transl 7 0 0; transl 8 0 0; transl 9 0 0].
Proof.
  assert (Hinv : invH eye4 = Ok eye4).
  { unfold eye4, Mat_of_rows. cbn [existsb length Nat.eqb negb orb].
    rewrite invH_exact by (apply defect_rows_zero; lra).
    mat_entries; lra. }
  assert (Hnorm : norm [10; 0; 0] = Ok 10).
  { rewrite norm_3. f_equal. apply sqrt_of_square; lra. }
  rewrite (Pose_Split_unfold eye4 (transl 10 0 0) eye4 (transl 10 0 0) [10; 0; 0] 10 1.0
             Hinv (Mat_mul_eye4_transl 10 0 0) eq_refl Hnorm).
  destruct (Rle_dec 10 1.0) as [Hle | _]; [lra |].
  assert (Hur : Pose_2_UR (transl 10 0 0) = Ok [10; 0; 0; 0; 0; 0]).
  { unfold Pose_2_UR, saturate_1, NUMERIC_TOLERANCE. mat_eval. decimals.
    replace ((1 + 1 + 1 - 1) * / 2) with 1 by lra.
    rewrite (clamp_id 1) by lra. rewrite py_acos_in_range by lra. rewrite acos_1.
    cbn [rbind]. destruct (Rlt_dec 0 1e-8) as [_ | Hge]; [| lra].
    cbn [rbind]. reflexivity. }
  rewrite Hur. cbn [rbind]. decimals.
  rewrite py_div_nonzero by lra. cbn [rbind].
  rewrite py_int_nonneg by lra. rewrite Int_part_10.
  change (Z.max 1 10) with 10%Z. cbv zeta.
  rewrite !py_div_nonzero by lra. cbn [rbind].
  change (Z.to_nat (10 - 1)) with 9%nat. cbn [seq for_in].
  repeat (rewrite scenario_step; cbn [rbind]).
  cbn [app Nat.add INR].
  unfold transl, Mat_of_rows. cbn [existsb length Nat.eqb negb orb].
  mat_entries; lra.
Qed.

Lemma isHomogeneous_exact (P : Mat) : exact_pose P -> isHomogeneous P = Ok true.
Proof.
  intros HP.
  destruct (exact_pose_inv P HP)
    as (a00 & a01 & a02 & a03 & a10 & a11 & a12 & a13 &
        a20 & a21 & a22 & a23 & -> & H00 & H11 & H22 & H01 & H02 & H12).
  rewrite isHomogeneous_4x4, defect_rows_zero by assumption.
  destruct (Rgt_dec 0 1e-4); [lra | reflexivity].
Qed.

(** C8, as the code has it.  For 4x4 matrices [pose1] (passing
    [isHomogeneous]) and [pose2] and [delta_mm > 0], with [distance] the
    norm of the position of [inv(pose1) * pose2]: when
    [distance <= delta_mm] the result is [[pose2]]; otherwise, when
    [Pose_2_UR] of the relative pose returns (it does for exact rigid
    poses; its exception is passed on), the result has exactly
    [max(1, floor(distance / delta_mm)) - 1] poses, the one of index [i]
    being [pose1 * UR_2_Pose(ur * (i + 1) / steps)].  And
    [Pose_Split(eye(4), transl(10, 0, 0), 1.0)] is the nine translations by
    1, 2, ..., 9 mm along X. *)
Theorem Pose_Split_steps (pose1 pose2 : Mat) (delta_mm : R) :
  is_4x4 pose1 -> is_4x4 pose2 -> isHomogeneous pose1 = Ok true -> 0 < delta_mm ->
  (exists (inv1 pose_delta : Mat) (pos : list R) (distance : R),
     invH pose1 = Ok inv1 /\ Mat_mul inv1 pose2 = Ok pose_delta /\
     Pos pose_delta = Ok pos /\ norm pos = Ok distance /\
     (distance <= delta_mm -> Pose_Split pose1 pose2 delta_mm = Ok [pose2]) /\
     (delta_mm < distance ->
      (forall e, Pose_2_UR pose_delta = Raise e ->
                 Pose_Split pose1 pose2 delta_mm = Raise e) /\
      (forall ur, Pose_2_UR pose_delta = Ok ur ->
         exists poses : list Mat,
           Pose_Split pose1 pose2 delta_mm = Ok poses /\
           length poses = Z.to_nat (Z.max 1 (Int_part (distance / delta_mm)) - 1) /\
           forall (i : nat) (target : Mat), poses !! i = Some target ->
             exists step : Mat,
               UR_2_Pose (map (fun v => v / IZR (Z.max 1 (Int_part (distance / delta_mm)))
                                        * INR (i + 1)) ur) = Ok step /\
               Mat_mul pose1 step = Ok target)) /\
     (rigid_pose pose1 -> rigid_pose pose2 -> exists ur, Pose_2_UR pose_delta = Ok ur)) /\
  Pose_Split eye4 (transl 10 0 0) 1.0
  = Ok [transl 1 0 0; transl 2 0 0; transl 3 0 0; transl 4 0 0; transl 5 0 0;
        transl 6 0 0; transl 7 0 0; transl 8 0 0; transl 9 0 0].
Proof.
  intros H1 H2 Hhom Hdelta. split.
  - apply Pose_Split_general; assumption.
  - exact Pose_Split_scenario.
Qed.

Lemma Pose_Split_steps_witness :
  Pose_Split eye4 (transl 10 0 0) 1.0
  = Ok [transl 1 0 0; transl 2 0 0; transl 3 0 0; transl 4 0 0; transl 5 0 0;
        transl 6 0 0; transl 7 0 0; transl 8 0 0; transl 9 0 0].
Proof.
  refine (proj2 (Pose_Split_steps eye4 (transl 10 0 0) 1 _ _ _ _)).
  - apply is_4x4_intro.
  - apply is_4x4_intro.
  - apply isHomogeneous_exact. apply rigid_pose_eye4.
  - lra.
Defined.

(** The claim of C8 for every pair of matrices that pass [isHomogeneous]
    fails: when [pose2] is the point reflection moved 10 mm along X, the
    relative pose has diagonal [-1, -1, -1], [Pose_2_UR] takes the
    degenerate branch with pivot [-1] and divides the angle by
    [sqrt 0]. *)
Lemma Pose_Split_counterexample :
  let pose2 := [[-1; 0; 0; 10]; [0; -1; 0; 0]; [0; 0; -1; 0]; [0; 0; 0; 1]] in
  exact_pose eye4 /\ exact_pose pose2 /\
  isHomogeneous eye4 = Ok true /\ isHomogeneous pose2 = Ok true /\
  Pose_Split eye4 pose2 1 = Raise ZeroDivisionError.
Proof.
  cbv zeta.
  assert (E1 : exact_pose eye4) by apply rigid_pose_eye4.
  assert (E2 : exact_pose [[-1; 0; 0; 10]; [0; -1; 0; 0]; [0; 0; -1; 0]; [0; 0; 0; 1]]).
  { split; [apply is_4x4_intro |]. split; [reflexivity |].
    unfold orthonormal. cbn [item nth]. repeat split; lra. }
  split; [exact E1 |]. split; [exact E2 |].
  split; [apply isHomogeneous_exact; exact E1 |].
  split; [apply isHomogeneous_exact; exact E2 |].
  assert (Hinv : invH eye4 = Ok eye4).
  { unfold eye4, Mat_of_rows. cbn [existsb length Nat.eqb negb orb].
    rewrite invH_exact by (apply defect_rows_zero; lra).
    mat_entries; lra. }
  assert (Hmul : Mat_mul eye4 [[-1; 0; 0; 10]; [0; -1; 0; 0]; [0; 0; -1; 0]; [0; 0; 0; 1]]
                 = Ok [[-1; 0; 0; 10]; [0; -1; 0; 0]; [0; 0; -1; 0]; [0; 0; 0; 1]]).
  { mat_eval. mat_entries; lra. }
  assert (Hnorm : norm [10; 0; 0] = Ok 10).
  { rewrite norm_3. f_equal. apply sqrt_of_square; lra. }
  rewrite (Pose_Split_unfold _ _ _ _ [10; 0; 0] 10 1 Hinv Hmul eq_refl Hnorm).
  destruct (Rle_dec 10 1) as [Hle | _]; [lra |].
  unfold Pose_2_UR, saturate_1, NUMERIC_TOLERANCE. mat_eval. decimals.
  destruct (clamp_cases ((-1 + -1 + -1 - 1) * / 2)) as [[? E] | [[? E] | [? E]]]; try lra.
  rewrite E, py_acos_in_range by lra.
  assert (Hacos : acos (-1) = PI).
  { replace (-1) with (- (1)) by lra. rewrite acos_opp, acos_1. ring. }
  rewrite Hacos. cbn [rbind]. pose proof PI_RGT_0 as Hpi.
  destruct (Rlt_dec PI 1e-8) as [Hlt | _]; [pose proof PI2_1; lra |].
  rewrite sin_PI, Rabs_R0.
  destruct (Rlt_dec 0 1e-8) as [_ | Hge]; [| lra].
  cbn [rbind].
  assert (Hmx : py_max [-1; -1; -1] = -1).
  { unfold py_max. cbn [fold_left]. unfold Rmax.
    repeat (destruct (Rle_dec _ _)); lra. }
  rewrite Hmx. cbn [index].
  destruct (Req_dec_T (-1) (-1)) as [_ | Hne]; [| contradiction Hne; reflexivity].
  cbn [rbind Nat.eqb].
  replace (2 * (1 + -1)) with 0 by lra.
  rewrite (Rmax_left 0 0) by lra. rewrite py_sqrt_nonneg by lra. rewrite sqrt_0.
  cbn [rbind]. unfold py_div.
  destruct (Req_dec_T 0 0) as [_ | Hne]; [reflexivity | contradiction Hne; reflexivity].
Qed.

(** * The rest of the module: proofs *)

(** ** Poses as products of elementary poses *)

Ltac pose_unfold :=
  unfold RelTool, Offset, Comau_2_Pose;
  unfold rotx, roty, rotz, Pose, PosePP, dh, dhm,
    TxyzRxyz_2_Pose, xyzrpw_2_pose, KUKA_2_Pose, Adept_2_Pose, pi; cbv zeta;
  cbn [Mat_of_rows transl eye4 existsb length Nat.eqb negb orb].

(** The product of two 4x4 matrices, entry by entry, as [__mul__] sums it. *)
Lemma Mat_mul_4x4_entries
    (a00 a01 a02 a03 a10 a11 a12 a13 a20 a21 a22 a23 a30 a31 a32 a33 : R)
    (b00 b01 b02 b03 b10 b11 b12 b13 b20 b21 b22 b23 b30 b31 b32 b33 : R) :
  Mat_mul [[a00; a01; a02; a03]; [a10; a11; a12; a13];
           [a20; a21; a22; a23]; [a30; a31; a32; a33]]
          [[b00; b01; b02; b03]; [b10; b11; b12; b13];
           [b20; b21; b22; b23]; [b30; b31; b32; b33]]
  = Ok [[0 + a00 * b00 + a01 * b10 + a02 * b20 + a03 * b30;
         0 + a00 * b01 + a01 * b11 + a02 * b21 + a03 * b31;
         0 + a00 * b02 + a01 * b12 + a02 * b22 + a03 * b32;
         0 + a00 * b03 + a01 * b13 + a02 * b23 + a03 * b33];
        [0 + a10 * b00 + a11 * b10 + a12 * b20 + a13 * b30;
         0 + a10 * b01 + a11 * b11 + a12 * b21 + a13 * b31;
         0 + a10 * b02 + a11 * b12 + a12 * b22 + a13 * b32;
         0 + a10 * b03 + a11 * b13 + a12 * b23 + a13 * b33];
        [0 + a20 * b00 + a21 * b10 + a22 * b20 + a23 * b30;
         0 + a20 * b01 + a21 * b11 + a22 * b21 + a23 * b31;
         0 + a20 * b02 + a21 * b12 + a22 * b22 + a23 * b32;
         0 + a20 * b03 + a21 * b13 + a22 * b23 + a23 * b33];
        [0 + a30 * b00 + a31 * b10 + a32 * b20 + a33 * b30;
         0 + a30 * b01 + a31 * b11 + a32 * b21 + a33 * b31;
         0 + a30 * b02 + a31 * b12 + a32 * b22 + a33 * b32;
         0 + a30 * b03 + a31 * b13 + a32 * b23 + a33 * b33]].
Proof. reflexivity. Qed.

(** Products of 4x4 matrices, one product at a time. *)
Ltac mul_eval := repeat (rewrite Mat_mul_4x4_entries; cbn [rbind]).

Ltac pose_eval := pose_unfold; mul_eval.

(** [TxyzRxyz_2_Pose] and [Pose] are the product
    [transl(x, y, z) * rotx(rx) * roty(ry) * rotz(rz)], the one in radians
    and the other in degrees. *)
Theorem Pose_is_product (x y z rx ry rz : R) :
  (do t <- Mat_mul (transl x y z) (rotx rx);
   do t <- Mat_mul t (roty ry);
   Mat_mul t (rotz rz)) = TxyzRxyz_2_Pose [x; y; z; rx; ry; rz] /\
  (do t <- Mat_mul (transl x y z) (rotx (rx * PI / 180));
   do t <- Mat_mul t (roty (ry * PI / 180));
   Mat_mul t (rotz (rz * PI / 180))) = Ok (Pose x y z rx ry rz) /\
  TxyzRxyz_2_Pose [x; y; z; rx * PI / 180; ry * PI / 180; rz * PI / 180]
  = Ok (Pose x y z rx ry rz).
Proof.
  split; [| split].
  - pose_eval. mat_entries; ring.
  - pose_eval. mat_entries; ring.
  - reflexivity.
Qed.

(** [xyzrpw_2_pose] is [transl(x, y, z) * rotz(w) * roty(p) * rotx(r)] with
    the angles in degrees; [KUKA_2_Pose] and [PosePP] take the same three
    rotations in the other order, [A] about Z first: on [x, y, z, a, b, c]
    they are [xyzrpw_2_pose] on [x, y, z, c, b, a]. *)
Theorem xyzrpw_is_product (x y z r p w : R) :
  (do t <- Mat_mul (transl x y z) (rotz (w * PI / 180));
   do t <- Mat_mul t (roty (p * PI / 180));
   Mat_mul t (rotx (r * PI / 180))) = xyzrpw_2_pose [x; y; z; r; p; w] /\
  (do t <- Mat_mul (transl x y z) (rotz (r * PI / 180));
   do t <- Mat_mul t (roty (p * PI / 180));
   Mat_mul t (rotx (w * PI / 180))) = KUKA_2_Pose [x; y; z; r; p; w] /\
  KUKA_2_Pose [x; y; z; r; p; w] = xyzrpw_2_pose [x; y; z; w; p; r] /\
  KUKA_2_Pose [x; y; z; r; p; w] = Ok (PosePP x y z r p w).
Proof.
  split; [| split; [| split]].
  - pose_eval. mat_entries; ring.
  - pose_eval. decimals. replace 180.0 with 180 by lra. mat_entries; ring.
  - pose_eval. decimals. replace 180.0 with 180 by lra. mat_entries; ring.
  - reflexivity.
Qed.

(** [Adept_2_Pose] (and [Comau_2_Pose], which calls it) is
    [transl(x, y, z) * rotz(r) * roty(p) * rotz(w)], the angles in degrees:
    Euler angles Z, Y, Z. *)
Theorem Adept_is_product (x y z r p w : R) :
  (do t <- Mat_mul (transl x y z) (rotz (r * PI / 180));
   do t <- Mat_mul t (roty (p * PI / 180));
   Mat_mul t (rotz (w * PI / 180))) = Adept_2_Pose [x; y; z; r; p; w] /\
  Comau_2_Pose [x; y; z; r; p; w] = Adept_2_Pose [x; y; z; r; p; w].
Proof.
  split; [| reflexivity].
  pose_eval. decimals. replace 180.0 with 180 by lra. mat_entries; ring.
Qed.

(** The Denavit-Hartenberg link [dh(rz, tx, tz, rx)] is
    [rotz(rz) * transl(tx, 0, tz) * rotx(rx)], and the modified link
    [dhm(rx, tx, tz, rz)] is [rotx(rx) * transl(tx, 0, tz) * rotz(rz)]. *)
Theorem dh_is_product (rz tx tz rx : R) :
  (do t <- Mat_mul (rotz rz) (transl tx 0 tz); Mat_mul t (rotx rx))
  = Ok (dh rz tx tz rx) /\
  (do t <- Mat_mul (rotx rx) (transl tx 0 tz); Mat_mul t (rotz rz))
  = Ok (dhm rx tx tz rz).
Proof.
  split; pose_eval; mat_entries; ring.
Qed.

(** [RelTool] multiplies the target on the right by
    [Pose(x, y, z, rx, ry, rz)] and does not test the target; [Offset]
    multiplies it on the left by the same pose, and raises when the target
    does not pass [isHomogeneous]. *)
Theorem RelTool_Offset (P : Mat) (x y z rx ry rz : R) :
  is_4x4 P ->
  RelTool P x y z rx ry rz = Mat_mul P (Pose x y z rx ry rz) /\
  (exists Q : Mat, RelTool P x y z rx ry rz = Ok Q /\ is_4x4 Q) /\
  (isHomogeneous P = Ok true ->
   Offset P x y z rx ry rz = Mat_mul (Pose x y z rx ry rz) P /\
   exists Q : Mat, Offset P x y z rx ry rz = Ok Q /\ is_4x4 Q) /\
  (isHomogeneous P = Ok false ->
   Offset P x y z rx ry rz = Raise (MatrixError PoseNotHomogeneous)).
Proof.
  intros HP.
  destruct (is_4x4_inv P HP)
    as (a00 & a01 & a02 & a03 & a10 & a11 & a12 & a13 &
        a20 & a21 & a22 & a23 & a30 & a31 & a32 & a33 & ->).
  assert (Hrel : RelTool [[a00; a01; a02; a03]; [a10; a11; a12; a13];
                          [a20; a21; a22; a23]; [a30; a31; a32; a33]] x y z rx ry rz
                 = Mat_mul [[a00; a01; a02; a03]; [a10; a11; a12; a13];
                            [a20; a21; a22; a23]; [a30; a31; a32; a33]]
                     (Pose x y z rx ry rz)).
  { pose_eval. mat_entries; ring. }
  split; [exact Hrel |]. split.
  { rewrite Hrel. pose_eval. eexists. split; [reflexivity |].
    apply is_4x4_intro. }
  split.
  - intros Hhom. unfold Offset. rewrite Hhom. cbn [rbind negb].
    assert (Hoff : (do t <- Mat_mul (transl x y z) (rotx (rx * pi / 180.0));
                    do t <- Mat_mul t (roty (ry * pi / 180.0));
                    do t <- Mat_mul t (rotz (rz * pi / 180.0));
                    do new_target <- Mat_mul t [[a00; a01; a02; a03]; [a10; a11; a12; a13];
                                                [a20; a21; a22; a23]; [a30; a31; a32; a33]];
                    Ok new_target)
                   = Mat_mul (Pose x y z rx ry rz)
                       [[a00; a01; a02; a03]; [a10; a11; a12; a13];
                        [a20; a21; a22; a23]; [a30; a31; a32; a33]]).
    { pose_eval. replace 180.0 with 180 by lra. mat_entries; ring. }
    split; [exact Hoff |]. rewrite Hoff.
    pose_eval. eexists. split; [reflexivity |]. apply is_4x4_intro.
  - intros Hhom. unfold Offset. rewrite Hhom. reflexivity.
Qed.

Lemma RelTool_Offset_witness :
  RelTool eye4 10 20 30 0 0 90 = Mat_mul eye4 (Pose 10 20 30 0 0 90).
Proof.
  refine (proj1 (RelTool_Offset eye4 10 20 30 0 0 90 _)).
  apply is_4x4_intro.
Defined.

(** ** Round trips of the controller formats *)

(** [Pose_2_KUKA] computes what [pose_2_xyzrpw] computes and lists the
    three angles in the reverse order. *)
Lemma Pose_2_KUKA_reverses (H : Mat) :
  Pose_2_KUKA H = do l <- pose_2_xyzrpw H;
                  match l with
                  | [x; y; z; r; p; w] => Ok [x; y; z; w; p; r]
                  | _ => Raise ValueError
                  end.
Proof.
  unfold Pose_2_KUKA, pose_2_xyzrpw.
  destruct (Rgt_dec _ _); [reflexivity |].
  destruct (Rlt_dec _ _); [reflexivity |].
  destruct (py_sqrt _); reflexivity.
Qed.

Lemma KUKA_2_Pose_as_xyzrpw (x y z a b c : R) :
  KUKA_2_Pose [x; y; z; a; b; c] = xyzrpw_2_pose [x; y; z; c; b; a].
Proof.
  pose_unfold. mat_eval. decimals. replace 180.0 with 180 by lra.
  mat_entries; ring.
Qed.

(** KUKA: [Pose_2_KUKA(KUKA_2_Pose([x, y, z, a, b, c]))] returns
    [x, y, z, a, b, c] when [a] and [c] are in (-180, 180], [b] in
    (-90, 90) and [sin b] is off the two gimbal-lock bands. *)
Theorem KUKA_roundtrip (x y z a b c : R) :
  -180 < a <= 180 -> -90 < b < 90 -> -180 < c <= 180 ->
  -1 + 1e-10 <= sin (b * PI / 180) <= 1 - 1e-10 ->
  exists H, KUKA_2_Pose [x; y; z; a; b; c] = Ok H /\
            Pose_2_KUKA H = Ok [x; y; z; a; b; c].
Proof.
  intros Ha Hb Hc Hband.
  destruct (xyzrpw_roundtrip_exact x y z c b a Hc Hb Ha Hband) as (H & HH & Hback).
  exists H. split.
  - rewrite <- HH. apply KUKA_2_Pose_as_xyzrpw.
  - rewrite Pose_2_KUKA_reverses, Hback. reflexivity.
Qed.

Lemma KUKA_roundtrip_witness :
  exists H, KUKA_2_Pose [10; 20; 30; 90; 0; 45] = Ok H /\
            Pose_2_KUKA H = Ok [10; 20; 30; 90; 0; 45].
Proof.
  apply (KUKA_roundtrip 10 20 30 90 0 45); try lra.
  replace (0 * PI / 180) with 0 by lra. rewrite sin_0. lra.
Defined.



(** Staubli: [Pose_2_Staubli(Pose(x, y, z, rx, ry, rz))] returns
    [x, y, z, rx, ry, rz], in degrees, for [rx] and [rz] in (-180, 180],
    [ry] in (-90, 90) and [sin ry] off the two gimbal-lock bands. *)
Theorem Staubli_roundtrip (x y z rx ry rz : R) :
  -180 < rx <= 180 -> -90 < ry < 90 -> -180 < rz <= 180 ->
  -1 + 1e-10 <= sin (ry * PI / 180) <= 1 - 1e-10 ->
  Pose_2_Staubli (Pose x y z rx ry rz) = Ok [x; y; z; rx; ry; rz].
Proof.
  intros Hrx Hry Hrz Hband. pose proof PI_RGT_0 as Hpi.
  destruct (TxyzRxyz_roundtrip_exact x y z (rx * PI / 180) (ry * PI / 180) (rz * PI / 180))
    as (H & HH & Hback); try (split; nra); try assumption.
  assert (HP : H = Pose x y z rx ry rz).
  { change (TxyzRxyz_2_Pose [x; y; z; rx * PI / 180; ry * PI / 180; rz * PI / 180])
      with (Ok (Pose x y z rx ry rz)) in HH.
    injection HH as <-. reflexivity. }
  subst H. unfold Pose_2_Staubli. rewrite Hback. unfold list_get, list_set, pi.
  cbn [rbind lookup list_lookup length Nat.ltb Nat.leb insert list_insert].
  replace 180.0 with 180 by lra.
  repeat f_equal; field; lra.
Qed.

Lemma Staubli_roundtrip_witness :
  Pose_2_Staubli (Pose 10 20 30 90 0 45) = Ok [10; 20; 30; 90; 0; 45].
Proof.
  apply (Staubli_roundtrip 10 20 30 90 0 45); try lra.
  replace (0 * PI / 180) with 0 by lra. rewrite sin_0. lra.
Defined.

(** ** Adept and Comau: Euler angles Z, Y, Z *)




(** ** Joint encoders and link angles *)

Lemma run_list_getitem (s : Store.store) (l : Store.ref) (xs : list R) (i : nat) :
  s !! l = Some (Store.OList xs) ->
  Store.list_getitem l i s = match list_get xs i with
                             | Ok v => Ok (v, s)
                             | Raise e => Raise e
                             end.
Proof.
  intros Hs. unfold Store.list_getitem, Store.load_list, Store.load, Store.bind,
    Store.ret, Store.lift, list_get.
  rewrite Hs. destruct (xs !! i); reflexivity.
Qed.

Lemma run_list_setitem (s : Store.store) (l : Store.ref) (xs : list R) (i : nat) (v : R) :
  s !! l = Some (Store.OList xs) ->
  Store.list_setitem l i v s = match list_set xs i v with
                               | Ok xs' => Ok (tt, <[l := Store.OList xs']> s)
                               | Raise e => Raise e
                               end.
Proof.
  intros Hs. unfold Store.list_setitem, Store.load_list, Store.load, Store.bind,
    Store.ret, Store.lift, Store.put, list_set.
  rewrite Hs.
  assert (Hl : (l < length s)%nat) by (apply lookup_lt_is_Some; eauto).
  destruct (i <? length xs)%nat; [| reflexivity].
  apply Nat.ltb_lt in Hl. rewrite Hl. reflexivity.
Qed.

(** A sequence of reads and writes of the list that [l] names. *)
Ltac joints_step :=
  match goal with
  | Hs : ?s !! ?l = Some (Store.OList ?xs)
    |- context [Store.bind (Store.list_getitem ?l ?i) ?k ?s] =>
      change (Store.bind (Store.list_getitem l i) k s)
        with (match Store.list_getitem l i s with
              | Ok (a, s') => k a s'
              | Raise e => Raise e
              end);
      rewrite (run_list_getitem s l xs i Hs);
      destruct (list_get xs i); cbn [rbind]; [| reflexivity]
  | Hs : ?s !! ?l = Some (Store.OList ?xs)
    |- context [Store.bind (Store.list_setitem ?l ?i ?v) ?k ?s] =>
      change (Store.bind (Store.list_setitem l i v) k s)
        with (match Store.list_setitem l i v s with
              | Ok (a, s') => k a s'
              | Raise e => Raise e
              end);
      rewrite (run_list_setitem s l xs i v Hs);
      let xs' := fresh "xs" in
      let Hs' := fresh "Hs" in
      destruct (list_set xs i v) as [xs' |]; cbn [rbind]; [| reflexivity];
      assert (Hs' : <[l := Store.OList xs']> s !! l = Some (Store.OList xs'))
        by (apply list_lookup_insert_eq; apply lookup_lt_is_Some; eauto);
      clear Hs
  end.

Lemma store_joints_2_angles_run (s : Store.store) (jin : Store.ref) (j : list R) (type : Z) :
  s !! jin = Some (Store.OList j) ->
  StoreJoints.joints_2_angles jin type s
  = match joints_2_angles j type with
    | Ok j' => Ok (jin, <[jin := Store.OList j']> s)
    | Raise e => Raise e
    end.
Proof.
  intros Hs. unfold StoreJoints.joints_2_angles, joints_2_angles. cbv zeta.
  assert (Hid : <[jin := Store.OList j]> s = s) by (apply list_insert_id; exact Hs).
  destruct (type =? 2)%Z;
    [repeat joints_step; unfold Store.ret; rewrite ?list_insert_insert_eq; reflexivity |].
  destruct (type =? 3)%Z;
    [repeat joints_step; unfold Store.ret; rewrite ?list_insert_insert_eq; reflexivity |].
  destruct (type =? 4)%Z;
    [repeat joints_step; unfold Store.ret; rewrite ?list_insert_insert_eq; reflexivity |].
  destruct (type =? 11)%Z;
    [repeat joints_step; unfold Store.ret; rewrite ?list_insert_insert_eq; reflexivity |].
  unfold Store.ret. rewrite Hid. reflexivity.
Qed.

Lemma store_angles_2_joints_run (s : Store.store) (jin : Store.ref) (j : list R) (type : Z) :
  s !! jin = Some (Store.OList j) ->
  StoreJoints.angles_2_joints jin type s
  = match angles_2_joints j type with
    | Ok j' => Ok (jin, <[jin := Store.OList j']> s)
    | Raise e => Raise e
    end.
Proof.
  intros Hs. unfold StoreJoints.angles_2_joints, angles_2_joints. cbv zeta.
  assert (Hid : <[jin := Store.OList j]> s = s) by (apply list_insert_id; exact Hs).
  destruct (type =? 2)%Z;
    [repeat joints_step; unfold Store.ret; rewrite ?list_insert_insert_eq; reflexivity |].
  destruct (type =? 3)%Z;
    [repeat joints_step; unfold Store.ret; rewrite ?list_insert_insert_eq; reflexivity |].
  destruct (type =? 11)%Z;
    [repeat joints_step; unfold Store.ret; rewrite ?list_insert_insert_eq; reflexivity |].
  unfold Store.ret. rewrite Hid. reflexivity.
Qed.

Lemma joints_2_angles_value (type : Z) (j0 j1 j2 j3 j4 j5 : R) (rest : list R) :
  joints_2_angles ([j0; j1; j2; j3; j4; j5] ++ rest) type
  = Ok (joints_out type j0 j1 j2 j3 j4 j5 rest).
Proof.
  unfold joints_2_angles, joints_out.
  destruct (type =? 2)%Z; [reflexivity |].
  destruct (type =? 3)%Z; [reflexivity |].
  destruct (type =? 4)%Z; [reflexivity |].
  destruct (type =? 11)%Z; reflexivity.
Qed.

Lemma angles_2_joints_value (type : Z) (j0 j1 j2 j3 j4 j5 : R) (rest : list R) :
  angles_2_joints ([j0; j1; j2; j3; j4; j5] ++ rest) type
  = Ok (if (type =? 4)%Z then [j0; j1; j2; j3; j4; j5] ++ rest
        else joints_out type j0 j1 j2 j3 j4 j5 rest).
Proof.
  unfold angles_2_joints, joints_out.
  destruct (type =? 2)%Z eqn:E2; [apply Z.eqb_eq in E2; subst; reflexivity |].
  destruct (type =? 3)%Z eqn:E3; [apply Z.eqb_eq in E3; subst; reflexivity |].
  destruct (type =? 4)%Z eqn:E4; [apply Z.eqb_eq in E4; subst; reflexivity |].
  destruct (type =? 11)%Z; reflexivity.
Qed.

(** [joints_2_angles] returns the list it was given, not a new one: after
    the call the caller's list holds the converted values (for type 2:
    [j2] becomes [-j1 - j2] and [j3], [j4], [j5] change sign; type 3: signs
    of [j2] to [j5]; type 4: [j2] becomes [j1 + j2]; type 11: [j2] becomes
    [-j1 - j2] and [j0], [j3], [j5] change sign; any other type: nothing).
    Types 2, 3 and 11 read up to index 5 and raise [IndexError] on a
    shorter list. *)
Theorem joints_2_angles_in_place
    (s : Store.store) (jin : Store.ref) (type : Z) (j0 j1 j2 j3 j4 j5 : R) (rest : list R) :
  s !! jin = Some (Store.OList ([j0; j1; j2; j3; j4; j5] ++ rest)) ->
  StoreJoints.joints_2_angles jin type s
  = Ok (jin, <[jin := Store.OList
                        (if (type =? 2)%Z then [j0; j1; - j1 - j2; - j3; - j4; - j5] ++ rest
                         else if (type =? 3)%Z then [j0; j1; - j2; - j3; - j4; - j5] ++ rest
                         else if (type =? 4)%Z then [j0; j1; j1 + j2; j3; j4; j5] ++ rest
                         else if (type =? 11)%Z
                              then [- j0; j1; - j1 - j2; - j3; j4; - j5] ++ rest
                         else [j0; j1; j2; j3; j4; j5] ++ rest)]> s) /\
  (forall short : list R, (length short < 6)%nat ->
     (type = 2 \/ type = 3 \/ type = 11)%Z ->
     joints_2_angles short type = Raise IndexError).
Proof.
  intros Hs. split.
  - rewrite (store_joints_2_angles_run s jin _ type Hs), joints_2_angles_value.
    reflexivity.
  - intros short Hlen Htype.
    destruct short as [| a0 [| a1 [| a2 [| a3 [| a4 [| a5 [| a6 l]]]]]]];
      cbn [length] in Hlen; try lia;
      destruct Htype as [-> | [-> | ->]]; reflexivity.
Qed.

Lemma joints_2_angles_in_place_witness :
  StoreJoints.joints_2_angles 0%nat 2 [Store.OList [10; 20; 30; 40; 50; 60]]
  = Ok (0%nat, [Store.OList [10; 20; - 20 - 30; - 40; - 50; - 60]]).
Proof.
  refine (proj1 (joints_2_angles_in_place [Store.OList [10; 20; 30; 40; 50; 60]]
                   0%nat 2 10 20 30 40 50 60 [] _)).
  reflexivity.
Defined.

(** Converting joints to angles and back on the same list restores it for
    every type but 4: [angles_2_joints] has no case for type 4, so [j2]
    stays at [j1 + j2]. *)
Theorem joints_angles_roundtrip
    (s : Store.store) (jin : Store.ref) (type : Z) (j0 j1 j2 j3 j4 j5 : R) (rest : list R) :
  s !! jin = Some (Store.OList ([j0; j1; j2; j3; j4; j5] ++ rest)) ->
  (type <> 4%Z ->
   Store.bind (StoreJoints.joints_2_angles jin type)
     (fun angles => StoreJoints.angles_2_joints angles type) s = Ok (jin, s)) /\
  (type = 4%Z ->
   Store.bind (StoreJoints.joints_2_angles jin type)
     (fun angles => StoreJoints.angles_2_joints angles type) s
   = Ok (jin, <[jin := Store.OList ([j0; j1; j1 + j2; j3; j4; j5] ++ rest)]> s)).
Proof.
  intros Hs.
  assert (Hl : (jin < length s)%nat) by (apply lookup_lt_is_Some; eauto).
  assert (Hid : <[jin := Store.OList ([j0; j1; j2; j3; j4; j5] ++ rest)]> s = s)
    by (apply list_insert_id; exact Hs).
  unfold Store.bind.
  rewrite (store_joints_2_angles_run s jin _ type Hs), joints_2_angles_value.
  set (out := joints_out type j0 j1 j2 j3 j4 j5 rest).
  assert (Hs' : <[jin := Store.OList out]> s !! jin = Some (Store.OList out))
    by (apply list_lookup_insert_eq; exact Hl).
  rewrite (store_angles_2_joints_run _ jin out type Hs').
  unfold out, joints_out.
  split.
  - intros Hne.
    destruct (type =? 2)%Z eqn:E2.
    { apply Z.eqb_eq in E2. subst type. cbn in Hid |- *.
      rewrite list_insert_insert_eq, ?Ropp_involutive.
      try replace (- j1 - (- j1 - j2)) with j2 by lra.
      rewrite Hid. reflexivity. }
    destruct (type =? 3)%Z eqn:E3.
    { apply Z.eqb_eq in E3. subst type. cbn in Hid |- *.
      rewrite list_insert_insert_eq, ?Ropp_involutive.
      try replace (- j1 - (- j1 - j2)) with j2 by lra.
      rewrite Hid. reflexivity. }
    destruct (type =? 4)%Z eqn:E4.
    { apply Z.eqb_eq in E4. contradiction. }
    destruct (type =? 11)%Z eqn:E11.
    { apply Z.eqb_eq in E11. subst type. cbn in Hid |- *.
      rewrite list_insert_insert_eq, ?Ropp_involutive.
      try replace (- j1 - (- j1 - j2)) with j2 by lra.
      rewrite Hid. reflexivity. }
    rewrite angles_2_joints_value, E4. unfold joints_out. rewrite E2, E3, E4, E11.
    rewrite list_insert_insert_eq, Hid. reflexivity.
  - intros ->. cbn. rewrite list_insert_insert_eq. reflexivity.
Qed.

Lemma joints_angles_roundtrip_witness :
  Store.bind (StoreJoints.joints_2_angles 0%nat 2)
    (fun angles => StoreJoints.angles_2_joints angles 2)
    [Store.OList [10; 20; 30; 40; 50; 60]]
  = Ok (0%nat, [Store.OList [10; 20; 30; 40; 50; 60]]).
Proof.
  refine (proj1 (joints_angles_roundtrip [Store.OList [10; 20; 30; 40; 50; 60]]
                   0%nat 2 10 20 30 40 50 60 [] _) _).
  - reflexivity.
  - discriminate.
Defined.

(** ** Rotations about one axis *)

Lemma sin_cos_unit (t : R) : sin t * sin t + cos t * cos t = 1.
Proof. pose proof (sin2_cos2 t) as H. unfold Rsqr in H. exact H. Qed.

Lemma rigid_pose_rotx (t : R) : rigid_pose (rotx t).
Proof.
  pose proof (sin_cos_unit t). unfold rotx. mat_eval.
  apply rigid_pose_intro; nra.
Qed.

Lemma rigid_pose_roty (t : R) : rigid_pose (roty t).
Proof.
  pose proof (sin_cos_unit t). unfold roty. mat_eval.
  apply rigid_pose_intro; nra.
Qed.

Lemma rigid_pose_rotz (t : R) : rigid_pose (rotz t).
Proof.
  pose proof (sin_cos_unit t). unfold rotz. mat_eval.
  apply rigid_pose_intro; nra.
Qed.

(** [rotx], [roty] and [rotz] return exact rigid poses; rotations about
    the same axis multiply by adding their angles, the rotation by [0] is
    the identity, and [invH] of a rotation is the rotation by the opposite
    angle. *)
Theorem rot_one_axis (a b : R) :
  (rigid_pose (rotx a) /\ rigid_pose (roty a) /\ rigid_pose (rotz a)) /\
  (Mat_mul (rotx a) (rotx b) = Ok (rotx (a + b)) /\
   Mat_mul (roty a) (roty b) = Ok (roty (a + b)) /\
   Mat_mul (rotz a) (rotz b) = Ok (rotz (a + b))) /\
  (rotx 0 = eye4 /\ roty 0 = eye4 /\ rotz 0 = eye4) /\
  (invH (rotx a) = Ok (rotx (- a)) /\
   invH (roty a) = Ok (roty (- a)) /\
   invH (rotz a) = Ok (rotz (- a))).
Proof.
  pose proof (sin_cos_unit a) as Ha.
  split; [| split; [| split]].
  - split; [apply rigid_pose_rotx | split; [apply rigid_pose_roty | apply rigid_pose_rotz]].
  - repeat split; pose_unfold; mat_eval; rewrite cos_plus, sin_plus;
      mat_entries; ring.
  - repeat split; pose_unfold; mat_eval; rewrite cos_0, sin_0;
      mat_entries; ring.
  - repeat split; pose_unfold; mat_eval;
      (rewrite invH_exact by (apply defect_rows_zero; nra));
      rewrite cos_neg, sin_neg; mat_entries; ring.
Qed.

(** ** Poses under multiplication *)

Section ProductPose.
Variables a00 a01 a02 a03 a10 a11 a12 a13 a20 a21 a22 a23 : R.
Variables b00 b01 b02 b03 b10 b11 b12 b13 b20 b21 b22 b23 : R.
Hypothesis A00 : a00 * a00 + a01 * a01 + a02 * a02 = 1.
Hypothesis A11 : a10 * a10 + a11 * a11 + a12 * a12 = 1.
Hypothesis A22 : a20 * a20 + a21 * a21 + a22 * a22 = 1.
Hypothesis A01 : a00 * a10 + a01 * a11 + a02 * a12 = 0.
Hypothesis A02 : a00 * a20 + a01 * a21 + a02 * a22 = 0.
Hypothesis A12 : a10 * a20 + a11 * a21 + a12 * a22 = 0.
Hypothesis Adet :
  a00 * (a11 * a22 - a12 * a21) - a01 * (a10 * a22 - a12 * a20)
  + a02 * (a10 * a21 - a11 * a20) = 1.
Hypothesis B00 : b00 * b00 + b01 * b01 + b02 * b02 = 1.
Hypothesis B11 : b10 * b10 + b11 * b11 + b12 * b12 = 1.
Hypothesis B22 : b20 * b20 + b21 * b21 + b22 * b22 = 1.
Hypothesis B01 : b00 * b10 + b01 * b11 + b02 * b12 = 0.
Hypothesis B02 : b00 * b20 + b01 * b21 + b02 * b22 = 0.
Hypothesis B12 : b10 * b20 + b11 * b21 + b12 * b22 = 0.
Hypothesis Bdet :
  b00 * (b11 * b22 - b12 * b21) - b01 * (b10 * b22 - b12 * b20)
  + b02 * (b10 * b21 - b11 * b20) = 1.

(** [A * B], entry by entry. *)
Let c (i j : nat) : R :=
  pick3 i (a00 * pick3 j b00 b01 b02 + a01 * pick3 j b10 b11 b12 + a02 * pick3 j b20 b21 b22)
          (a10 * pick3 j b00 b01 b02 + a11 * pick3 j b10 b11 b12 + a12 * pick3 j b20 b21 b22)
          (a20 * pick3 j b00 b01 b02 + a21 * pick3 j b10 b11 b12 + a22 * pick3 j b20 b21 b22).

Lemma product_pose_rigid (x y z : R) :
  rigid_pose [[c 0 0; c 0 1; c 0 2; x]; [c 1 0; c 1 1; c 1 2; y];
              [c 2 0; c 2 1; c 2 2; z]; [0; 0; 0; 1]].
Proof.
  apply rigid_pose_intro; unfold c; cbn [pick3].
  - nsatz.
  - nsatz.
  - nsatz.
  - nsatz.
  - nsatz.
  - nsatz.
  - transitivity
      ((a00 * (a11 * a22 - a12 * a21) - a01 * (a10 * a22 - a12 * a20)
        + a02 * (a10 * a21 - a11 * a20))
       * (b00 * (b11 * b22 - b12 * b21) - b01 * (b10 * b22 - b12 * b20)
          + b02 * (b10 * b21 - b11 * b20))); [ring |].
    rewrite Adet, Bdet. ring.
Qed.

Lemma inverse_pose_rigid (x y z : R) :
  rigid_pose [[a00; a10; a20; x]; [a01; a11; a21; y]; [a02; a12; a22; z]; [0; 0; 0; 1]].
Proof.
  apply rigid_pose_intro.
  - exact (col_00 _ _ _ _ _ _ _ _ _ A00 A11 A22 A01 A02 A12).
  - exact (col_11 _ _ _ _ _ _ _ _ _ A00 A11 A22 A01 A02 A12).
  - exact (col_22 _ _ _ _ _ _ _ _ _ A00 A11 A22 A01 A02 A12).
  - exact (col_01 _ _ _ _ _ _ _ _ _ A00 A11 A22 A01 A02 A12).
  - exact (col_02 _ _ _ _ _ _ _ _ _ A00 A11 A22 A01 A02 A12).
  - exact (col_12 _ _ _ _ _ _ _ _ _ A00 A11 A22 A01 A02 A12).
  - rewrite <- Adet. ring.
Qed.
End ProductPose.

Lemma Mat_mul_rigid (A B : Mat) :
  rigid_pose A -> rigid_pose B -> exists C : Mat, Mat_mul A B = Ok C /\ rigid_pose C.
Proof.
  intros H1 H2.
  destruct (rigid_pose_inv A H1)
    as (a00 & a01 & a02 & a03 & a10 & a11 & a12 & a13 & a20 & a21 & a22 & a23 &
        -> & A00 & A11 & A22 & A01 & A02 & A12 & Adet).
  destruct (rigid_pose_inv B H2)
    as (b00 & b01 & b02 & b03 & b10 & b11 & b12 & b13 & b20 & b21 & b22 & b23 &
        -> & B00 & B11 & B22 & B01 & B02 & B12 & Bdet).
  eexists. split; [mat_eval; reflexivity |].
  match goal with
  | |- rigid_pose [[_; _; _; ?x]; [_; _; _; ?y]; [_; _; _; ?z]; _] =>
      pose proof (product_pose_rigid a00 a01 a02 a10 a11 a12 a20 a21 a22
                    b00 b01 b02 b10 b11 b12 b20 b21 b22
                    A00 A11 A22 A01 A02 A12 Adet B00 B11 B22 B01 B02 B12 Bdet x y z)
        as Hrigid
  end.
  cbn [pick3] in Hrigid.
  match type of Hrigid with
  | rigid_pose ?D => match goal with
                     | |- rigid_pose ?E => replace E with D; [exact Hrigid |]
                     end
  end.
  mat_entries; ring.
Qed.

Lemma invH_rigid (A : Mat) :
  rigid_pose A -> exists Ainv : Mat, invH A = Ok Ainv /\ rigid_pose Ainv.
Proof.
  intros H1.
  destruct (rigid_pose_inv A H1)
    as (a00 & a01 & a02 & a03 & a10 & a11 & a12 & a13 & a20 & a21 & a22 & a23 &
        -> & A00 & A11 & A22 & A01 & A02 & A12 & Adet).
  eexists. split; [apply invH_exact; apply defect_rows_zero; assumption |].
  apply inverse_pose_rigid; assumption.
Qed.

(** Exact rigid poses are closed under [*] and [invH]: the product of two
    is one, and so is the inverse of one. *)
Theorem rigid_poses_closed (A B : Mat) :
  rigid_pose A -> rigid_pose B ->
  (exists C : Mat, Mat_mul A B = Ok C /\ rigid_pose C) /\
  (exists Ainv : Mat, invH A = Ok Ainv /\ rigid_pose Ainv).
Proof.
  intros H1 H2. split; [apply Mat_mul_rigid; assumption | apply invH_rigid; assumption].
Qed.

Lemma rigid_poses_closed_witness :
  exists C : Mat, Mat_mul (rotx 1) (transl 10 20 30) = Ok C /\ rigid_pose C.
Proof.
  refine (proj1 (rigid_poses_closed (rotx 1) (transl 10 20 30) _ _)).
  - apply rigid_pose_rotx.
  - apply rigid_pose_transl.
Defined.

(** On 4x4 matrices [*] is associative and the identity [eye(4)] is
    neutral on both sides; it is not commutative (a translation and a
    rotation in the two orders differ). *)
Theorem Mat_mul_4x4_monoid (A B C : Mat) :
  is_4x4 A -> is_4x4 B -> is_4x4 C ->
  (exists AB : Mat, Mat_mul A B = Ok AB /\ is_4x4 AB) /\
  (do t <- Mat_mul A B; Mat_mul t C) = (do t <- Mat_mul B C; Mat_mul A t) /\
  Mat_mul eye4 A = Ok A /\ Mat_mul A eye4 = Ok A /\
  Mat_mul (transl 1 0 0) (rotz PI) <> Mat_mul (rotz PI) (transl 1 0 0).
Proof.
  intros HA HB HC.
  destruct (is_4x4_inv A HA)
    as (a00 & a01 & a02 & a03 & a10 & a11 & a12 & a13 &
        a20 & a21 & a22 & a23 & a30 & a31 & a32 & a33 & ->).
  destruct (is_4x4_inv B HB)
    as (b00 & b01 & b02 & b03 & b10 & b11 & b12 & b13 &
        b20 & b21 & b22 & b23 & b30 & b31 & b32 & b33 & ->).
  destruct (is_4x4_inv C HC)
    as (c00 & c01 & c02 & c03 & c10 & c11 & c12 & c13 &
        c20 & c21 & c22 & c23 & c30 & c31 & c32 & c33 & ->).
  split; [| split; [| split; [| split]]].
  - mat_eval. eexists. split; [reflexivity | apply is_4x4_intro].
  - mat_eval. mat_entries; ring.
  - mat_eval. mat_entries; ring.
  - mat_eval. mat_entries; ring.
  - pose_unfold. mat_eval. rewrite cos_PI, sin_PI. intros Heq.
    injection Heq as Heq. lra.
Qed.

Lemma Mat_mul_4x4_monoid_witness :
  Mat_mul eye4 (transl 10 20 30) = Ok (transl 10 20 30).
Proof.
  refine (proj1 (proj2 (proj2 (Mat_mul_4x4_monoid (transl 10 20 30) eye4 eye4 _ _ _))));
    apply is_4x4_intro.
Defined.

(** ** Vectors of three numbers *)

Lemma sum_sq_zero (x y z : R) : x * x + y * y + z * z = 0 -> x = 0 /\ y = 0 /\ z = 0.
Proof. intros H. repeat split; nra. Qed.

Lemma sum_sq_pos (x y z : R) : ~ (x = 0 /\ y = 0 /\ z = 0) -> 0 < x * x + y * y + z * z.
Proof.
  intros Hne. pose proof (sum_sq_nonneg x y z) as Hge.
  destruct (Req_dec (x * x + y * y + z * z) 0) as [H0 | H0]; [| lra].
  exfalso. apply Hne. apply sum_sq_zero. exact H0.
Qed.

Lemma normalize3_value (x y z : R) :
  0 < x * x + y * y + z * z ->
  normalize3 [x; y; z]
  = Ok [x * (1 / sqrt (x * x + y * y + z * z));
        y * (1 / sqrt (x * x + y * y + z * z));
        z * (1 / sqrt (x * x + y * y + z * z))].
Proof.
  intros Hpos. unfold normalize3. rewrite norm_3. cbn [rbind].
  assert (Hs : 0 < sqrt (x * x + y * y + z * z)) by (apply sqrt_lt_R0; exact Hpos).
  rewrite py_div_nonzero by lra. cbn [rbind elt nth].
  replace 1.0 with 1 by lra. reflexivity.
Qed.

Lemma normalize3_zero : normalize3 [0; 0; 0] = Raise ZeroDivisionError.
Proof.
  unfold normalize3. rewrite norm_3. cbn [rbind].
  replace (0 * 0 + 0 * 0 + 0 * 0) with 0 by ring. rewrite sqrt_0.
  unfold py_div. destruct (Req_dec_T 0 0) as [_ | Hn]; [reflexivity | contradiction Hn; reflexivity].
Qed.

(** [cross(a, b)] is orthogonal to both arguments, changes sign when they
    are exchanged, vanishes on [cross(a, a)], and its squared length is
    [|a|^2 |b|^2 - (a . b)^2]. *)
Theorem cross_orthogonal (a0 a1 a2 b0 b1 b2 : R) :
  let a := [a0; a1; a2] in
  let b := [b0; b1; b2] in
  dot a (cross a b) = 0 /\
  dot b (cross a b) = 0 /\
  cross b a = mult3 (cross a b) (-1) /\
  cross a a = [0; 0; 0] /\
  dot (cross a b) (cross a b) = dot a a * dot b b - dot a b * dot a b.
Proof.
  cbv zeta. unfold dot, cross, mult3. cbn [elt nth].
  repeat split; try ring; repeat f_equal; ring.
Qed.

(** [normalize3] of a vector other than zero returns a vector of norm 1
    that is the argument divided by its norm, and which [normalize3]
    returns unchanged; on the zero vector it raises [ZeroDivisionError]. *)
Theorem normalize3_unit (x y z : R) :
  (~ (x = 0 /\ y = 0 /\ z = 0) ->
   exists u : list R,
     normalize3 [x; y; z] = Ok u /\
     length u = 3%nat /\
     norm u = Ok 1 /\
     [x; y; z] = mult3 u (sqrt (x * x + y * y + z * z)) /\
     normalize3 u = Ok u) /\
  normalize3 [0; 0; 0] = Raise ZeroDivisionError.
Proof.
  split; [| exact normalize3_zero].
  intros Hne. pose proof (sum_sq_pos x y z Hne) as Hpos.
  eexists. split; [apply normalize3_value; exact Hpos |].
  remember (x * x + y * y + z * z) as ss eqn:Hss.
  assert (Hs : 0 < sqrt ss) by (apply sqrt_lt_R0; exact Hpos).
  assert (Hsq : sqrt ss * sqrt ss = ss) by (apply sqrt_sqrt; lra).
  assert (Hone : x * (1 / sqrt ss) * (x * (1 / sqrt ss))
                 + y * (1 / sqrt ss) * (y * (1 / sqrt ss))
                 + z * (1 / sqrt ss) * (z * (1 / sqrt ss)) = 1).
  { replace (x * (1 / sqrt ss) * (x * (1 / sqrt ss))
             + y * (1 / sqrt ss) * (y * (1 / sqrt ss))
             + z * (1 / sqrt ss) * (z * (1 / sqrt ss)))
      with ((x * x + y * y + z * z) / (sqrt ss * sqrt ss)) by (field; lra).
    rewrite <- Hss, Hsq. field. lra. }
  split; [reflexivity |]. split; [| split].
  - rewrite norm_3, Hone, sqrt_1. reflexivity.
  - unfold mult3. cbn [elt nth]. mat_entries; field; lra.
  - rewrite normalize3_value by (rewrite Hone; lra).
    rewrite Hone, sqrt_1. mat_entries; field; lra.
Qed.

Lemma normalize3_unit_witness :
  exists u : list R, normalize3 [3; 0; 4] = Ok u /\ norm u = Ok 1.
Proof.
  destruct (proj1 (normalize3_unit 3 0 4)) as (u & Hu & _ & Hn & _).
  - intros (H3 & _). lra.
  - exists u. auto.
Defined.

(** ** Projections *)

Lemma distance_value (a0 a1 a2 b0 b1 b2 : R) :
  distance [a0; a1; a2] [b0; b1; b2]
  = Ok (sqrt ((a0 - b0) * (a0 - b0) + (a1 - b1) * (a1 - b1) + (a2 - b2) * (a2 - b2))).
Proof. unfold distance, subs3. cbn [elt nth]. apply norm_3. Qed.

(** [proj_pt_2_line(point, paxe, vaxe)] with a direction other than zero
    returns a point of the line through [paxe] along [vaxe]; the segment
    from it to [point] is orthogonal to the direction; projecting it again
    returns it; and no point of the line is closer to [point].  With the
    zero direction the call raises [ZeroDivisionError]. *)
Theorem proj_pt_2_line_closest (p0 p1 p2 a0 a1 a2 v0 v1 v2 : R) :
  let point := [p0; p1; p2] in
  let paxe := [a0; a1; a2] in
  let vaxe := [v0; v1; v2] in
  (~ (v0 = 0 /\ v1 = 0 /\ v2 = 0) ->
   exists (q : list R) (k d : R),
     proj_pt_2_line point paxe vaxe = Ok q /\
     q = add3 paxe (mult3 vaxe k) /\
     dot vaxe (subs3 point q) = 0 /\
     proj_pt_2_line q paxe vaxe = Ok q /\
     distance point q = Ok d /\
     forall t : R, exists d' : R,
       distance point (add3 paxe (mult3 vaxe t)) = Ok d' /\ d <= d') /\
  proj_pt_2_line point paxe [0; 0; 0] = Raise ZeroDivisionError.
Proof.
  cbv zeta. split.
  - intros Hne. pose proof (sum_sq_pos v0 v1 v2 Hne) as Hvv.
    set (vv := v0 * v0 + v1 * v1 + v2 * v2) in *.
    set (k := (v0 * (p0 - a0) + v1 * (p1 - a1) + v2 * (p2 - a2)) / vv).
    assert (Hk : k * vv = v0 * (p0 - a0) + v1 * (p1 - a1) + v2 * (p2 - a2))
      by (unfold k; field; lra).
    assert (Hq : proj_pt_2_line [p0; p1; p2] [a0; a1; a2] [v0; v1; v2]
                 = Ok [a0 + v0 * k; a1 + v1 * k; a2 + v2 * k]).
    { unfold proj_pt_2_line, dot, subs3, add3, mult3. cbn [elt nth].
      fold vv. rewrite py_div_nonzero by lra. reflexivity. }
    exists [a0 + v0 * k; a1 + v1 * k; a2 + v2 * k], k. eexists.
    split; [exact Hq |]. split; [reflexivity |]. split; [| split; [| split]].
    + unfold dot, subs3. cbn [elt nth]. unfold vv in Hk. nra.
    + unfold proj_pt_2_line, dot, subs3, add3, mult3. cbn [elt nth].
      fold vv. rewrite py_div_nonzero by lra. cbn [rbind].
      replace ((v0 * (a0 + v0 * k - a0) + v1 * (a1 + v1 * k - a1)
                + v2 * (a2 + v2 * k - a2)) / vv) with k
        by (unfold vv; field; fold vv; lra).
      reflexivity.
    + apply distance_value.
    + intros t. unfold add3, mult3. cbn [elt nth]. eexists.
      split; [apply distance_value |].
      apply sqrt_le_1_alt.
      assert (Hdiff :
        (p0 - (a0 + v0 * t)) * (p0 - (a0 + v0 * t))
        + (p1 - (a1 + v1 * t)) * (p1 - (a1 + v1 * t))
        + (p2 - (a2 + v2 * t)) * (p2 - (a2 + v2 * t))
        - ((p0 - (a0 + v0 * k)) * (p0 - (a0 + v0 * k))
           + (p1 - (a1 + v1 * k)) * (p1 - (a1 + v1 * k))
           + (p2 - (a2 + v2 * k)) * (p2 - (a2 + v2 * k)))
        = (t - k) * (t - k) * vv).
      { transitivity ((t * t - k * k) * vv
                      - 2 * (t - k) * (v0 * (p0 - a0) + v1 * (p1 - a1) + v2 * (p2 - a2)));
          [unfold vv; ring |].
        rewrite <- Hk. ring. }
      pose proof (Rle_0_sqr (t - k)) as Hsq. unfold Rsqr in Hsq.
      assert (0 <= (t - k) * (t - k) * vv) by (apply Rmult_le_pos; lra).
      lra.
  - unfold proj_pt_2_line, dot. cbn [elt nth].
    replace (0 * 0 + 0 * 0 + 0 * 0) with 0 by ring.
    unfold py_div. destruct (Req_dec_T 0 0) as [_ | Hn]; [reflexivity | contradiction Hn; reflexivity].
Qed.

Lemma proj_pt_2_line_closest_witness :
  exists q : list R, proj_pt_2_line [1; 2; 3] [0; 0; 0] [1; 0; 0] = Ok q.
Proof.
  destruct (proj1 (proj_pt_2_line_closest 1 2 3 0 0 0 1 0 0)) as (q & k & d & Hq & _).
  - intros (H1 & _). lra.
  - exists q. exact Hq.
Defined.

(** [intersect_line_2_plane(pline, vline, pplane, vplane)], when the line
    direction is not orthogonal to the plane normal, returns the point of
    the line that lies in the plane, and that point is the only one.  When
    the direction is orthogonal to the normal the call raises
    [ZeroDivisionError], also for a line inside the plane. *)
Theorem intersect_line_2_plane_meets (l0 l1 l2 v0 v1 v2 p0 p1 p2 n0 n1 n2 : R) :
  let pline := [l0; l1; l2] in
  let vline := [v0; v1; v2] in
  let pplane := [p0; p1; p2] in
  let vplane := [n0; n1; n2] in
  (dot vplane vline <> 0 ->
   exists (p : list R) (k : R),
     intersect_line_2_plane pline vline pplane vplane = Ok p /\
     p = add3 pline (mult3 vline k) /\
     dot vplane (subs3 p pplane) = 0 /\
     forall t : R, dot vplane (subs3 (add3 pline (mult3 vline t)) pplane) = 0 -> t = k) /\
  (dot vplane vline = 0 ->
   intersect_line_2_plane pline vline pplane vplane = Raise ZeroDivisionError).
Proof.
  cbv zeta. unfold intersect_line_2_plane, dot, subs3, add3, mult3. cbn [elt nth].
  split.
  - intros Hne. rewrite py_div_nonzero by exact Hne. cbn [rbind].
    set (nv := n0 * v0 + n1 * v1 + n2 * v2) in *.
    set (k := - (- (n0 * p0 + n1 * p1 + n2 * p2) + (n0 * l0 + n1 * l1 + n2 * l2)) / nv).
    assert (Hk : k * nv = (n0 * p0 + n1 * p1 + n2 * p2) - (n0 * l0 + n1 * l1 + n2 * l2))
      by (unfold k; field; exact Hne).
    exists [l0 + v0 * k; l1 + v1 * k; l2 + v2 * k], k.
    split; [reflexivity |]. split; [reflexivity |]. split.
    + cbn [elt nth]. unfold nv in Hk. nra.
    + intros t Ht.
      assert (Hd : (t - k) * nv = 0) by (unfold nv in *; nra).
      apply Rmult_integral in Hd. destruct Hd as [Hd | Hd]; [lra | contradiction].
  - intros H0. unfold py_div.
    destruct (Req_dec_T _ 0) as [_ | Hn]; [reflexivity | contradiction].
Qed.

Lemma intersect_line_2_plane_meets_witness :
  exists p : list R, intersect_line_2_plane [0; 0; 5] [0; 0; 1] [0; 0; 0] [0; 0; 1] = Ok p.
Proof.
  destruct (proj1 (intersect_line_2_plane_meets 0 0 5 0 0 1 0 0 0 0 0 1)) as (p & k & Hp & _).
  - unfold dot. cbn [elt nth]. lra.
  - exists p. exact Hp.
Defined.

(** [proj_pt_2_plane(point, planepoint, planeABC)] with a normal other
    than zero returns a point of the plane, reached from [point] along the
    normal; projecting it again returns it; no point of the plane is closer
    to [point].  With the zero normal the call raises
    [ZeroDivisionError]. *)
Theorem proj_pt_2_plane_closest (x0 x1 x2 p0 p1 p2 n0 n1 n2 : R) :
  let point := [x0; x1; x2] in
  let planepoint := [p0; p1; p2] in
  let planeABC := [n0; n1; n2] in
  (~ (n0 = 0 /\ n1 = 0 /\ n2 = 0) ->
   exists (q : list R) (k d : R),
     proj_pt_2_plane point planepoint planeABC = Ok q /\
     q = add3 point (mult3 planeABC k) /\
     dot planeABC (subs3 q planepoint) = 0 /\
     proj_pt_2_plane q planepoint planeABC = Ok q /\
     distance point q = Ok d /\
     forall r0 r1 r2 : R,
       dot planeABC (subs3 [r0; r1; r2] planepoint) = 0 ->
       exists d' : R, distance point [r0; r1; r2] = Ok d' /\ d <= d') /\
  proj_pt_2_plane point planepoint [0; 0; 0] = Raise ZeroDivisionError.
Proof.
  cbv zeta. split.
  - intros Hne. pose proof (sum_sq_pos n0 n1 n2 Hne) as Hnn.
    set (nn := n0 * n0 + n1 * n1 + n2 * n2) in *.
    set (k := - (- (n0 * p0 + n1 * p1 + n2 * p2) + (n0 * x0 + n1 * x1 + n2 * x2)) / nn).
    assert (Hk : k * nn = (n0 * p0 + n1 * p1 + n2 * p2) - (n0 * x0 + n1 * x1 + n2 * x2))
      by (unfold k; field; lra).
    assert (Hq : proj_pt_2_plane [x0; x1; x2] [p0; p1; p2] [n0; n1; n2]
                 = Ok [x0 + n0 * k; x1 + n1 * k; x2 + n2 * k]).
    { unfold proj_pt_2_plane, intersect_line_2_plane, dot, subs3, add3, mult3.
      cbn [elt nth]. fold nn. rewrite py_div_nonzero by lra. reflexivity. }
    assert (Hin : n0 * (x0 + n0 * k - p0) + n1 * (x1 + n1 * k - p1)
                  + n2 * (x2 + n2 * k - p2) = 0) by (unfold nn in Hk; nra).
    exists [x0 + n0 * k; x1 + n1 * k; x2 + n2 * k], k. eexists.
    split; [exact Hq |]. split; [reflexivity |]. split; [| split; [| split]].
    + unfold dot, subs3. cbn [elt nth]. exact Hin.
    + unfold proj_pt_2_plane, intersect_line_2_plane, dot, subs3, add3, mult3.
      cbn [elt nth]. fold nn. rewrite py_div_nonzero by lra. cbn [rbind].
      replace (- (- (n0 * p0 + n1 * p1 + n2 * p2)
                  + (n0 * (x0 + n0 * k) + n1 * (x1 + n1 * k) + n2 * (x2 + n2 * k))) / nn)
        with 0 by (field_simplify_eq; [lra | lra]).
      mat_entries; ring.
    + apply distance_value.
    + intros r0 r1 r2 Hr. unfold dot, subs3 in Hr. cbn [elt nth] in Hr.
      eexists. split; [apply distance_value |].
      apply sqrt_le_1_alt.
      assert (Hdiff :
        (x0 - r0) * (x0 - r0) + (x1 - r1) * (x1 - r1) + (x2 - r2) * (x2 - r2)
        - ((x0 - (x0 + n0 * k)) * (x0 - (x0 + n0 * k))
           + (x1 - (x1 + n1 * k)) * (x1 - (x1 + n1 * k))
           + (x2 - (x2 + n2 * k)) * (x2 - (x2 + n2 * k)))
        = (x0 + n0 * k - r0) * (x0 + n0 * k - r0)
          + (x1 + n1 * k - r1) * (x1 + n1 * k - r1)
          + (x2 + n2 * k - r2) * (x2 + n2 * k - r2)).
      { transitivity
          ((x0 + n0 * k - r0) * (x0 + n0 * k - r0)
           + (x1 + n1 * k - r1) * (x1 + n1 * k - r1)
           + (x2 + n2 * k - r2) * (x2 + n2 * k - r2)
           - 2 * k * ((n0 * (x0 + n0 * k - p0) + n1 * (x1 + n1 * k - p1)
                       + n2 * (x2 + n2 * k - p2))
                      - (n0 * (r0 - p0) + n1 * (r1 - p1) + n2 * (r2 - p2))));
          [ring |].
        rewrite Hin, Hr. ring. }
      pose proof (sum_sq_nonneg (x0 + n0 * k - r0) (x1 + n1 * k - r1) (x2 + n2 * k - r2)).
      lra.
  - unfold proj_pt_2_plane, intersect_line_2_plane, dot. cbn [elt nth].
    replace (0 * 0 + 0 * 0 + 0 * 0) with 0 by ring.
    unfold py_div. destruct (Req_dec_T 0 0) as [_ | Hn]; [reflexivity | contradiction Hn; reflexivity].
Qed.

Lemma proj_pt_2_plane_closest_witness :
  exists q : list R, proj_pt_2_plane [1; 2; 3] [0; 0; 0] [0; 0; 1] = Ok q.
Proof.
  destruct (proj1 (proj_pt_2_plane_closest 1 2 3 0 0 0 0 0 1)) as (q & k & d & Hq & _).
  - intros (_ & _ & H1). lra.
  - exists q. exact Hq.
Defined.

(** ** Angles and distances *)

Lemma clamp_id_rev (v : R) : -1 <= v <= 1 -> Rmin 1.0 (Rmax (-1.0) v) = v.
Proof.
  intros Hv. replace 1.0 with 1 by lra. replace (-1.0) with (-1) by lra.
  rewrite Rmax_right by lra. rewrite Rmin_right by lra. reflexivity.
Qed.

(** Cauchy-Schwarz in three dimensions. *)
Lemma dot_sq_le (u0 u1 u2 v0 v1 v2 : R) :
  (u0 * v0 + u1 * v1 + u2 * v2) * (u0 * v0 + u1 * v1 + u2 * v2)
  <= (u0 * u0 + u1 * u1 + u2 * u2) * (v0 * v0 + v1 * v1 + v2 * v2).
Proof.
  pose proof (sum_sq_nonneg (u1 * v2 - u2 * v1) (u2 * v0 - u0 * v2) (u0 * v1 - u1 * v0)).
  nra.
Qed.

Lemma dot_le_norms (u0 u1 u2 v0 v1 v2 : R) :
  Rabs (u0 * v0 + u1 * v1 + u2 * v2)
  <= sqrt (u0 * u0 + u1 * u1 + u2 * u2) * sqrt (v0 * v0 + v1 * v1 + v2 * v2).
Proof.
  rewrite <- sqrt_mult by apply sum_sq_nonneg.
  rewrite <- sqrt_Rsqr_abs. apply sqrt_le_1_alt. unfold Rsqr. apply dot_sq_le.
Qed.

(** The cosine that [angle3] computes, and its range. *)
Lemma angle3_value (a0 a1 a2 b0 b1 b2 : R) :
  0 < a0 * a0 + a1 * a1 + a2 * a2 -> 0 < b0 * b0 + b1 * b1 + b2 * b2 ->
  let c := (a0 * b0 + a1 * b1 + a2 * b2)
           / (sqrt (a0 * a0 + a1 * a1 + a2 * a2) * sqrt (b0 * b0 + b1 * b1 + b2 * b2)) in
  -1 <= c <= 1 /\ angle3 [a0; a1; a2] [b0; b1; b2] = Ok (acos c).
Proof.
  intros Ha Hb c.
  remember (sqrt (a0 * a0 + a1 * a1 + a2 * a2)) as sa eqn:Hsa.
  remember (sqrt (b0 * b0 + b1 * b1 + b2 * b2)) as sb eqn:Hsb.
  assert (Hsa0 : 0 < sa) by (subst sa; apply sqrt_lt_R0; exact Ha).
  assert (Hsb0 : 0 < sb) by (subst sb; apply sqrt_lt_R0; exact Hb).
  pose proof (dot_le_norms a0 a1 a2 b0 b1 b2) as Hcs. rewrite <- Hsa, <- Hsb in Hcs.
  assert (Hprod : 0 < sa * sb) by (apply Rmult_lt_0_compat; assumption).
  assert (Hc : -1 <= c <= 1).
  { apply Rabs_le_iff in Hcs. unfold c.
    split.
    - apply Rmult_le_reg_r with (sa * sb); [exact Hprod |].
      replace ((a0 * b0 + a1 * b1 + a2 * b2) / (sa * sb) * (sa * sb))
        with (a0 * b0 + a1 * b1 + a2 * b2) by (field; lra).
      lra.
    - apply Rmult_le_reg_r with (sa * sb); [exact Hprod |].
      replace ((a0 * b0 + a1 * b1 + a2 * b2) / (sa * sb) * (sa * sb))
        with (a0 * b0 + a1 * b1 + a2 * b2) by (field; lra).
      lra. }
  split; [exact Hc |].
  unfold angle3. rewrite !normalize3_value by assumption. cbn [rbind].
  rewrite <- Hsa, <- Hsb. unfold dot. cbn [elt nth].
  replace (a0 * (1 / sa) * (b0 * (1 / sb)) + a1 * (1 / sa) * (b1 * (1 / sb))
           + a2 * (1 / sa) * (b2 * (1 / sb))) with c by (unfold c; field; lra).
  rewrite clamp_id_rev by exact Hc. apply py_acos_in_range. exact Hc.
Qed.

(** [angle3(a, b)] of two vectors other than zero returns an angle in
    [0, pi] whose cosine is [a . b / (|a| |b|)]; it is the same for
    [(b, a)], and [angle3(a, a)] is 0.  If either vector is zero the call
    raises [ZeroDivisionError]. *)
Theorem angle3_range (a0 a1 a2 b0 b1 b2 : R) :
  let a := [a0; a1; a2] in
  let b := [b0; b1; b2] in
  (~ (a0 = 0 /\ a1 = 0 /\ a2 = 0) -> ~ (b0 = 0 /\ b1 = 0 /\ b2 = 0) ->
   exists theta : R,
     angle3 a b = Ok theta /\
     0 <= theta <= PI /\
     cos theta * (sqrt (dot a a) * sqrt (dot b b)) = dot a b /\
     angle3 b a = Ok theta /\
     angle3 a a = Ok 0) /\
  angle3 [0; 0; 0] b = Raise ZeroDivisionError /\
  (~ (a0 = 0 /\ a1 = 0 /\ a2 = 0) -> angle3 a [0; 0; 0] = Raise ZeroDivisionError).
Proof.
  cbv zeta. split; [| split].
  - intros Ha Hb.
    pose proof (sum_sq_pos a0 a1 a2 Ha) as Hpa.
    pose proof (sum_sq_pos b0 b1 b2 Hb) as Hpb.
    destruct (angle3_value a0 a1 a2 b0 b1 b2 Hpa Hpb) as [Hc Hab].
    destruct (angle3_value b0 b1 b2 a0 a1 a2 Hpb Hpa) as [_ Hba].
    destruct (angle3_value a0 a1 a2 a0 a1 a2 Hpa Hpa) as [_ Haa].
    cbv zeta in *.
    eexists. split; [exact Hab |]. split; [apply acos_bound |].
    assert (Hsa0 : 0 < sqrt (a0 * a0 + a1 * a1 + a2 * a2)) by (apply sqrt_lt_R0; exact Hpa).
    assert (Hsb0 : 0 < sqrt (b0 * b0 + b1 * b1 + b2 * b2)) by (apply sqrt_lt_R0; exact Hpb).
    split; [| split].
    + rewrite cos_acos by exact Hc. unfold dot. cbn [elt nth]. field. lra.
    + rewrite Hba. do 2 f_equal.
      rewrite (Rmult_comm (sqrt (b0 * b0 + b1 * b1 + b2 * b2))). f_equal. ring.
    + rewrite Haa. do 2 f_equal.
      rewrite sqrt_sqrt by lra. rewrite <- acos_1. f_equal. field. lra.
  - unfold angle3. rewrite normalize3_zero. reflexivity.
  - intros Ha. unfold angle3.
    rewrite normalize3_value by (apply sum_sq_pos; exact Ha).
    cbn [rbind]. rewrite normalize3_zero. reflexivity.
Qed.

Lemma angle3_range_witness :
  exists theta : R, angle3 [1; 0; 0] [0; 1; 0] = Ok theta /\ 0 <= theta <= PI.
Proof.
  destruct (proj1 (angle3_range 1 0 0 0 1 0)) as (theta & Ht & Hr & _).
  - intros (H1 & _). lra.
  - intros (_ & H1 & _). lra.
  - exists theta. auto.
Defined.

(** [distance] is a metric on points: never negative, zero exactly
    between equal points, the same in both directions, and it satisfies
    the triangle inequality. *)
Theorem distance_metric (a0 a1 a2 b0 b1 b2 c0 c1 c2 : R) :
  exists dab dba dbc dac : R,
    distance [a0; a1; a2] [b0; b1; b2] = Ok dab /\
    distance [b0; b1; b2] [a0; a1; a2] = Ok dba /\
    distance [b0; b1; b2] [c0; c1; c2] = Ok dbc /\
    distance [a0; a1; a2] [c0; c1; c2] = Ok dac /\
    0 <= dab /\
    dab = dba /\
    (dab = 0 <-> (a0 = b0 /\ a1 = b1 /\ a2 = b2)) /\
    dac <= dab + dbc.
Proof.
  eexists _, _, _, _.
  split; [apply distance_value |]. split; [apply distance_value |].
  split; [apply distance_value |]. split; [apply distance_value |].
  split; [apply sqrt_pos |]. split; [f_equal; ring |]. split.
  - split.
    + intros H0. apply sqrt_eq_0 in H0; [| apply sum_sq_nonneg].
      apply sum_sq_zero in H0. lra.
    + intros (-> & -> & ->).
      replace ((b0 - b0) * (b0 - b0) + (b1 - b1) * (b1 - b1) + (b2 - b2) * (b2 - b2))
        with 0 by ring.
      apply sqrt_0.
  - set (u0 := a0 - b0). set (u1 := a1 - b1). set (u2 := a2 - b2).
    set (v0 := b0 - c0). set (v1 := b1 - c1). set (v2 := b2 - c2).
    replace (a0 - c0) with (u0 + v0) by (unfold u0, v0; ring).
    replace (a1 - c1) with (u1 + v1) by (unfold u1, v1; ring).
    replace (a2 - c2) with (u2 + v2) by (unfold u2, v2; ring).
    pose proof (dot_le_norms u0 u1 u2 v0 v1 v2) as Hcs.
    apply Rabs_le_iff in Hcs.
    pose proof (sqrt_pos (u0 * u0 + u1 * u1 + u2 * u2)) as Hu.
    pose proof (sqrt_pos (v0 * v0 + v1 * v1 + v2 * v2)) as Hv.
    pose proof (sqrt_sqrt _ (sum_sq_nonneg u0 u1 u2)) as Huu.
    pose proof (sqrt_sqrt _ (sum_sq_nonneg v0 v1 v2)) as Hvv.
    set (su := sqrt (u0 * u0 + u1 * u1 + u2 * u2)) in *.
    set (sv := sqrt (v0 * v0 + v1 * v1 + v2 * v2)) in *.
    rewrite <- (sqrt_square (su + sv)) by lra.
    apply sqrt_le_1_alt.
    clearbody su sv u0 u1 u2 v0 v1 v2. nra.
Qed.

(** ** The angle of a pose and the equality of poses *)

Lemma py_acos_clamped (v : R) :
  py_acos (Rmin (Rmax v (-1)) 1) = Ok (acos (Rmin (Rmax v (-1)) 1)).
Proof.
  apply py_acos_in_range.
  destruct (clamp_cases v) as [[_ ->] | [[H ->] | [_ ->]]]; lra.
Qed.

Lemma acos_cos_abs (t : R) : - PI <= t <= PI -> acos (cos t) = Rabs t.
Proof.
  intros Ht. unfold Rabs. destruct (Rcase_abs t) as [Hneg | Hpos].
  - rewrite <- cos_neg. apply acos_cos. lra.
  - apply acos_cos. lra.
Qed.

(** [pose_angle] of a rotation by [t] about one axis is [|t|], for [t] in
    [-pi, pi]; a translation has angle 0. *)
Theorem pose_angle_one_axis (t x y z : R) :
  - PI <= t <= PI ->
  pose_angle (rotx t) = Ok (Rabs t) /\
  pose_angle (roty t) = Ok (Rabs t) /\
  pose_angle (rotz t) = Ok (Rabs t) /\
  pose_angle (transl x y z) = Ok 0.
Proof.
  intros Ht. pose proof (COS_bound t) as Hc.
  unfold pose_angle, rotx, roty, rotz, transl. mat_eval.
  replace ((1 + cos t + cos t - 1) / 2) with (cos t) by field.
  replace ((cos t + 1 + cos t - 1) / 2) with (cos t) by field.
  replace ((cos t + cos t + 1 - 1) / 2) with (cos t) by field.
  replace ((1 + 1 + 1 - 1) / 2) with 1 by field.
  rewrite (clamp_id (cos t)) by lra. rewrite (clamp_id 1) by lra.
  rewrite !py_acos_in_range by lra.
  rewrite acos_cos_abs by exact Ht. rewrite acos_1. auto.
Qed.

Lemma pose_angle_one_axis_witness : pose_angle (rotz (-1)) = Ok (Rabs (-1)).
Proof.
  refine (proj1 (proj2 (proj2 (pose_angle_one_axis (-1) 0 0 0 _)))).
  pose proof PI_RGT_0. pose proof PI2_1. lra.
Defined.

(** The angle between two exact poses: the trace of [A^T B] decides. *)
Lemma pose_angle_between_exact
    (a00 a01 a02 a03 a10 a11 a12 a13 a20 a21 a22 a23 : R)
    (b00 b01 b02 b03 b10 b11 b12 b13 b20 b21 b22 b23 b30 b31 b32 b33 : R) :
  defect a00 a01 a02 a10 a11 a12 a20 a21 a22 = 0 ->
  b30 = 0 -> b31 = 0 -> b32 = 0 ->
  pose_angle_between
    [[a00; a01; a02; a03]; [a10; a11; a12; a13]; [a20; a21; a22; a23]; [0; 0; 0; 1]]
    [[b00; b01; b02; b03]; [b10; b11; b12; b13]; [b20; b21; b22; b23]; [b30; b31; b32; b33]]
  = Ok (acos (Rmin (Rmax ((a00 * b00 + a10 * b10 + a20 * b20
                           + (a01 * b01 + a11 * b11 + a21 * b21)
                           + (a02 * b02 + a12 * b12 + a22 * b22) - 1) / 2) (-1)) 1)).
Proof.
  intros Hd -> -> ->. unfold pose_angle_between.
  rewrite invH_exact by exact Hd. cbn [rbind].
  rewrite Mat_mul_4x4_entries. cbn [rbind]. unfold pose_angle. cbn [item nth].
  rewrite py_acos_clamped. do 4 f_equal. field.
Qed.

(** [pose_angle_between] of two exact poses does not depend on their
    order, and is 0 between a pose and itself. *)
Theorem pose_angle_between_symmetric (A B : Mat) :
  exact_pose A -> exact_pose B ->
  exists theta : R,
    pose_angle_between A B = Ok theta /\
    pose_angle_between B A = Ok theta /\
    0 <= theta <= PI /\
    pose_angle_between A A = Ok 0.
Proof.
  intros HA HB.
  destruct (exact_pose_inv A HA)
    as (a00 & a01 & a02 & a03 & a10 & a11 & a12 & a13 & a20 & a21 & a22 & a23 &
        -> & A00 & A11 & A22 & A01 & A02 & A12).
  destruct (exact_pose_inv B HB)
    as (b00 & b01 & b02 & b03 & b10 & b11 & b12 & b13 & b20 & b21 & b22 & b23 &
        -> & B00 & B11 & B22 & B01 & B02 & B12).
  pose proof (defect_rows_zero _ _ _ _ _ _ _ _ _ A00 A11 A22 A01 A02 A12) as HdA.
  pose proof (defect_rows_zero _ _ _ _ _ _ _ _ _ B00 B11 B22 B01 B02 B12) as HdB.
  eexists. split; [apply pose_angle_between_exact; auto |].
  split; [| split].
  - rewrite pose_angle_between_exact by auto. do 4 f_equal. field.
  - apply acos_bound.
  - rewrite pose_angle_between_exact by auto.
    pose proof (col_00 _ _ _ _ _ _ _ _ _ A00 A11 A22 A01 A02 A12) as C00.
    pose proof (col_11 _ _ _ _ _ _ _ _ _ A00 A11 A22 A01 A02 A12) as C11.
    pose proof (col_22 _ _ _ _ _ _ _ _ _ A00 A11 A22 A01 A02 A12) as C22.
    rewrite C00, C11, C22. replace ((1 + 1 + 1 - 1) / 2) with 1 by field.
    rewrite (clamp_id 1) by lra. rewrite acos_1. reflexivity.
Qed.

Lemma pose_angle_between_symmetric_witness :
  exists theta : R,
    pose_angle_between (rotx 1) (transl 1 2 3) = Ok theta /\
    pose_angle_between (transl 1 2 3) (rotx 1) = Ok theta.
Proof.
  destruct (pose_angle_between_symmetric (rotx 1) (transl 1 2 3))
    as (theta & H1 & H2 & _).
  - apply rigid_pose_rotx.
  - apply rigid_pose_transl.
  - exists theta. auto.
Defined.

(** ** [==] on matrices *)

(** [pose_is_similar] on two exact poses: the distance of the positions
    plus the angle between the poses, in degrees, against the tolerance. *)
Lemma pose_is_similar_exact
    (a00 a01 a02 a03 a10 a11 a12 a13 a20 a21 a22 a23 : R)
    (b00 b01 b02 b03 b10 b11 b12 b13 b20 b21 b22 b23 b33 : R) (tolerance : R) :
  defect a00 a01 a02 a10 a11 a12 a20 a21 a22 = 0 ->
  pose_is_similar
    [[a00; a01; a02; a03]; [a10; a11; a12; a13]; [a20; a21; a22; a23]; [0; 0; 0; 1]]
    [[b00; b01; b02; b03]; [b10; b11; b12; b13]; [b20; b21; b22; b23]; [0; 0; 0; b33]]
    tolerance
  = Ok (if Rlt_dec
             (sqrt ((a03 - b03) * (a03 - b03) + (a13 - b13) * (a13 - b13)
                    + (a23 - b23) * (a23 - b23))
              + acos (Rmin (Rmax ((a00 * b00 + a10 * b10 + a20 * b20
                                   + (a01 * b01 + a11 * b11 + a21 * b21)
                                   + (a02 * b02 + a12 * b12 + a22 * b22) - 1) / 2) (-1)) 1)
                * 180 / pi)
             tolerance
        then true else false).
Proof.
  intros Hd. unfold pose_is_similar.
  rewrite !Pos_4x4 by apply is_4x4_intro. cbn [rbind item nth].
  rewrite distance_value. cbn [rbind].
  rewrite pose_angle_between_exact by auto. cbn [rbind].
  destruct (Rlt_dec _ _); reflexivity.
Qed.

(** [M == N] is [pose_is_similar(N, M)] with tolerance 0.1, not equality
    of the entries.  [M == None] is false.  On exact poses it returns a
    truth value that does not depend on the order of the operands, it is
    true between a pose and itself, and [!=] is its negation.  When the
    right operand is a 4x4 matrix that does not pass [isHomogeneous] the
    comparison raises instead of returning false, while with an exact pose
    on the right and any 4x4 matrix on the left it returns a truth value. *)
Theorem Mat_eq_is_similarity (A B : Mat) :
  Mat_eq A None = Ok false /\
  (exact_pose A -> exact_pose B ->
   exists e : bool,
     Mat_eq A (Some B) = Ok e /\
     Mat_eq B (Some A) = Ok e /\
     Mat_ne A (Some B) = Ok (negb e) /\
     Mat_eq A (Some A) = Ok true) /\
  (is_4x4 A -> is_4x4 B -> isHomogeneous B = Ok false ->
   Mat_eq A (Some B) = Raise (MatrixError PoseNotHomogeneous)) /\
  (is_4x4 A -> exact_pose B -> exists e : bool, Mat_eq A (Some B) = Ok e).
Proof.
  split; [reflexivity |]. split; [| split].
  - intros HA HB.
    destruct (exact_pose_inv A HA)
      as (a00 & a01 & a02 & a03 & a10 & a11 & a12 & a13 & a20 & a21 & a22 & a23 &
          -> & A00 & A11 & A22 & A01 & A02 & A12).
    destruct (exact_pose_inv B HB)
      as (b00 & b01 & b02 & b03 & b10 & b11 & b12 & b13 & b20 & b21 & b22 & b23 &
          -> & B00 & B11 & B22 & B01 & B02 & B12).
    pose proof (defect_rows_zero _ _ _ _ _ _ _ _ _ A00 A11 A22 A01 A02 A12) as HdA.
    pose proof (defect_rows_zero _ _ _ _ _ _ _ _ _ B00 B11 B22 B01 B02 B12) as HdB.
    unfold Mat_ne, Mat_eq. rewrite !pose_is_similar_exact by assumption.
    eexists. split; [reflexivity |]. split; [| split].
    + f_equal.
      match goal with
      | |- (if Rlt_dec ?u _ then _ else _) = (if Rlt_dec ?v _ then _ else _) =>
          replace u with v; [reflexivity |]
      end.
      f_equal; [f_equal; ring |]. do 5 f_equal. field.
    + reflexivity.
    + pose proof (col_00 _ _ _ _ _ _ _ _ _ A00 A11 A22 A01 A02 A12) as C00.
      pose proof (col_11 _ _ _ _ _ _ _ _ _ A00 A11 A22 A01 A02 A12) as C11.
      pose proof (col_22 _ _ _ _ _ _ _ _ _ A00 A11 A22 A01 A02 A12) as C22.
      rewrite C00, C11, C22. replace ((1 + 1 + 1 - 1) / 2) with 1 by field.
      rewrite (clamp_id 1) by lra. rewrite acos_1.
      replace ((a03 - a03) * (a03 - a03) + (a13 - a13) * (a13 - a13)
               + (a23 - a23) * (a23 - a23)) with 0 by ring.
      rewrite sqrt_0. unfold pi.
      destruct (Rlt_dec _ _) as [_ | Hn]; [reflexivity |].
      exfalso. apply Hn. replace (0 + 0 * 180 / PI) with 0 by (field; apply PI_neq0). lra.
  - intros HA HB Hhom. unfold Mat_eq, pose_is_similar.
    rewrite !Pos_4x4 by assumption. cbn [rbind].
    rewrite distance_value. cbn [rbind].
    unfold pose_angle_between, invH. rewrite Hhom. reflexivity.
  - intros HA HB.
    destruct (is_4x4_inv A HA)
      as (a00 & a01 & a02 & a03 & a10 & a11 & a12 & a13 &
          a20 & a21 & a22 & a23 & a30 & a31 & a32 & a33 & ->).
    destruct (exact_pose_inv B HB)
      as (b00 & b01 & b02 & b03 & b10 & b11 & b12 & b13 & b20 & b21 & b22 & b23 &
          -> & B00 & B11 & B22 & B01 & B02 & B12).
    unfold Mat_eq, pose_is_similar.
    rewrite !Pos_4x4 by apply is_4x4_intro. cbn [rbind item nth].
    rewrite distance_value. cbn [rbind].
    unfold pose_angle_between.
    rewrite invH_exact by (apply defect_rows_zero; assumption). cbn [rbind].
    rewrite Mat_mul_4x4_entries. cbn [rbind]. unfold pose_angle.
    rewrite py_acos_clamped. cbn [rbind].
    destruct (Rlt_dec _ _); eexists; reflexivity.
Qed.

Lemma Mat_eq_is_similarity_witness : Mat_eq eye4 (Some eye4) = Ok true.
Proof.
  destruct (proj1 (proj2 (Mat_eq_is_similarity eye4 eye4)))
    as (e & _ & _ & _ & Hrefl); try apply rigid_pose_eye4.
  exact Hrefl.
Defined.

(** Two translations are [==] exactly when their positions are less than
    0.1 apart.  So [==] is not transitive: a translation by 0.06 along X is
    [==] to the one by 0 and to the one by 0.12, which are not [==]. *)
Theorem Mat_eq_translations (x y z x' y' z' : R) :
  (Mat_eq (transl x y z) (Some (transl x' y' z')) = Ok true <->
   sqrt ((x' - x) * (x' - x) + (y' - y) * (y' - y) + (z' - z) * (z' - z)) < 0.1) /\
  (Mat_eq (transl x y z) (Some (transl x' y' z')) = Ok false <->
   0.1 <= sqrt ((x' - x) * (x' - x) + (y' - y) * (y' - y) + (z' - z) * (z' - z))) /\
  Mat_eq (transl 0 0 0) (Some (transl 0.06 0 0)) = Ok true /\
  Mat_eq (transl 0.06 0 0) (Some (transl 0.12 0 0)) = Ok true /\
  Mat_eq (transl 0 0 0) (Some (transl 0.12 0 0)) = Ok false.
Proof.
  assert (Hgen : forall u v w u' v' w' : R,
    Mat_eq (transl u v w) (Some (transl u' v' w'))
    = Ok (if Rlt_dec (sqrt ((u' - u) * (u' - u) + (v' - v) * (v' - v)
                            + (w' - w) * (w' - w))) 0.1
          then true else false)).
  { intros u v w u' v' w'. unfold Mat_eq, transl. cbv zeta.
    cbn [Mat_of_rows existsb length Nat.eqb negb orb].
    rewrite pose_is_similar_exact by (apply defect_rows_zero; lra).
    replace ((1 * 1 + 0 * 0 + 0 * 0 + (0 * 0 + 1 * 1 + 0 * 0) + (0 * 0 + 0 * 0 + 1 * 1) - 1) / 2)
      with 1 by field.
    rewrite (clamp_id 1) by lra. rewrite acos_1. unfold pi.
    replace (0 * 180 / PI) with 0 by (field; apply PI_neq0).
    rewrite Rplus_0_r. reflexivity. }
  assert (Hsq : forall d : R, 0 <= d -> sqrt ((d - 0) * (d - 0) + (0 - 0) * (0 - 0)
                                               + (0 - 0) * (0 - 0)) = d).
  { intros d Hd. apply sqrt_of_square; [exact Hd | ring]. }
  split; [| split; [| split; [| split]]].
  - rewrite Hgen. destruct (Rlt_dec _ _); split; intros H; try reflexivity;
      try discriminate; try assumption; contradiction.
  - rewrite Hgen. destruct (Rlt_dec _ _); split; intros H; try reflexivity;
      try discriminate; lra.
  - rewrite Hgen, Hsq by lra. destruct (Rlt_dec _ _); [reflexivity | lra].
  - rewrite Hgen.
    replace ((0.12 - 0.06 - 0) * (0.12 - 0.06 - 0)) with ((0.06 - 0) * (0.06 - 0)) by lra.
    replace (0.12 - 0.06) with (0.06 - 0) by lra.
    rewrite Hsq by lra. destruct (Rlt_dec _ _); [reflexivity | lra].
  - rewrite Hgen, Hsq by lra. destruct (Rlt_dec _ _); [lra | reflexivity].
Qed.

(** ** A pose times a point *)


(** [M * [x, y, z, w]] for a 4x4 matrix: the product with the column. *)
Lemma Mat_mul_list_vector
    (a00 a01 a02 a03 a10 a11 a12 a13 a20 a21 a22 a23 a30 a31 a32 a33 x y z w : R) :
  Mat_mul_list [[a00; a01; a02; a03]; [a10; a11; a12; a13];
                [a20; a21; a22; a23]; [a30; a31; a32; a33]] [x; y; z; w]
  = Ok [0 + a00 * x + a01 * y + a02 * z + a03 * w;
        0 + a10 * x + a11 * y + a12 * z + a13 * w;
        0 + a20 * x + a21 * y + a22 * z + a23 * w;
        0 + a30 * x + a31 * y + a32 * z + a33 * w].
Proof. reflexivity. Qed.

(** ** A pose from a point and an axis *)

(** Two orthogonal unit vectors and their cross product are the columns of
    a rotation. *)
Lemma frame_rigid (u0 u1 u2 v0 v1 v2 p0 p1 p2 : R) :
  u0 * u0 + u1 * u1 + u2 * u2 = 1 ->
  v0 * v0 + v1 * v1 + v2 * v2 = 1 ->
  u0 * v0 + u1 * v1 + u2 * v2 = 0 ->
  rigid_pose [[u0; v0; u1 * v2 - u2 * v1; p0];
              [u1; v1; u2 * v0 - u0 * v2; p1];
              [u2; v2; u0 * v1 - u1 * v0; p2];
              [0; 0; 0; 1]].
Proof.
  intros Hu Hv Huv. apply rigid_pose_intro; nsatz.
Qed.
(** The same with the third vector first: columns [u], [w x u], [w]. *)
Lemma frame_rigid_z (u0 u1 u2 w0 w1 w2 p0 p1 p2 : R) :
  u0 * u0 + u1 * u1 + u2 * u2 = 1 ->
  w0 * w0 + w1 * w1 + w2 * w2 = 1 ->
  u0 * w0 + u1 * w1 + u2 * w2 = 0 ->
  rigid_pose [[u0; w1 * u2 - w2 * u1; w0; p0];
              [u1; w2 * u0 - w0 * u2; w1; p1];
              [u2; w0 * u1 - w1 * u0; w2; p2];
              [0; 0; 0; 1]].
Proof.
  intros Hu Hw Huw. apply rigid_pose_intro; nsatz.
Qed.

(** [setVX], [setVY] and [setVZ] on a 4x4 matrix write the normalised
    vector into a column and leave the rest. *)
Lemma setVX_4x4
    (a00 a01 a02 a03 a10 a11 a12 a13 a20 a21 a22 a23 a30 a31 a32 a33 x y z : R) :
  0 < x * x + y * y + z * z ->
  setVX [[a00; a01; a02; a03]; [a10; a11; a12; a13];
         [a20; a21; a22; a23]; [a30; a31; a32; a33]] [x; y; z]
  = Ok [[x * (1 / sqrt (x * x + y * y + z * z)); a01; a02; a03];
        [y * (1 / sqrt (x * x + y * y + z * z)); a11; a12; a13];
        [z * (1 / sqrt (x * x + y * y + z * z)); a21; a22; a23];
        [a30; a31; a32; a33]].
Proof.
  intros Hpos. unfold setVX. rewrite normalize3_value by exact Hpos. reflexivity.
Qed.

Lemma setVY_4x4
    (a00 a01 a02 a03 a10 a11 a12 a13 a20 a21 a22 a23 a30 a31 a32 a33 x y z : R) :
  0 < x * x + y * y + z * z ->
  setVY [[a00; a01; a02; a03]; [a10; a11; a12; a13];
         [a20; a21; a22; a23]; [a30; a31; a32; a33]] [x; y; z]
  = Ok [[a00; x * (1 / sqrt (x * x + y * y + z * z)); a02; a03];
        [a10; y * (1 / sqrt (x * x + y * y + z * z)); a12; a13];
        [a20; z * (1 / sqrt (x * x + y * y + z * z)); a22; a23];
        [a30; a31; a32; a33]].
Proof.
  intros Hpos. unfold setVY. rewrite normalize3_value by exact Hpos. reflexivity.
Qed.

Lemma setVZ_4x4
    (a00 a01 a02 a03 a10 a11 a12 a13 a20 a21 a22 a23 a30 a31 a32 a33 x y z : R) :
  0 < x * x + y * y + z * z ->
  setVZ [[a00; a01; a02; a03]; [a10; a11; a12; a13];
         [a20; a21; a22; a23]; [a30; a31; a32; a33]] [x; y; z]
  = Ok [[a00; a01; x * (1 / sqrt (x * x + y * y + z * z)); a03];
        [a10; a11; y * (1 / sqrt (x * x + y * y + z * z)); a13];
        [a20; a21; z * (1 / sqrt (x * x + y * y + z * z)); a23];
        [a30; a31; a32; a33]].
Proof.
  intros Hpos. unfold setVZ. rewrite normalize3_value by exact Hpos. reflexivity.
Qed.

(** A vector divided by its norm has norm 1. *)
Lemma unit_scaled (x y z : R) :
  0 < x * x + y * y + z * z ->
  let n := 1 / sqrt (x * x + y * y + z * z) in
  (x * n) * (x * n) + (y * n) * (y * n) + (z * n) * (z * n) = 1.
Proof.
  intros Hpos n. subst n.
  remember (x * x + y * y + z * z) as ss eqn:Hss.
  assert (Hs : 0 < sqrt ss) by (apply sqrt_lt_R0; exact Hpos).
  assert (Hsq : sqrt ss * sqrt ss = ss) by (apply sqrt_sqrt; lra).
  replace (x * (1 / sqrt ss) * (x * (1 / sqrt ss)) + y * (1 / sqrt ss) * (y * (1 / sqrt ss))
           + z * (1 / sqrt ss) * (z * (1 / sqrt ss)))
    with ((x * x + y * y + z * z) / (sqrt ss * sqrt ss)) by (field; lra).
  rewrite <- Hss, Hsq. field. lra.
Qed.

(** The cross product of a vector with a unit vector orthogonal to it has
    the length of the vector, in both orders. *)
Lemma cross_unit_sq (a0 a1 a2 e0 e1 e2 : R) :
  e0 * e0 + e1 * e1 + e2 * e2 = 1 ->
  a0 * e0 + a1 * e1 + a2 * e2 = 0 ->
  (a1 * e2 - a2 * e1) * (a1 * e2 - a2 * e1)
  + (a2 * e0 - a0 * e2) * (a2 * e0 - a0 * e2)
  + (a0 * e1 - a1 * e0) * (a0 * e1 - a1 * e0)
  = a0 * a0 + a1 * a1 + a2 * a2.
Proof. intros He Hae. nsatz. Qed.
(** What [point_Xaxis_2_pose] does once the hint is chosen: the second and
    third columns are built from the axis and the hint, and the result is
    an exact rigid pose. *)
Lemma Xaxis_tail (p0 p1 p2 a0 a1 a2 h0 h1 h2 : R) :
  0 < a0 * a0 + a1 * a1 + a2 * a2 ->
  cross [h0; h1; h2] [a0; a1; a2] <> [0; 0; 0] ->
  let n := 1 / sqrt (a0 * a0 + a1 * a1 + a2 * a2) in
  exists F : Mat,
    (do yaxis <- normalize3 (cross [h0; h1; h2] [a0; a1; a2]);
     let zaxis := cross [a0; a1; a2] yaxis in
     do pose <- setVY [[a0 * n; 0; 0; p0]; [a1 * n; 1; 0; p1];
                       [a2 * n; 0; 1; p2]; [0; 0; 0; 1]] yaxis;
     do pose <- setVZ pose zaxis;
     Ok pose) = Ok F /\
    rigid_pose F /\ Pos F = Ok [p0; p1; p2] /\ VX F = Ok [a0 * n; a1 * n; a2 * n].
Proof.
  intros Ha Hc n.
  unfold cross in *. cbn [elt nth] in *.
  set (c0 := h1 * a2 - h2 * a1) in *.
  set (c1 := h2 * a0 - h0 * a2) in *.
  set (c2 := h0 * a1 - h1 * a0) in *.
  assert (Hcc : 0 < c0 * c0 + c1 * c1 + c2 * c2).
  { apply sum_sq_pos. intros (E0 & E1 & E2). apply Hc. rewrite E0, E1, E2. reflexivity. }
  rewrite normalize3_value by exact Hcc. cbn [rbind].
  set (m := 1 / sqrt (c0 * c0 + c1 * c1 + c2 * c2)).
  pose proof (unit_scaled c0 c1 c2 Hcc) as Hy. cbn zeta in Hy. fold m in Hy.
  rewrite setVY_4x4 by (rewrite Hy; lra). cbn [rbind].
  rewrite Hy, sqrt_1.
  cbn [elt nth].
  assert (Hac : a0 * (c0 * m) + a1 * (c1 * m) + a2 * (c2 * m) = 0)
    by (subst c0 c1 c2; ring).
  pose proof (cross_unit_sq a0 a1 a2 (c0 * m) (c1 * m) (c2 * m) Hy Hac) as Hz.
  rewrite setVZ_4x4 by (rewrite Hz; exact Ha). cbn [rbind].
  rewrite Hz. fold n.
  pose proof (unit_scaled a0 a1 a2 Ha) as Hu. cbn zeta in Hu. fold n in Hu.
  eexists. split; [reflexivity |].
  split; [| split; reflexivity].
  match goal with
  | |- rigid_pose ?F =>
      replace F with [[a0 * n; c0 * m; (a1 * n) * (c2 * m) - (a2 * n) * (c1 * m); p0];
                      [a1 * n; c1 * m; (a2 * n) * (c0 * m) - (a0 * n) * (c2 * m); p1];
                      [a2 * n; c2 * m; (a0 * n) * (c1 * m) - (a1 * n) * (c0 * m); p2];
                      [0; 0; 0; 1]]
        by (mat_entries; try reflexivity; field)
  end.
  apply frame_rigid; [exact Hu | exact Hy | ].
  replace (a0 * n * (c0 * m) + a1 * n * (c1 * m) + a2 * n * (c2 * m))
    with (n * (a0 * (c0 * m) + a1 * (c1 * m) + a2 * (c2 * m))) by ring.
  rewrite Hac. ring.
Qed.

(** The same for [point_Yaxis_2_pose]. *)
Lemma Yaxis_tail (p0 p1 p2 a0 a1 a2 h0 h1 h2 : R) :
  0 < a0 * a0 + a1 * a1 + a2 * a2 ->
  cross [a0; a1; a2] [h0; h1; h2] <> [0; 0; 0] ->
  let n := 1 / sqrt (a0 * a0 + a1 * a1 + a2 * a2) in
  exists F : Mat,
    (do xaxis <- normalize3 (cross [a0; a1; a2] [h0; h1; h2]);
     let zaxis := cross xaxis [a0; a1; a2] in
     do pose <- setVX [[1; a0 * n; 0; p0]; [0; a1 * n; 0; p1];
                       [0; a2 * n; 1; p2]; [0; 0; 0; 1]] xaxis;
     do pose <- setVZ pose zaxis;
     Ok pose) = Ok F /\
    rigid_pose F /\ Pos F = Ok [p0; p1; p2] /\ VY F = Ok [a0 * n; a1 * n; a2 * n].
Proof.
  intros Ha Hc n.
  unfold cross in *. cbn [elt nth] in *.
  set (c0 := a1 * h2 - a2 * h1) in *.
  set (c1 := a2 * h0 - a0 * h2) in *.
  set (c2 := a0 * h1 - a1 * h0) in *.
  assert (Hcc : 0 < c0 * c0 + c1 * c1 + c2 * c2).
  { apply sum_sq_pos. intros (E0 & E1 & E2). apply Hc. rewrite E0, E1, E2. reflexivity. }
  rewrite normalize3_value by exact Hcc. cbn [rbind].
  set (m := 1 / sqrt (c0 * c0 + c1 * c1 + c2 * c2)).
  pose proof (unit_scaled c0 c1 c2 Hcc) as Hx. cbn zeta in Hx. fold m in Hx.
  rewrite setVX_4x4 by (rewrite Hx; lra). cbn [rbind].
  rewrite Hx, sqrt_1. cbn [elt nth].
  assert (Hac : a0 * (c0 * m) + a1 * (c1 * m) + a2 * (c2 * m) = 0)
    by (subst c0 c1 c2; ring).
  pose proof (cross_unit_sq a0 a1 a2 (c0 * m) (c1 * m) (c2 * m) Hx Hac) as Hz.
  assert (Hz' : (c1 * m * a2 - c2 * m * a1) * (c1 * m * a2 - c2 * m * a1)
                + (c2 * m * a0 - c0 * m * a2) * (c2 * m * a0 - c0 * m * a2)
                + (c0 * m * a1 - c1 * m * a0) * (c0 * m * a1 - c1 * m * a0)
                = a0 * a0 + a1 * a1 + a2 * a2) by (rewrite <- Hz; ring).
  rewrite setVZ_4x4 by (rewrite Hz'; exact Ha). cbn [rbind].
  rewrite Hz'. fold n.
  pose proof (unit_scaled a0 a1 a2 Ha) as Hu. cbn zeta in Hu. fold n in Hu.
  eexists. split; [reflexivity |].
  split; [| split; reflexivity].
  match goal with
  | |- rigid_pose ?F =>
      replace F with [[c0 * m; a0 * n; (c1 * m) * (a2 * n) - (c2 * m) * (a1 * n); p0];
                      [c1 * m; a1 * n; (c2 * m) * (a0 * n) - (c0 * m) * (a2 * n); p1];
                      [c2 * m; a2 * n; (c0 * m) * (a1 * n) - (c1 * m) * (a0 * n); p2];
                      [0; 0; 0; 1]]
        by (mat_entries; try reflexivity; field)
  end.
  apply frame_rigid; [exact Hx | exact Hu | ].
  replace (c0 * m * (a0 * n) + c1 * m * (a1 * n) + c2 * m * (a2 * n))
    with (n * (a0 * (c0 * m) + a1 * (c1 * m) + a2 * (c2 * m))) by ring.
  rewrite Hac. ring.
Qed.

(** The same for [point_Zaxis_2_pose]. *)
Lemma Zaxis_tail (p0 p1 p2 a0 a1 a2 h0 h1 h2 : R) :
  0 < a0 * a0 + a1 * a1 + a2 * a2 ->
  cross [h0; h1; h2] [a0; a1; a2] <> [0; 0; 0] ->
  let n := 1 / sqrt (a0 * a0 + a1 * a1 + a2 * a2) in
  exists F : Mat,
    (do xaxis <- normalize3 (cross [h0; h1; h2] [a0; a1; a2]);
     let yaxis := cross [a0; a1; a2] xaxis in
     do pose <- setVX [[1; 0; a0 * n; p0]; [0; 1; a1 * n; p1];
                       [0; 0; a2 * n; p2]; [0; 0; 0; 1]] xaxis;
     do pose <- setVY pose yaxis;
     Ok pose) = Ok F /\
    rigid_pose F /\ Pos F = Ok [p0; p1; p2] /\ VZ F = Ok [a0 * n; a1 * n; a2 * n].
Proof.
  intros Ha Hc n.
  unfold cross in *. cbn [elt nth] in *.
  set (c0 := h1 * a2 - h2 * a1) in *.
  set (c1 := h2 * a0 - h0 * a2) in *.
  set (c2 := h0 * a1 - h1 * a0) in *.
  assert (Hcc : 0 < c0 * c0 + c1 * c1 + c2 * c2).
  { apply sum_sq_pos. intros (E0 & E1 & E2). apply Hc. rewrite E0, E1, E2. reflexivity. }
  rewrite normalize3_value by exact Hcc. cbn [rbind].
  set (m := 1 / sqrt (c0 * c0 + c1 * c1 + c2 * c2)).
  pose proof (unit_scaled c0 c1 c2 Hcc) as Hx. cbn zeta in Hx. fold m in Hx.
  rewrite setVX_4x4 by (rewrite Hx; lra). cbn [rbind].
  rewrite Hx, sqrt_1. cbn [elt nth].
  assert (Hac : a0 * (c0 * m) + a1 * (c1 * m) + a2 * (c2 * m) = 0)
    by (subst c0 c1 c2; ring).
  pose proof (cross_unit_sq a0 a1 a2 (c0 * m) (c1 * m) (c2 * m) Hx Hac) as Hz.
  rewrite setVY_4x4 by (rewrite Hz; exact Ha). cbn [rbind].
  rewrite Hz. fold n.
  pose proof (unit_scaled a0 a1 a2 Ha) as Hu. cbn zeta in Hu. fold n in Hu.
  eexists. split; [reflexivity |].
  split; [| split; reflexivity].
  match goal with
  | |- rigid_pose ?F =>
      replace F with [[c0 * m; (a1 * n) * (c2 * m) - (a2 * n) * (c1 * m); a0 * n; p0];
                      [c1 * m; (a2 * n) * (c0 * m) - (a0 * n) * (c2 * m); a1 * n; p1];
                      [c2 * m; (a0 * n) * (c1 * m) - (a1 * n) * (c0 * m); a2 * n; p2];
                      [0; 0; 0; 1]]
        by (mat_entries; try reflexivity; field)
  end.
  apply frame_rigid_z; [exact Hx | exact Hu | ].
  replace (c0 * m * (a0 * n) + c1 * m * (a1 * n) + c2 * m * (a2 * n))
    with (n * (a0 * (c0 * m) + a1 * (c1 * m) + a2 * (c2 * m))) by ring.
  rewrite Hac. ring.
Qed.

(** Two parallel vectors make the angle 0 or pi. *)
Lemma parallel_angle (a0 a1 a2 h0 h1 h2 : R) :
  0 < a0 * a0 + a1 * a1 + a2 * a2 -> 0 < h0 * h0 + h1 * h1 + h2 * h2 ->
  cross [h0; h1; h2] [a0; a1; a2] = [0; 0; 0] ->
  let c := (a0 * h0 + a1 * h1 + a2 * h2)
           / (sqrt (a0 * a0 + a1 * a1 + a2 * a2) * sqrt (h0 * h0 + h1 * h1 + h2 * h2)) in
  acos c = 0 \/ acos c = PI.
Proof.
  intros Ha Hh Hc c. unfold cross in Hc. cbn [elt nth] in Hc.
  injection Hc as E0 E1 E2.
  remember (sqrt (a0 * a0 + a1 * a1 + a2 * a2)) as sa eqn:Hsa.
  remember (sqrt (h0 * h0 + h1 * h1 + h2 * h2)) as sh eqn:Hsh.
  assert (Hsa0 : 0 < sa) by (subst sa; apply sqrt_lt_R0; exact Ha).
  assert (Hsh0 : 0 < sh) by (subst sh; apply sqrt_lt_R0; exact Hh).
  assert (Hsa2 : sa * sa = a0 * a0 + a1 * a1 + a2 * a2) by (subst sa; apply sqrt_sqrt; lra).
  assert (Hsh2 : sh * sh = h0 * h0 + h1 * h1 + h2 * h2) by (subst sh; apply sqrt_sqrt; lra).
  assert (Hprod : 0 < sa * sh) by (apply Rmult_lt_0_compat; assumption).
  assert (Hd : (a0 * h0 + a1 * h1 + a2 * h2) * (a0 * h0 + a1 * h1 + a2 * h2)
               = (sa * sh) * (sa * sh)).
  { replace (sa * sh * (sa * sh)) with ((sa * sa) * (sh * sh)) by ring.
    rewrite Hsa2, Hsh2. nsatz. }
  assert (Hcases : a0 * h0 + a1 * h1 + a2 * h2 = sa * sh
                   \/ a0 * h0 + a1 * h1 + a2 * h2 = - (sa * sh)) by nra.
  destruct Hcases as [E | E].
  - left. subst c. rewrite E. replace (sa * sh / (sa * sh)) with 1 by (field; lra).
    apply acos_1.
  - right. subst c. rewrite E. replace (- (sa * sh) / (sa * sh)) with (- (1)) by (field; lra).
    rewrite acos_opp, acos_1. ring.
Qed.

(** The cross product vanishes in one order when it does in the other. *)
Lemma cross_swap_zero (a0 a1 a2 h0 h1 h2 : R) :
  cross [a0; a1; a2] [h0; h1; h2] = [0; 0; 0] ->
  cross [h0; h1; h2] [a0; a1; a2] = [0; 0; 0].
Proof.
  unfold cross. cbn [elt nth]. intros E. injection E as E0 E1 E2.
  mat_entries; lra.
Qed.

(** [point_Xaxis_2_pose] returns an exact rigid pose as soon as the second
    hint, when it is the one chosen, is not parallel to the axis. *)
Lemma point_Xaxis_2_pose_choice (p0 p1 p2 a0 a1 a2 h0 h1 h2 k0 k1 k2 : R) :
  0 < a0 * a0 + a1 * a1 + a2 * a2 -> 0 < h0 * h0 + h1 * h1 + h2 * h2 ->
  (let c := (a0 * h0 + a1 * h1 + a2 * h2)
            / (sqrt (a0 * a0 + a1 * a1 + a2 * a2) * sqrt (h0 * h0 + h1 * h1 + h2 * h2)) in
   Rabs (acos c) < 0.03 \/ Rabs (Rabs (acos c) - pi) < 0.03 ->
   cross [k0; k1; k2] [a0; a1; a2] <> [0; 0; 0]) ->
  let n := 1 / sqrt (a0 * a0 + a1 * a1 + a2 * a2) in
  exists F : Mat,
    point_Xaxis_2_pose [p0; p1; p2] [a0; a1; a2] [h0; h1; h2] [k0; k1; k2] = Ok F /\
    rigid_pose F /\ Pos F = Ok [p0; p1; p2] /\ VX F = Ok [a0 * n; a1 * n; a2 * n].
Proof.
  intros Ha Hh Hk n.
  destruct (angle3_value a0 a1 a2 h0 h1 h2 Ha Hh) as [_ Hang].
  pose proof (parallel_angle a0 a1 a2 h0 h1 h2 Ha Hh) as Hpar.
  cbn zeta in Hang, Hpar, Hk.
  unfold point_Xaxis_2_pose, eye. cbn [Z.eqb Pos.eqb rbind Mat_of_rows existsb length Nat.eqb negb orb].
  change (setPos [[1; 0; 0; 0]; [0; 1; 0; 0]; [0; 0; 1; 0]; [0; 0; 0; 1]] [p0; p1; p2])
    with (Ok [[1; 0; 0; p0]; [0; 1; 0; p1]; [0; 0; 1; p2]; [0; 0; 0; 1]]).
  cbn [rbind]. rewrite setVX_4x4 by exact Ha. cbn [rbind].
  rewrite Hang. cbn [rbind].
  set (ang := acos _) in *.
  assert (Hh1 : ~ (Rabs ang < 0.03 \/ Rabs (Rabs ang - pi) < 0.03) ->
                cross [h0; h1; h2] [a0; a1; a2] <> [0; 0; 0]).
  { intros Hfar E. apply Hfar. unfold pi.
    destruct (Hpar E) as [Z | Z]; rewrite Z.
    - left. rewrite Rabs_R0. lra.
    - right. pose proof PI_RGT_0. rewrite (Rabs_right PI) by lra.
      replace (PI - PI) with 0 by ring. rewrite Rabs_R0. lra. }
  destruct (Rlt_dec (Rabs ang) 0.03) as [H1 | H1];
    [| destruct (Rlt_dec (Rabs (Rabs ang - pi)) 0.03) as [H2 | H2]].
  - apply Xaxis_tail; [exact Ha | apply Hk; left; exact H1].
  - apply Xaxis_tail; [exact Ha | apply Hk; right; exact H2].
  - apply Xaxis_tail; [exact Ha | apply Hh1; tauto].
Qed.

(** [point_Yaxis_2_pose] returns an exact rigid pose as soon as the second
    hint, when it is the one chosen, is not parallel to the axis. *)
Lemma point_Yaxis_2_pose_choice (p0 p1 p2 a0 a1 a2 h0 h1 h2 k0 k1 k2 : R) :
  0 < a0 * a0 + a1 * a1 + a2 * a2 -> 0 < h0 * h0 + h1 * h1 + h2 * h2 ->
  (let c := (a0 * h0 + a1 * h1 + a2 * h2)
            / (sqrt (a0 * a0 + a1 * a1 + a2 * a2) * sqrt (h0 * h0 + h1 * h1 + h2 * h2)) in
   Rabs (acos c) < 0.03 \/ Rabs (Rabs (acos c) - pi) < 0.03 ->
   cross [a0; a1; a2] [k0; k1; k2] <> [0; 0; 0]) ->
  let n := 1 / sqrt (a0 * a0 + a1 * a1 + a2 * a2) in
  exists F : Mat,
    point_Yaxis_2_pose [p0; p1; p2] [a0; a1; a2] [h0; h1; h2] [k0; k1; k2] = Ok F /\
    rigid_pose F /\ Pos F = Ok [p0; p1; p2] /\ VY F = Ok [a0 * n; a1 * n; a2 * n].
Proof.
  intros Ha Hh Hk n.
  destruct (angle3_value a0 a1 a2 h0 h1 h2 Ha Hh) as [_ Hang].
  pose proof (parallel_angle a0 a1 a2 h0 h1 h2 Ha Hh) as Hpar.
  cbn zeta in Hang, Hpar, Hk.
  unfold point_Yaxis_2_pose, eye. cbn [Z.eqb Pos.eqb rbind Mat_of_rows existsb length Nat.eqb negb orb].
  change (setPos [[1; 0; 0; 0]; [0; 1; 0; 0]; [0; 0; 1; 0]; [0; 0; 0; 1]] [p0; p1; p2])
    with (Ok [[1; 0; 0; p0]; [0; 1; 0; p1]; [0; 0; 1; p2]; [0; 0; 0; 1]]).
  cbn [rbind]. rewrite setVY_4x4 by exact Ha. cbn [rbind].
  rewrite Hang. cbn [rbind].
  set (ang := acos _) in *.
  assert (Hh1 : ~ (Rabs ang < 0.03 \/ Rabs (Rabs ang - pi) < 0.03) ->
                cross [a0; a1; a2] [h0; h1; h2] <> [0; 0; 0]).
  { intros Hfar E. apply cross_swap_zero in E. apply Hfar. unfold pi.
    destruct (Hpar E) as [Z | Z]; rewrite Z.
    - left. rewrite Rabs_R0. lra.
    - right. pose proof PI_RGT_0. rewrite (Rabs_right PI) by lra.
      replace (PI - PI) with 0 by ring. rewrite Rabs_R0. lra. }
  destruct (Rlt_dec (Rabs ang) 0.03) as [H1 | H1];
    [| destruct (Rlt_dec (Rabs (Rabs ang - pi)) 0.03) as [H2 | H2]].
  - apply Yaxis_tail; [exact Ha | apply Hk; left; exact H1].
  - apply Yaxis_tail; [exact Ha | apply Hk; right; exact H2].
  - apply Yaxis_tail; [exact Ha | apply Hh1; tauto].
Qed.

(** [point_Zaxis_2_pose] returns an exact rigid pose as soon as the second
    hint, when it is the one chosen, is not parallel to the axis. *)
Lemma point_Zaxis_2_pose_choice (p0 p1 p2 a0 a1 a2 h0 h1 h2 k0 k1 k2 : R) :
  0 < a0 * a0 + a1 * a1 + a2 * a2 -> 0 < h0 * h0 + h1 * h1 + h2 * h2 ->
  (let c := (a0 * h0 + a1 * h1 + a2 * h2)
            / (sqrt (a0 * a0 + a1 * a1 + a2 * a2) * sqrt (h0 * h0 + h1 * h1 + h2 * h2)) in
   Rabs (acos c) < 0.03 \/ Rabs (Rabs (acos c) - pi) < 0.03 ->
   cross [k0; k1; k2] [a0; a1; a2] <> [0; 0; 0]) ->
  let n := 1 / sqrt (a0 * a0 + a1 * a1 + a2 * a2) in
  exists F : Mat,
    point_Zaxis_2_pose [p0; p1; p2] [a0; a1; a2] [h0; h1; h2] [k0; k1; k2] = Ok F /\
    rigid_pose F /\ Pos F = Ok [p0; p1; p2] /\ VZ F = Ok [a0 * n; a1 * n; a2 * n].
Proof.
  intros Ha Hh Hk n.
  destruct (angle3_value a0 a1 a2 h0 h1 h2 Ha Hh) as [_ Hang].
  pose proof (parallel_angle a0 a1 a2 h0 h1 h2 Ha Hh) as Hpar.
  cbn zeta in Hang, Hpar, Hk.
  unfold point_Zaxis_2_pose, eye. cbn [Z.eqb Pos.eqb rbind Mat_of_rows existsb length Nat.eqb negb orb].
  change (setPos [[1; 0; 0; 0]; [0; 1; 0; 0]; [0; 0; 1; 0]; [0; 0; 0; 1]] [p0; p1; p2])
    with (Ok [[1; 0; 0; p0]; [0; 1; 0; p1]; [0; 0; 1; p2]; [0; 0; 0; 1]]).
  cbn [rbind]. rewrite setVZ_4x4 by exact Ha. cbn [rbind].
  rewrite Hang. cbn [rbind].
  set (ang := acos _) in *.
  assert (Hh1 : ~ (Rabs ang < 0.03 \/ Rabs (Rabs ang - pi) < 0.03) ->
                cross [h0; h1; h2] [a0; a1; a2] <> [0; 0; 0]).
  { intros Hfar E. apply Hfar. unfold pi.
    destruct (Hpar E) as [Z | Z]; rewrite Z.
    - left. rewrite Rabs_R0. lra.
    - right. pose proof PI_RGT_0. rewrite (Rabs_right PI) by lra.
      replace (PI - PI) with 0 by ring. rewrite Rabs_R0. lra. }
  destruct (Rlt_dec (Rabs ang) 0.03) as [H1 | H1];
    [| destruct (Rlt_dec (Rabs (Rabs ang - pi)) 0.03) as [H2 | H2]].
  - apply Zaxis_tail; [exact Ha | apply Hk; left; exact H1].
  - apply Zaxis_tail; [exact Ha | apply Hk; right; exact H2].
  - apply Zaxis_tail; [exact Ha | apply Hh1; tauto].
Qed.

(** An angle between pi/4 and 3 pi/4 is not within 0.03 of 0 or of pi. *)
Lemma far_from_parallel (ang : R) :
  PI / 4 <= ang <= 3 * (PI / 4) ->
  ~ (Rabs ang < 0.03 \/ Rabs (Rabs ang - pi) < 0.03).
Proof.
  intros Hang. pose proof PI2_1. unfold pi.
  rewrite (Rabs_right ang) by lra.
  intros [Hn | Hn]; [lra |].
  apply Rabs_def2 in Hn. lra.
Qed.

(** The angle of a vector with coordinates [t, t] in a plane, measured from
    the second axis of that plane. *)
Lemma acos_diagonal (t : R) :
  t <> 0 ->
  PI / 4 <= acos (t / (sqrt (t * t + t * t) * sqrt 1)) <= 3 * (PI / 4).
Proof.
  intros Ht. pose proof PI2_1.
  assert (Hs2 : 0 < sqrt 2) by (apply sqrt_lt_R0; lra).
  replace (t * t + t * t) with (2 * Rsqr t) by (unfold Rsqr; ring).
  rewrite sqrt_mult by (try apply Rle_0_sqr; lra).
  rewrite sqrt_Rsqr_abs, sqrt_1.
  assert (Hq : acos (1 / sqrt 2) = PI / 4).
  { rewrite <- cos_PI4. apply acos_cos. lra. }
  destruct (Rle_or_lt 0 t) as [Hpos | Hneg].
  - rewrite (Rabs_right t) by lra.
    replace (t / (sqrt 2 * t * 1)) with (1 / sqrt 2) by (field; lra).
    rewrite Hq. lra.
  - rewrite (Rabs_left t) by lra.
    replace (t / (sqrt 2 * - t * 1)) with (- (1 / sqrt 2)) by (field; lra).
    rewrite acos_opp, Hq. lra.
Qed.

(** [point_Xaxis_2_pose], [point_Yaxis_2_pose] and [point_Zaxis_2_pose]
    take a point, an axis and two hints for a second axis.  For an axis
    other than zero:
    - if the first hint is not zero and the second hint is not parallel to
      the axis, each of them returns an exact rigid pose whose position is
      the point and whose X (Y, Z) column is the axis divided by its norm;
    - with the default hints of the source this holds for every such axis;
    and with the zero axis each of them raises [ZeroDivisionError]. *)
Theorem point_axis_2_pose_rigid (p0 p1 p2 a0 a1 a2 : R) :
  ~ (a0 = 0 /\ a1 = 0 /\ a2 = 0) ->
  let n := 1 / sqrt (a0 * a0 + a1 * a1 + a2 * a2) in
  let good (r : result Mat) (col : Mat -> result (list R)) :=
    exists F : Mat,
      r = Ok F /\ rigid_pose F /\ Pos F = Ok [p0; p1; p2] /\
      col F = Ok [a0 * n; a1 * n; a2 * n] in
  (forall h0 h1 h2 k0 k1 k2 : R,
     ~ (h0 = 0 /\ h1 = 0 /\ h2 = 0) ->
     cross [k0; k1; k2] [a0; a1; a2] <> [0; 0; 0] ->
     good (point_Xaxis_2_pose [p0; p1; p2] [a0; a1; a2] [h0; h1; h2] [k0; k1; k2]) VX /\
     good (point_Yaxis_2_pose [p0; p1; p2] [a0; a1; a2] [h0; h1; h2] [k0; k1; k2]) VY /\
     good (point_Zaxis_2_pose [p0; p1; p2] [a0; a1; a2] [h0; h1; h2] [k0; k1; k2]) VZ) /\
  good (point_Xaxis_2_pose [p0; p1; p2] [a0; a1; a2] [0; 0; -1] [0; -1; 0]) VX /\
  good (point_Yaxis_2_pose [p0; p1; p2] [a0; a1; a2] [0; 0; -1] [-1; 0; 0]) VY /\
  good (point_Zaxis_2_pose [p0; p1; p2] [a0; a1; a2] [0; 0; 1] [0; 1; 1]) VZ /\
  (forall h k : list R,
     point_Xaxis_2_pose [p0; p1; p2] [0; 0; 0] h k = Raise ZeroDivisionError /\
     point_Yaxis_2_pose [p0; p1; p2] [0; 0; 0] h k = Raise ZeroDivisionError /\
     point_Zaxis_2_pose [p0; p1; p2] [0; 0; 0] h k = Raise ZeroDivisionError).
Proof.
  intros Hnz n good. subst good. cbn beta.
  pose proof (sum_sq_pos a0 a1 a2 Hnz) as Ha.
  split.
  { intros h0 h1 h2 k0 k1 k2 Hh Hk.
    pose proof (sum_sq_pos h0 h1 h2 Hh) as Hh'.
    split; [| split].
    - apply point_Xaxis_2_pose_choice; [exact Ha | exact Hh' | cbn zeta; intros _; exact Hk].
    - apply point_Yaxis_2_pose_choice; [exact Ha | exact Hh' |].
      cbn zeta. intros _ E. apply Hk. apply cross_swap_zero. exact E.
    - apply point_Zaxis_2_pose_choice; [exact Ha | exact Hh' | cbn zeta; intros _; exact Hk]. }
  split.
  { apply point_Xaxis_2_pose_choice; [exact Ha | lra |].
    cbn zeta. intros Hnear E. unfold cross in E. cbn [elt nth] in E.
    injection E as E0 E1 E2.
    assert (Z2 : a2 = 0) by lra. assert (Z0 : a0 = 0) by lra.
    revert Hnear. apply far_from_parallel.
    replace (a0 * 0 + a1 * 0 + a2 * -1) with 0 by (rewrite Z2; ring).
    assert (Hc0 : forall d : R, 0 / d = 0) by (intros d; unfold Rdiv; ring).
    rewrite Hc0, acos_0. pose proof PI2_1. lra. }
  split.
  { apply point_Yaxis_2_pose_choice; [exact Ha | lra |].
    cbn zeta. intros Hnear E. unfold cross in E. cbn [elt nth] in E.
    injection E as E0 E1 E2.
    assert (Z2 : a2 = 0) by lra.
    revert Hnear. apply far_from_parallel.
    replace (a0 * 0 + a1 * 0 + a2 * -1) with 0 by (rewrite Z2; ring).
    assert (Hc0 : forall d : R, 0 / d = 0) by (intros d; unfold Rdiv; ring).
    rewrite Hc0, acos_0. pose proof PI2_1. lra. }
  split.
  { apply point_Zaxis_2_pose_choice; [exact Ha | lra |].
    cbn zeta. intros Hnear E. unfold cross in E. cbn [elt nth] in E.
    injection E as E0 E1 E2.
    assert (Z0 : a0 = 0) by lra. assert (Z1 : a1 = a2) by lra.
    assert (Hne : a2 <> 0) by (intros Z2; apply Hnz; repeat split; lra).
    revert Hnear. apply far_from_parallel.
    replace (a0 * 0 + a1 * 0 + a2 * 1) with a2 by ring.
    replace (a0 * a0 + a1 * a1 + a2 * a2) with (a2 * a2 + a2 * a2) by (rewrite Z0, Z1; ring).
    replace (0 * 0 + 0 * 0 + 1 * 1) with 1 by ring.
    apply acos_diagonal. exact Hne. }
  intros h k.
  unfold point_Xaxis_2_pose, point_Yaxis_2_pose, point_Zaxis_2_pose, eye.
  cbn [Z.eqb Pos.eqb rbind Mat_of_rows existsb length Nat.eqb negb orb].
  change (setPos [[1; 0; 0; 0]; [0; 1; 0; 0]; [0; 0; 1; 0]; [0; 0; 0; 1]] [p0; p1; p2])
    with (Ok [[1; 0; 0; p0]; [0; 1; 0; p1]; [0; 0; 1; p2]; [0; 0; 0; 1]]).
  cbn [rbind]. unfold setVX, setVY, setVZ. rewrite normalize3_zero.
  repeat split.
Qed.

Lemma point_axis_2_pose_rigid_witness :
  exists F : Mat,
    point_Xaxis_2_pose [10; 20; 30] [2; 0; 0] [0; 0; -1] [0; -1; 0] = Ok F /\
    rigid_pose F /\ Pos F = Ok [10; 20; 30] /\
    VX F = Ok [2 * (1 / sqrt (2 * 2 + 0 * 0 + 0 * 0));
               0 * (1 / sqrt (2 * 2 + 0 * 0 + 0 * 0));
               0 * (1 / sqrt (2 * 2 + 0 * 0 + 0 * 0))].
Proof.
  refine (proj1 (proj2 (point_axis_2_pose_rigid 10 20 30 2 0 0 _))).
  intros (E & _). lra.
Defined.

(** ** Translation and rotation parts of a pose *)

(** A 4x4 matrix [P] with bottom row [0, 0, 0, 1] is the product of its
    translation part and its rotation part, in this order:
    [P.translationPose() * P.rotationPose()] is [P].  The translation part
    has the position of [P] and the identity as rotation block, the
    rotation part has the rotation block of [P] and position [0, 0, 0];
    [VX], [VY], [VZ] and [Pos] return the four columns of [P] without the
    bottom row.  Both parts of an exact rigid pose are exact rigid poses. *)
Theorem translation_rotation_parts (P : Mat) :
  is_4x4 P -> nth 3 P [] = [0; 0; 0; 1] ->
  exists T Rm : Mat,
    translationPose P = Ok T /\ rotationPose P = Ok Rm /\
    Mat_mul T Rm = Ok P /\
    T = transl P.[0, 3] P.[1, 3] P.[2, 3] /\
    Pos Rm = Ok [0; 0; 0] /\ Rot33 Rm = Rot33 P /\
    VX Rm = VX P /\ VY Rm = VY P /\ VZ Rm = VZ P /\
    VX P = Ok [P.[0, 0]; P.[1, 0]; P.[2, 0]] /\
    VY P = Ok [P.[0, 1]; P.[1, 1]; P.[2, 1]] /\
    VZ P = Ok [P.[0, 2]; P.[1, 2]; P.[2, 2]] /\
    Pos P = Ok [P.[0, 3]; P.[1, 3]; P.[2, 3]] /\
    (rigid_pose P -> rigid_pose T /\ rigid_pose Rm).
Proof.
  intros HP Hrow.
  destruct (is_4x4_inv P HP)
    as (a00 & a01 & a02 & a03 & a10 & a11 & a12 & a13 &
        a20 & a21 & a22 & a23 & a30 & a31 & a32 & a33 & ->).
  cbn [nth] in Hrow. injection Hrow as -> -> -> ->.
  exists [[1; 0; 0; a03]; [0; 1; 0; a13]; [0; 0; 1; a23]; [0; 0; 0; 1]],
         [[a00; a01; a02; 0]; [a10; a11; a12; 0]; [a20; a21; a22; 0]; [0; 0; 0; 1]].
  split; [reflexivity |]. split; [reflexivity |].
  split; [rewrite Mat_mul_4x4_entries; mat_entries; ring |].
  split; [reflexivity |].
  repeat (split; [reflexivity |]).
  intros Hrig.
  destruct (rigid_pose_inv _ Hrig)
    as (b00 & b01 & b02 & b03 & b10 & b11 & b12 & b13 & b20 & b21 & b22 & b23 &
        E & H00 & H11 & H22 & H01 & H02 & H12 & Hdet).
  injection E as -> -> -> -> -> -> -> -> -> -> -> ->.
  split.
  - apply rigid_pose_transl.
  - apply rigid_pose_intro; assumption.
Qed.

Lemma translation_rotation_parts_witness :
  exists T Rm : Mat,
    translationPose (transl 10 20 30) = Ok T /\
    rotationPose (transl 10 20 30) = Ok Rm /\
    Mat_mul T Rm = Ok (transl 10 20 30).
Proof.
  destruct (translation_rotation_parts (transl 10 20 30)
              (is_4x4_intro _ _ _ _ _ _ _ _ _ _ _ _ _ _ _ _) eq_refl)
    as (T & Rm & HT & HR & Hmul & _).
  exists T, Rm. auto.
Defined.

(** ** Sums and differences of matrices of any size *)

(** A loop over a concatenation runs the two loops one after the other. *)
Lemma for_in_app {A S : Type} (xs ys : list A) (body : A -> S -> result S) (s : S) :
  for_in (xs ++ ys) body s = do s' <- for_in xs body s; for_in ys body s'.
Proof.
  revert s. induction xs as [| x xs IH]; intros s; cbn [for_in app rbind].
  - reflexivity.
  - destruct (body x s) as [s' | e]; cbn [rbind]; [apply IH | reflexivity].
Qed.

(** The loop of [__add__] and [__sub__]: row [x] of the result is computed
    from row [x] of the operands, for [x] from 0. *)
Lemma for_in_rows (f : list R -> list R -> list R) (A B ret0 : Mat) (k : nat) :
  length A = length ret0 -> length B = length ret0 -> (k <= length ret0)%nat ->
  for_in (seq 0 k)
    (fun x ret => do r1 <- rows_row A x; do r2 <- rows_row B x;
                  rows_set_row ret x (f r1 r2)) ret0
  = Ok (zip_with f (take k A) (take k B) ++ drop k ret0).
Proof.
  intros HA HB. induction k as [| k IH]; intros Hk.
  - cbn [seq for_in take zip_with app]. rewrite drop_0. reflexivity.
  - rewrite seq_S, for_in_app, IH by lia. cbn [rbind Nat.add for_in].
    destruct (lookup_lt_is_Some_2 A k) as [a Ha]; [lia |].
    destruct (lookup_lt_is_Some_2 B k) as [b Hb]; [lia |].
    destruct (lookup_lt_is_Some_2 ret0 k) as [r Hr]; [lia |].
    unfold rows_row, rows_set_row. rewrite Ha, Hb. cbn [rbind].
    assert (Hlen : length (zip_with f (take k A) (take k B)) = k).
    { rewrite length_zip_with, !length_take. lia. }
    destruct (Nat.ltb_spec k (length (zip_with f (take k A) (take k B) ++ drop k ret0)))
      as [_ | Hge]; [| rewrite length_app, length_drop, Hlen in Hge; lia].
    f_equal.
    rewrite insert_app_r_alt by lia. rewrite Hlen, Nat.sub_diag.
    rewrite (drop_S ret0 r k Hr). cbn [insert list_insert].
    rewrite (take_S_r A k a Ha), (take_S_r B k b Hb).
    rewrite zip_with_app by (rewrite !length_take; lia).
    cbn [zip_with]. rewrite <- app_assoc. reflexivity.
Qed.
(** The size of a matrix of [m] rows of length [n], [m] not zero. *)
Lemma size_has_shape (A : Mat) (m n : nat) :
  (0 < m)%nat -> has_shape A m n -> size A = (m, n).
Proof.
  intros Hm [Hlen Hrows]. unfold size. destruct A as [| row0 A]; cbn [length] in *; [lia |].
  inversion_clear Hrows as [| ? ? H0 _]. rewrite Hlen, H0. reflexivity.
Qed.

Lemma size_eqb_eq (s1 s2 : nat * nat) : size_eqb s1 s2 = true <-> s1 = s2.
Proof.
  destruct s1 as [m1 n1], s2 as [m2 n2]. unfold size_eqb. cbn [fst snd].
  rewrite andb_true_iff, !Nat.eqb_eq. split; [intros [-> ->]; reflexivity |].
  intros E. injection E as -> ->. auto.
Qed.

(** [self + mat] and [self - mat] on two matrices of the same shape: the
    rows are combined pairwise. *)
Lemma Mat_add_value (A B : Mat) (m n : nat) :
  (0 < m)%nat -> has_shape A m n -> has_shape B m n ->
  Mat_add A B
  = Ok (zip_with (fun r1 r2 => map (fun item => 0 + fst item + snd item) (combine r1 r2)) A B).
Proof.
  intros Hm HA HB. unfold Mat_add.
  rewrite (size_has_shape A m n Hm HA), (size_has_shape B m n Hm HB).
  rewrite (proj2 (size_eqb_eq (m, n) (m, n)) eq_refl). cbn [negb fst snd].
  destruct HA as [HlA _], HB as [HlB _].
  assert (Hz : length (Mat_zeros m n) = m).
  { unfold Mat_zeros. destruct (Nat.eqb_spec m 0); [lia | apply repeat_length]. }
  pose proof (for_in_rows
                (fun r1 r2 => map (fun item => 0 + fst item + snd item) (combine r1 r2))
                A B (Mat_zeros m n) m) as Hloop.
  rewrite !take_ge, drop_ge, app_nil_r in Hloop by lia.
  apply Hloop; lia.
Qed.

Lemma Mat_sub_value (A B : Mat) (m n : nat) :
  (0 < m)%nat -> has_shape A m n -> has_shape B m n ->
  Mat_sub A B
  = Ok (zip_with (fun r1 r2 => map (fun item => fst item - snd item) (combine r1 r2)) A B).
Proof.
  intros Hm HA HB. unfold Mat_sub.
  rewrite (size_has_shape A m n Hm HA), (size_has_shape B m n Hm HB).
  rewrite (proj2 (size_eqb_eq (m, n) (m, n)) eq_refl). cbn [negb fst snd].
  destruct HA as [HlA _], HB as [HlB _].
  assert (Hz : length (Mat_zeros m n) = m).
  { unfold Mat_zeros. destruct (Nat.eqb_spec m 0); [lia | apply repeat_length]. }
  pose proof (for_in_rows
                (fun r1 r2 => map (fun item => fst item - snd item) (combine r1 r2))
                A B (Mat_zeros m n) m) as Hloop.
  rewrite !take_ge, drop_ge, app_nil_r in Hloop by lia.
  apply Hloop; lia.
Qed.
(** The rows of a matrix of shape [m] by [n] have length [n]. *)
Lemma has_shape_row (A : Mat) (m n i : nat) :
  has_shape A m n -> (i < m)%nat -> length (nth i A []) = n.
Proof.
  intros [Hl Hr] Hi. rewrite List.Forall_forall in Hr.
  apply Hr, nth_In. lia.
Qed.

(** Two matrices of the same shape with the same entries are equal. *)
Lemma mat_ext (A B : Mat) (m n : nat) :
  has_shape A m n -> has_shape B m n ->
  (forall i j : nat, (i < m)%nat -> (j < n)%nat -> A.[i, j] = B.[i, j]) ->
  A = B.
Proof.
  intros HA HB Hent.
  pose proof (proj1 HA) as HlA. pose proof (proj1 HB) as HlB.
  apply (nth_ext A B [] []); [lia |].
  intros i Hi.
  pose proof (has_shape_row A m n i HA ltac:(lia)) as HrA.
  pose proof (has_shape_row B m n i HB ltac:(lia)) as HrB.
  apply (nth_ext _ _ 0 0); [lia |].
  intros j Hj. apply Hent; lia.
Qed.

Section Pairwise.
Variable g : R * R -> R.

Lemma nth_map_combine (r1 r2 : list R) (j : nat) :
  (j < length r1)%nat -> (j < length r2)%nat ->
  nth j (map g (combine r1 r2)) 0 = g (nth j r1 0, nth j r2 0).
Proof.
  revert r2 j. induction r1 as [| x r1 IH]; intros [| y r2] j H1 H2;
    cbn [length] in *; try lia.
  destruct j as [| j]; cbn [combine map nth]; [reflexivity | apply IH; lia].
Qed.

Lemma nth_zip_with_rows (A B : Mat) (i : nat) :
  (i < length A)%nat -> (i < length B)%nat ->
  nth i (zip_with (fun r1 r2 => map g (combine r1 r2)) A B) []
  = map g (combine (nth i A []) (nth i B [])).
Proof.
  revert B i. induction A as [| a A IH]; intros [| b B] i H1 H2;
    cbn [length] in *; try lia.
  destruct i as [| i]; cbn [zip_with nth]; [reflexivity | apply IH; lia].
Qed.

Lemma pairwise_shape (A B : Mat) (m n : nat) :
  has_shape A m n -> has_shape B m n ->
  has_shape (zip_with (fun r1 r2 => map g (combine r1 r2)) A B) m n.
Proof.
  intros [HlA HrA] [HlB HrB]. split.
  - rewrite length_zip_with. lia.
  - clear HlA HlB. revert B HrB.
    induction HrA as [| a A Ha HrA IH]; intros B HrB; [constructor |].
    destruct HrB as [| b B Hb HrB]; cbn [zip_with]; constructor.
    + rewrite length_map, length_combine. lia.
    + apply IH. exact HrB.
Qed.

Lemma pairwise_item (A B : Mat) (m n i j : nat) :
  has_shape A m n -> has_shape B m n -> (i < m)%nat -> (j < n)%nat ->
  (zip_with (fun r1 r2 => map g (combine r1 r2)) A B).[i, j] = g (A.[i, j], B.[i, j]).
Proof.
  intros HA HB Hi Hj. unfold item.
  pose proof (proj1 HA) as HlA. pose proof (proj1 HB) as HlB.
  rewrite nth_zip_with_rows by lia.
  apply nth_map_combine.
  - rewrite (has_shape_row A m n i HA Hi). exact Hj.
  - rewrite (has_shape_row B m n i HB Hi). exact Hj.
Qed.
End Pairwise.

(** [A + B] and [A - B] for two matrices of the same shape, with at least
    one row: the result has that shape and its entries are the sums (the
    differences) of the entries; [+] is commutative; [(A + B) - B] and
    [(A - B) + B] are [A].  When the sizes differ, both raise the
    [MatrixError] on sizes. *)
Theorem Mat_add_sub (A B : Mat) (m n : nat) :
  (0 < m)%nat -> has_shape A m n -> has_shape B m n ->
  (exists C : Mat,
     Mat_add A B = Ok C /\ has_shape C m n /\
     (forall i j : nat, (i < m)%nat -> (j < n)%nat -> C.[i, j] = A.[i, j] + B.[i, j]) /\
     Mat_add B A = Ok C /\ Mat_sub C B = Ok A) /\
  (exists D : Mat,
     Mat_sub A B = Ok D /\ has_shape D m n /\
     (forall i j : nat, (i < m)%nat -> (j < n)%nat -> D.[i, j] = A.[i, j] - B.[i, j]) /\
     Mat_add D B = Ok A) /\
  (forall B' : Mat, size B' <> (m, n) ->
     Mat_add A B' = Raise (MatrixError SizeMismatch) /\
     Mat_sub A B' = Raise (MatrixError SizeMismatch)).
Proof.
  intros Hm HA HB.
  set (fadd := fun item : R * R => 0 + fst item + snd item).
  set (fsub := fun item : R * R => fst item - snd item).
  pose proof (pairwise_shape fadd A B m n HA HB) as HC.
  pose proof (pairwise_shape fsub A B m n HA HB) as HD.
  split; [| split].
  - eexists. split; [apply (Mat_add_value A B m n); assumption |].
    split; [exact HC |]. split; [| split].
    + intros i j Hi Hj. rewrite (pairwise_item fadd A B m n) by assumption.
      unfold fadd. cbn [fst snd]. ring.
    + rewrite (Mat_add_value B A m n) by assumption. f_equal.
      apply (mat_ext _ _ m n); [apply pairwise_shape; assumption | exact HC |].
      intros i j Hi Hj.
      rewrite (pairwise_item fadd B A m n), (pairwise_item fadd A B m n) by assumption.
      unfold fadd. cbn [fst snd]. ring.
    + rewrite (Mat_sub_value _ B m n) by assumption. f_equal.
      apply (mat_ext _ _ m n); [apply pairwise_shape; assumption | exact HA |].
      intros i j Hi Hj.
      rewrite (pairwise_item fsub _ B m n), (pairwise_item fadd A B m n) by assumption.
      unfold fadd, fsub. cbn [fst snd]. ring.
  - eexists. split; [apply (Mat_sub_value A B m n); assumption |].
    split; [exact HD |]. split.
    + intros i j Hi Hj. rewrite (pairwise_item fsub A B m n) by assumption.
      reflexivity.
    + rewrite (Mat_add_value _ B m n) by assumption. f_equal.
      apply (mat_ext _ _ m n); [apply pairwise_shape; assumption | exact HA |].
      intros i j Hi Hj.
      rewrite (pairwise_item fadd _ B m n), (pairwise_item fsub A B m n) by assumption.
      unfold fadd, fsub. cbn [fst snd]. ring.
  - intros B' Hsz. unfold Mat_add, Mat_sub.
    rewrite (size_has_shape A m n Hm HA).
    destruct (size_eqb (m, n) (size B')) eqn:E.
    + apply size_eqb_eq in E. congruence.
    + split; reflexivity.
Qed.

Lemma Mat_add_sub_witness :
  exists C : Mat,
    Mat_add [[1; 2; 3]; [4; 5; 6]] [[10; 20; 30]; [40; 50; 60]] = Ok C /\
    Mat_sub C [[10; 20; 30]; [40; 50; 60]] = Ok [[1; 2; 3]; [4; 5; 6]].
Proof.
  destruct (Mat_add_sub [[1; 2; 3]; [4; 5; 6]] [[10; 20; 30]; [40; 50; 60]] 2 3)
    as [(C & HC & _ & _ & _ & Hback) _].
  - lia.
  - split; [reflexivity | repeat constructor].
  - split; [reflexivity | repeat constructor].
  - exists C. split; assumption.
Defined.

(** ** The transpose of a matrix of any size *)

(** [zip] stops at the shortest row: rows of one length give that length. *)
Lemma fold_min_rows (rest : list (list R)) (n : nat) :
  Forall (fun row => length row = n) rest ->
  fold_left Nat.min (map (fun row => length row) rest) n = n.
Proof.
  induction 1 as [| row rest Hrow _ IH]; cbn [map fold_left]; [reflexivity |].
  rewrite Hrow, Nat.min_id. exact IH.
Qed.

(** [Mat(rows)] keeps rows that all have one length. *)
Lemma Mat_of_rows_uniform (X : list (list R)) (k : nat) :
  X <> [] -> Forall (fun row => length row = k) X -> Mat_of_rows X = X.
Proof.
  intros Hne HX. destruct X as [| row0 rest]; [congruence |].
  inversion_clear HX as [| ? ? H0 Hrest]. unfold Mat_of_rows.
  replace (existsb (fun row => negb (length row =? length row0)%nat) rest) with false;
    [reflexivity |].
  symmetry. clear Hne. subst k.
  induction Hrest as [| row rest Hrow _ IH]; cbn [existsb]; [reflexivity |].
  rewrite Hrow, Nat.eqb_refl. cbn [negb orb]. exact IH.
Qed.

(** The transpose of [m] rows of length [n], neither being zero: column
    [j] of the matrix becomes row [j]. *)
Lemma tr_value (A : Mat) (m n : nat) :
  (0 < m)%nat -> (0 < n)%nat -> has_shape A m n ->
  tr A = map (fun j => map (fun row => row.[j]) A) (seq 0 n).
Proof.
  intros Hm Hn HA. unfold tr. rewrite (size_has_shape A m n Hm HA). cbn [fst snd].
  destruct (Nat.eqb_spec m 0) as [E | _]; [lia |].
  destruct (Nat.eqb_spec n 0) as [E | _]; [lia |]. cbn [orb].
  destruct HA as [Hlen Hrows].
  destruct A as [| row0 rest]; [cbn [length] in Hlen; lia |].
  inversion_clear Hrows as [| ? ? H0 Hrest]. unfold zip_rows.
  rewrite H0, (fold_min_rows rest n Hrest).
  apply (Mat_of_rows_uniform _ (length (row0 :: rest))).
  - destruct n; [lia | discriminate].
  - apply List.Forall_forall. intros row Hin. apply in_map_iff in Hin.
    destruct Hin as (j & <- & _). apply length_map.
Qed.
Lemma tr_shape (A : Mat) (m n : nat) :
  (0 < m)%nat -> (0 < n)%nat -> has_shape A m n -> has_shape (tr A) n m.
Proof.
  intros Hm Hn HA. rewrite (tr_value A m n Hm Hn HA). split.
  - rewrite length_map, length_seq. reflexivity.
  - apply List.Forall_forall. intros row Hin. apply in_map_iff in Hin.
    destruct Hin as (j & <- & _). rewrite length_map. exact (proj1 HA).
Qed.

Lemma tr_item (A : Mat) (m n i j : nat) :
  (i < m)%nat -> (j < n)%nat -> has_shape A m n -> (tr A).[j, i] = A.[i, j].
Proof.
  intros Hi Hj HA. rewrite (tr_value A m n) by (assumption || lia).
  unfold item.
  rewrite (nth_indep _ [] ((fun j => map (fun row : list R => row.[j]) A) 0%nat))
    by (rewrite length_map, length_seq; exact Hj).
  rewrite (map_nth (fun j => map (fun row : list R => row.[j]) A)).
  rewrite seq_nth by exact Hj. cbn [Nat.add].
  rewrite (nth_indep _ 0 ((fun row : list R => row.[j]) []))
    by (rewrite length_map, (proj1 HA); exact Hi).
  rewrite (map_nth (fun row : list R => row.[j])). reflexivity.
Qed.

(** [tr()] on a matrix of [m] rows of length [n], [m] not zero.  When [n]
    is not zero the transpose has [n] rows of length [m], its entry
    [(j, i)] is the entry [(i, j)] of the matrix, transposing twice gives
    the matrix back, and [tolist()] returns the first column.  When the
    rows are empty the transpose is the empty matrix [Mat(0, 0)], a single
    empty row, whatever [m] is, so that transposing twice does not give a
    matrix of several empty rows back. *)
Theorem tr_involution (A : Mat) (m n : nat) :
  (0 < m)%nat -> has_shape A m n ->
  ((0 < n)%nat ->
     has_shape (tr A) n m /\ size (tr A) = (n, m) /\
     (forall i j : nat, (i < m)%nat -> (j < n)%nat -> (tr A).[j, i] = A.[i, j]) /\
     tr (tr A) = A /\
     tolist A = Ok (map (fun row => row.[0]) A)) /\
  (n = 0%nat -> tr A = [[]] /\ tr (tr A) = [[]] /\ tolist A = Ok []).
Proof.
  intros Hm HA. split.
  - intros Hn. pose proof (tr_shape A m n Hm Hn HA) as HT.
    split; [exact HT |]. split; [apply size_has_shape; assumption |].
    split; [intros i j Hi Hj; apply (tr_item A m n); assumption |].
    split.
    + apply (mat_ext _ _ m n); [apply tr_shape; assumption | exact HA |].
      intros i j Hi Hj.
      rewrite (tr_item (tr A) n m j i Hj Hi HT). apply (tr_item A m n); assumption.
    + unfold tolist. rewrite (tr_value A m n Hm Hn HA).
      destruct n as [| n]; [lia | reflexivity].
  - intros ->. assert (E : tr A = [[]]).
    { unfold tr. rewrite (size_has_shape A m 0 Hm HA). cbn [fst snd Nat.eqb].
      rewrite orb_true_r. reflexivity. }
    unfold tolist. rewrite E. repeat split.
Qed.

Lemma tr_involution_witness :
  tr (tr [[1; 2; 3]; [4; 5; 6]]) = [[1; 2; 3]; [4; 5; 6]].
Proof.
  refine (proj1 (proj2 (proj2 (proj2
    (proj1 (tr_involution [[1; 2; 3]; [4; 5; 6]] 2 3 _ _) _))))).
  - lia.
  - split; [reflexivity | repeat constructor].
  - lia.
Defined.
